(** * PAKA: plugin dispatch and installation history

    A shallow embedding of the two core subsystems of PAKA,
    [src/core/plugin_manager.py] (SimplePlugin, PluginManager) and
    [src/core/history.py] (HistoryManager), with the properties the
    specification states about them.

    Conventions of the embedding:
    - a Python [str] is a Rocq [string], read as a sequence of code points
      below 256;
    - a [dict] whose order matters (the plugin registry, a context) is an
      association list with Python's update-in-place insertion;
    - Python objects that are shared by reference (the installation dicts
      of a ledger) live in a store and are named by their location;
    - everything outside the process (shell commands, the package-manager
      back ends, the clock, the file system) is an abstract [World] threaded
      through the calls, with one oracle per external operation. *)

From Stdlib Require Import String Ascii List ZArith Lia Bool Sorted.
From stdpp Require Import base list strings pretty gmap.

Set Warnings "-register-all".
Local Open Scope string_scope.

(** ** Python values and exceptions *)

(** A call either returns or raises. The payload of [Raise] is the text of
    the exception, [str(e)]; for an exception of the interpreter it is the
    name of its class. *)
Inductive result (A : Type) : Type :=
  | Ok (a : A)
  | Raise (e : string).
Arguments Ok {A} a.
Arguments Raise {A} e.

Definition is_ok {A} (r : result A) : bool :=
  match r with Ok _ => true | Raise _ => false end.

(** The values a context entry holds ([Dict[str, Any]]): the shapes the
    callers put there. *)
Inductive PyVal : Type :=
  | VNone
  | VBool (b : bool)
  | VInt (z : Z)
  | VStr (s : string)
  | VList (l : list PyVal).

(** ** Python string operations *)
Module PyStr.

(** [s.lower()]: the capital letters below 256 are [A] to [Z] and the
    Latin-1 capitals 192 to 222 without the multiplication sign 215; each has
    its small letter 32 places on. *)
Definition lower_char (c : ascii) : ascii :=
  let n := nat_of_ascii c in
  if ((65 <=? n)%nat && (n <=? 90)%nat)
     || ((192 <=? n)%nat && (n <=? 222)%nat && negb (n =? 215)%nat)
  then ascii_of_nat (n + 32) else c.

Fixpoint lower (s : string) : string :=
  match s with
  | EmptyString => EmptyString
  | String c s' => String (lower_char c) (lower s')
  end.

(** [pat in s] *)
Fixpoint contains (pat s : string) : bool :=
  String.prefix pat s ||
  match s with
  | EmptyString => false
  | String _ s' => contains pat s'
  end.

(** [s.startswith(p)] and [s[n:]] *)
Definition startswith (p s : string) : bool := String.prefix p s.

Fixpoint drop (n : nat) (s : string) : string :=
  match n, s with
  | O, _ => s
  | S _, EmptyString => EmptyString
  | S k, String _ s' => drop k s'
  end.

(** [s.replace(old, new)] for a non-empty [old]: the occurrences are taken
    from the left and do not overlap. [skip] counts the characters of the
    occurrence just replaced that are still to be passed over. *)
Fixpoint replace_go (old new : string) (skip : nat) (s : string) : string :=
  match s with
  | EmptyString => EmptyString
  | String c s' =>
      match skip with
      | S k => replace_go old new k s'
      | O =>
          if String.prefix old s
          then new +:+ replace_go old new (String.length old - 1) s'
          else String c (replace_go old new 0 s')
      end
  end.

(** With an empty [old], Python puts [new] before every character and at
    the end. *)
Fixpoint intersperse (new s : string) : string :=
  match s with
  | EmptyString => new
  | String c s' => new +:+ String c (intersperse new s')
  end.

Definition replace (old new s : string) : string :=
  match old with
  | EmptyString => intersperse new s
  | String _ _ => replace_go old new 0 s
  end.

(** [sep.join(l)] *)
Definition join (sep : string) (l : list string) : string :=
  String.concat sep l.

(** The characters of a string, as Python iterates over it. *)
Fixpoint chars (s : string) : list string :=
  match s with
  | EmptyString => []
  | String c s' => String c EmptyString :: chars s'
  end.

Definition hex_digit (n : nat) : ascii :=
  if (n <? 10)%nat then ascii_of_nat (48 + n) else ascii_of_nat (87 + n).

Definition printable (n : nat) : bool :=
  ((32 <=? n)%nat && (n <? 127)%nat) ||
  ((161 <=? n)%nat && negb (n =? 173)%nat).

(** [repr(s)]: single quotes unless the string has one and has no double
    quote; backslash, the quote and the control characters escaped. *)
Fixpoint repr_body (q : ascii) (s : string) : string :=
  match s with
  | EmptyString => EmptyString
  | String c s' =>
      let n := nat_of_ascii c in
      let rest := repr_body q s' in
      if Ascii.eqb c q || (n =? 92)%nat then String "\" (String c rest)
      else if (n =? 9)%nat then "\t" +:+ rest
      else if (n =? 10)%nat then "\n" +:+ rest
      else if (n =? 13)%nat then "\r" +:+ rest
      else if printable n then String c rest
      else "\x" +:+ String (hex_digit (n / 16)) (String (hex_digit (n mod 16)) rest)
  end.

Definition dquote : ascii := ascii_of_nat 34.

Definition repr (s : string) : string :=
  let q := if contains "'" s && negb (contains (String dquote EmptyString) s)
           then dquote else "'"%char in
  String q (repr_body q s +:+ String q EmptyString).

End PyStr.

(** ** Python list operations on lists of strings *)
Module PyList.

(** [x in l] *)
Definition mem (x : string) (l : list string) : bool := existsb (String.eqb x) l.

(** [l.remove(x)]: the first occurrence. *)
Fixpoint remove_first (x : string) (l : list string) : list string :=
  match l with
  | [] => []
  | y :: l' => if String.eqb y x then l' else y :: remove_first x l'
  end.

(** Duplicates dropped, first occurrences kept in order: the
    [seen]/[unique_packages] loop of [perform_rollback]. *)
Fixpoint unique_from (seen : list string) (l : list string) : list string :=
  match l with
  | [] => []
  | x :: l' => if mem x seen then unique_from seen l'
               else x :: unique_from (x :: seen) l'
  end.

Definition unique (l : list string) : list string := unique_from [] l.

End PyList.

(** [str(v)] and [repr(v)] *)
Fixpoint py_repr (v : PyVal) : string :=
  match v with
  | VNone => "None"
  | VBool true => "True"
  | VBool false => "False"
  | VInt z => pretty z
  | VStr s => PyStr.repr s
  | VList l => "[" +:+ PyStr.join ", " (map py_repr l) +:+ "]"
  end.

Definition py_str (v : PyVal) : string :=
  match v with
  | VStr s => s
  | _ => py_repr v
  end.

(** ** Insertion-ordered dictionaries with string keys *)
Module Dict.
Section Dict.
Context {V : Type}.

Definition t := list (string * V).

Fixpoint get (d : t) (k : string) : option V :=
  match d with
  | [] => None
  | (k', v) :: d' => if String.eqb k' k then Some v else get d' k
  end.

(** [d[k] = v]: an existing key keeps its place. *)
Fixpoint set (d : t) (k : string) (v : V) : t :=
  match d with
  | [] => [(k, v)]
  | (k', v') :: d' =>
      if String.eqb k' k then (k, v) :: d' else (k', v') :: set d' k v
  end.

Definition keys (d : t) : list string := map fst d.
Definition values (d : t) : list V := map snd d.
End Dict.
Arguments t V : clear implicits.
End Dict.

(** A context: [Dict[str, Any]]. *)
Definition Context := Dict.t PyVal.

Definition ctx_get (ctx : Context) (k : string) (default : PyVal) : PyVal :=
  match Dict.get ctx k with
  | Some v => v
  | None => default
  end.


(** Sequencing of calls that may raise. *)
#[global] Instance result_ret : MRet result := fun _ a => Ok a.
#[global] Instance result_bind : MBind result := fun _ _ f r =>
  match r with
  | Ok a => f a
  | Raise e => Raise e
  end.

(** ** The plugin system ([src/core/plugin_manager.py]) *)
Module Plugin.

(** The dictionary [_load_config] builds from a [plugin.conf]; [events] maps
    an event name to its actions, in file order. *)
Record PluginConfig := {
  enabled : bool;
  description : string;
  version : string;
  author : string;
  events : Dict.t (list string) }.

(** class SimplePlugin *)
Record SimplePlugin := {
  name : string;
  plugin_dir : string;
  config : PluginConfig }.

Definition is_enabled (p : SimplePlugin) : bool := enabled (config p).

Definition set_enabled (b : bool) (p : SimplePlugin) : SimplePlugin :=
  {| name := name p; plugin_dir := plugin_dir p;
     config := {| enabled := b;
                  description := description (config p);
                  version := version (config p);
                  author := author (config p);
                  events := events (config p) |} |}.

(** What [_expand_variables] reads from the process: [os.environ] and the
    three formatted readings of [datetime.now()]. *)
Record SysInfo := {
  environ : Dict.t string;
  now_timestamp : string;
  now_date : string;
  now_time : string }.

Definition getenv (si : SysInfo) (k default : string) : string :=
  match Dict.get (environ si) k with
  | Some v => v
  | None => default
  end.

(** [str.replace] accepts only a [str] as its second argument. *)
Definition as_str (v : PyVal) : result string :=
  match v with
  | VStr s => Ok s
  | _ => Raise "TypeError"
  end.

Fixpoint all_str (l : list PyVal) : result (list string) :=
  match l with
  | [] => Ok []
  | v :: l' => s ← as_str v; ss ← all_str l'; Ok (s :: ss)
  end.

(** [' '.join(v)]: [v] must be an iterable of strings. *)
Definition join_arg (v : PyVal) : result string :=
  match v with
  | VStr s => Ok (PyStr.join " " (PyStr.chars s))
  | VList l => ss ← all_str l; Ok (PyStr.join " " ss)
  | _ => Raise "TypeError"
  end.

(** [len(v)] *)
Definition len_arg (v : PyVal) : result nat :=
  match v with
  | VStr s => Ok (String.length s)
  | VList l => Ok (length l)
  | _ => Raise "TypeError"
  end.

(** SimplePlugin._expand_variables *)
Definition _expand_variables (p : SimplePlugin) (si : SysInfo)
    (text : string) (context : Context) : result string :=
  pm ← as_str (ctx_get context "package_manager" (VStr ""));
  let text := PyStr.replace "$package-manager" pm text in
  pk ← join_arg (ctx_get context "packages" (VList []));
  let text := PyStr.replace "$packages" pk text in
  n ← len_arg (ctx_get context "packages" (VList []));
  let text := PyStr.replace "$package-count" (pretty n) text in
  op ← as_str (ctx_get context "operation" (VStr ""));
  let text := PyStr.replace "$operation" op text in
  let text := PyStr.replace "$success"
                (py_str (ctx_get context "success" (VBool false))) text in
  er ← as_str (ctx_get context "error" (VStr ""));
  let text := PyStr.replace "$error" er text in
  let text := PyStr.replace "$user" (getenv si "USER" "") text in
  let text := PyStr.replace "$home" (getenv si "HOME" "") text in
  let text := PyStr.replace "$hostname" (getenv si "HOSTNAME" "") text in
  let text := PyStr.replace "$plugin-name" (name p) text in
  let text := PyStr.replace "$plugin-dir" (plugin_dir p) text in
  let text := PyStr.replace "$timestamp" (now_timestamp si) text in
  let text := PyStr.replace "$date" (now_date si) text in
  let text := PyStr.replace "$time" (now_time si) text in
  Ok text.

(** The tokens [_expand_variables] replaces. *)
Definition builtin_tokens : list string :=
  [ "$package-manager"; "$packages"; "$package-count"; "$operation";
    "$success"; "$error"; "$user"; "$home"; "$hostname"; "$plugin-name";
    "$plugin-dir"; "$timestamp"; "$date"; "$time" ].

(** The four ways an action acts on the world. Each of [_run_command],
    [_run_script], [_send_notification] and [_log_message] catches every
    exception and answers with a boolean. *)
Record Shell (World : Type) := {
  sysinfo : World -> SysInfo;
  _run_command : string -> World -> bool * World;
  _run_script : string -> string -> World -> bool * World;
  _send_notification : string -> World -> bool * World;
  _log_message : string -> string -> World -> bool * World;
  write_plugin_conf : SimplePlugin -> World -> World }.
Arguments sysinfo {World} _ _.
Arguments _run_command {World} _ _ _.
Arguments _run_script {World} _ _ _ _.
Arguments _send_notification {World} _ _ _.
Arguments _log_message {World} _ _ _ _.
Arguments write_plugin_conf {World} _ _ _.

(** The calls made so far, oldest first, each with what it returned: a
    record kept beside the world to state which handlers and actions ran. *)
Inductive Call :=
  | HandleEvent (plugin event : string) (ret : bool)
  | ExecuteAction (plugin action : string) (ret : bool).

Record PState (World : Type) := {
  world : World;
  calls : list Call }.
Arguments world {World} _.
Arguments calls {World} _.

Section Dispatch.
Context {World : Type} (sh : Shell World).

Definition record_call (c : Call) (w : World) (st : PState World) : PState World :=
  {| world := w; calls := calls st ++ [c] |}.

(** SimplePlugin._execute_action *)
Definition _execute_action (p : SimplePlugin) (action : string)
    (context : Context) (st : PState World) : bool * PState World :=
  let w := world st in
  let '(r, w') :=
    match _expand_variables p (sysinfo sh w) action context with
    | Raise _ => (false, w)
    | Ok expanded_action =>
        if PyStr.startswith "run:" expanded_action then
          _run_command sh (PyStr.drop 4 expanded_action) w
        else if PyStr.startswith "script:" expanded_action then
          _run_script sh (plugin_dir p) (PyStr.drop 7 expanded_action) w
        else if PyStr.startswith "notify:" expanded_action then
          _send_notification sh (PyStr.drop 7 expanded_action) w
        else if PyStr.startswith "log:" expanded_action then
          _log_message sh (plugin_dir p) (PyStr.drop 4 expanded_action) w
        else
          _run_command sh expanded_action w
    end in
  (r, record_call (ExecuteAction (name p) action r) w' st).

(** The loop of [handle_event] over the actions of one event. *)
Fixpoint run_actions (p : SimplePlugin) (actions : list string)
    (context : Context) (st : PState World) : bool * PState World :=
  match actions with
  | [] => (true, st)
  | action :: rest =>
      let '(ok, st') := _execute_action p action context st in
      if ok then run_actions p rest context st' else (false, st')
  end.

(** SimplePlugin.handle_event *)
Definition handle_event (p : SimplePlugin) (event : string)
    (context : Context) (st : PState World) : bool * PState World :=
  let '(r, st') :=
    if negb (is_enabled p) then (true, st)
    else match Dict.get (events (config p)) event with
         | Some actions => run_actions p actions context st
         | None => (true, st)
         end in
  (r, record_call (HandleEvent (name p) event r) (world st') st').

End Dispatch.

(** One entry of [plugin_dir.iterdir()]: [item_conf] is the configuration
    [_load_config] reads from the entry's [plugin.conf], when there is one. *)
Record DirEntry := {
  item_name : string;
  item_path : string;
  item_is_dir : bool;
  item_conf : option PluginConfig }.

(** class PluginManager: the registry and the [enabled_plugins] list of the
    main configuration. *)
Record PluginManager := {
  plugins : Dict.t SimplePlugin;
  enabled_plugins : list string }.

(** SimplePlugin(plugin_name, item) *)
Definition new_plugin (plugin_name : string) (item : DirEntry)
    (c : PluginConfig) : SimplePlugin :=
  {| name := plugin_name; plugin_dir := item_path item; config := c |}.

(** PluginManager._load_plugins_from_dir *)
Fixpoint _load_plugins_from_dir (items : list DirEntry) (prefix : string)
    (reg : Dict.t SimplePlugin) : Dict.t SimplePlugin :=
  match items with
  | [] => reg
  | item :: rest =>
      let reg' :=
        match item_is_dir item, item_conf item with
        | true, Some c =>
            let plugin_name :=
              if String.eqb prefix "" then item_name item
              else prefix +:+ "-" +:+ item_name item in
            Dict.set reg plugin_name (new_plugin plugin_name item c)
        | _, _ => reg
        end in
      _load_plugins_from_dir rest prefix reg'
  end.

(** PluginManager._load_plugins: a directory that does not exist is [None]. *)
Definition _load_plugins (system_dir user_dir : option (list DirEntry))
    : Dict.t SimplePlugin :=
  let reg := match system_dir with
             | Some items => _load_plugins_from_dir items "system" []
             | None => []
             end in
  match user_dir with
  | Some items => _load_plugins_from_dir items "user" reg
  | None => reg
  end.

(** PluginManager._remove_plugin_from_config, _add_plugin_to_config *)
Definition _remove_plugin_from_config (plugin_name : string)
    (pm : PluginManager) : PluginManager :=
  {| plugins := plugins pm;
     enabled_plugins := if PyList.mem plugin_name (enabled_plugins pm)
                        then PyList.remove_first plugin_name (enabled_plugins pm)
                        else enabled_plugins pm |}.

Definition _add_plugin_to_config (plugin_name : string)
    (pm : PluginManager) : PluginManager :=
  {| plugins := plugins pm;
     enabled_plugins := if PyList.mem plugin_name (enabled_plugins pm)
                        then enabled_plugins pm
                        else enabled_plugins pm ++ [plugin_name] |}.

(** PluginManager._cleanup_missing_plugins. The loop walks the very list
    that [_remove_plugin_from_config] shortens, so it goes by position: after
    a removal the next position is one further in the shortened list. The list
    never grows, so its first length bounds the number of rounds. *)
Fixpoint _cleanup_loop (rounds i : nat) (pm : PluginManager) : PluginManager :=
  match rounds with
  | O => pm
  | S rounds' =>
      match nth_error (enabled_plugins pm) i with
      | None => pm
      | Some plugin_name =>
          let pm' := match Dict.get (plugins pm) plugin_name with
                     | None => _remove_plugin_from_config plugin_name pm
                     | Some _ => pm
                     end in
          _cleanup_loop rounds' (S i) pm'
      end
  end.

Definition _cleanup_missing_plugins (pm : PluginManager) : PluginManager :=
  _cleanup_loop (length (enabled_plugins pm)) 0 pm.

(** PluginManager.__init__ *)
Definition init (system_dir user_dir : option (list DirEntry))
    (main_enabled : list string) : PluginManager :=
  _cleanup_missing_plugins
    {| plugins := _load_plugins system_dir user_dir;
       enabled_plugins := main_enabled |}.

(** PluginManager.get_plugin, get_enabled_plugins *)
Definition get_plugin (pm : PluginManager) (n : string) : option SimplePlugin :=
  Dict.get (plugins pm) n.

Definition get_enabled_plugins (pm : PluginManager) : Dict.t SimplePlugin :=
  List.filter (fun kv => is_enabled (snd kv)) (plugins pm).

Section Manager.
Context {World : Type} (sh : Shell World).

(** PluginManager._enable_all_plugins *)
Fixpoint _enable_all_loop (ps : Dict.t SimplePlugin) (w : World)
    : Dict.t SimplePlugin * nat * World :=
  match ps with
  | [] => ([], 0, w)
  | (k, p) :: rest =>
      if is_enabled p then
        let p' := set_enabled true p in
        let '(rest', n, w') := _enable_all_loop rest (write_plugin_conf sh p' w) in
        ((k, p') :: rest', S n, w')
      else
        let '(rest', n, w') := _enable_all_loop rest w in
        ((k, p) :: rest', n, w')
  end.

(** PluginManager.enable_plugin *)
Definition enable_plugin (pm : PluginManager) (n : string) (w : World)
    : bool * PluginManager * World :=
  if String.eqb n "all" then
    let '(ps, count, w') := _enable_all_loop (plugins pm) w in
    ((0 <? count)%nat, {| plugins := ps; enabled_plugins := enabled_plugins pm |}, w')
  else
    match get_plugin pm n with
    | Some plugin =>
        let plugin' := set_enabled true plugin in
        let pm' := {| plugins := Dict.set (plugins pm) n plugin';
                      enabled_plugins := enabled_plugins pm |} in
        (true, _add_plugin_to_config n pm', write_plugin_conf sh plugin' w)
    | None => (false, pm, w)
    end.

(** PluginManager.disable_plugin *)
Definition disable_plugin (pm : PluginManager) (n : string) (w : World)
    : bool * PluginManager * World :=
  match get_plugin pm n with
  | Some plugin =>
      let plugin' := set_enabled false plugin in
      let pm' := {| plugins := Dict.set (plugins pm) n plugin';
                    enabled_plugins := enabled_plugins pm |} in
      (true, _remove_plugin_from_config n pm', write_plugin_conf sh plugin' w)
  | None => (false, pm, w)
  end.

(** The loop of [trigger_event] over the enabled plugins. *)
Fixpoint trigger_loop (ps : list SimplePlugin) (event : string)
    (context : Context) (success : bool) (st : PState World)
    : bool * PState World :=
  match ps with
  | [] => (success, st)
  | plugin :: rest =>
      let '(r, st') := handle_event sh plugin event context st in
      trigger_loop rest event context (if negb r then false else success) st'
  end.

(** PluginManager.trigger_event *)
Definition trigger_event (pm : PluginManager) (event : string)
    (context : Context) (st : PState World) : bool * PState World :=
  trigger_loop (Dict.values (get_enabled_plugins pm)) event context true st.

End Manager.

End Plugin.

(** ** The installation history ([src/core/history.py]) *)
Module History.

(** The installation dictionaries are shared by reference: the ledger's list
    and a rollback record may name the same object. They live in a store and
    are named by their position in it. *)
Abbreviation loc := nat (only parsing).

(** One installation dictionary: the fields of [InstallationRecord._asdict()]
    and the three keys [mark_packages_removed] adds ([None] while absent). *)
Record Installation := {
  timestamp : string;
  manager : string;
  packages : list string;
  dependencies : list string;
  version : string;
  size : option Z;
  user : string;
  scope : string;
  removed : option bool;
  removed_timestamp : option string;
  removed_packages : option (list string) }.

Record Metadata := {
  created : string;
  last_updated : string;
  total_installations : Z;
  total_rollbacks : Z;
  metadata_scope : string }.

(** A rollback dictionary; [original_installation] is a reference. *)
Record RollbackRecord := {
  rollback_timestamp : string;
  installation_id : Z;
  reason : string;
  original_installation : loc;
  rollback_scope : string }.

(** One scope's [history_data]. *)
Record HistoryData := {
  store : list Installation;
  installations : list loc;
  rollbacks : list RollbackRecord;
  metadata : Metadata }.

(** class HistoryManager; [can_access_system_history] is the answer of its
    privilege manager. *)
Record HistoryManager := {
  user_history_data : HistoryData;
  system_history_data : HistoryData;
  can_access_system_history : bool }.

(** The [details] argument of [record_install]. *)
Record Details := {
  details_dependencies : option (list string);
  details_version : option string;
  details_size : option Z }.

(** [PackageResult] of a back end; a found package is kept as its ['name']
    entry, when it has one. *)
Record PackageResult := {
  success : bool;
  error : option string;
  result_packages : option (list (option string)) }.

(** The dictionary [check_package_status] returns. *)
Record Status := {
  found_in_history : bool;
  marked_removed : option bool;
  still_installed : bool;
  status_error : option string;
  manager_enabled : option bool }.

Inductive DetailAction := action_marked_removed | action_error.

Record Detail := {
  detail_package : string;
  detail_manager : string;
  detail_action : DetailAction;
  detail_text : string }.

(** [reconciliation_results] *)
Record Reconciliation := {
  checked : nat;
  count_marked_removed : nat;
  errors : nat;
  details : list Detail }.

(** The dictionary [perform_rollback] returns; an absent key is [None]. *)
Record RollbackResult := {
  rollback_success : bool;
  rollback_error : option string;
  packages_removed : option (list string);
  rollback_manager : option string;
  rollback_purge : option bool;
  message : option string;
  packages_attempted : option (list string) }.

(** What the ledger calls outside the process: the clock
    ([datetime.now().isoformat()]), [getpass.getuser()], the registry of
    package managers and their operations, and the history file
    ([write_history system_path data], which [_save_history] guards against
    [IOError]). [is_enabled] is [self.enabled and shutil.which(self.command)
    is not None], which raises [TypeError] for a manager without a command. *)
Record Backend (World : Type) := {
  now : World -> string * World;
  getuser : World -> string;
  get_manager : World -> string -> bool;
  search : string -> string -> World -> result PackageResult * World;
  remove : string -> list string -> World -> result PackageResult * World;
  purge : string -> list string -> World -> result PackageResult * World;
  is_enabled : World -> string -> result bool;
  write_history : bool -> HistoryData -> World -> World }.
Arguments now {World} _ _.
Arguments getuser {World} _ _.
Arguments get_manager {World} _ _ _.
Arguments search {World} _ _ _ _.
Arguments remove {World} _ _ _ _.
Arguments purge {World} _ _ _ _.
Arguments is_enabled {World} _ _ _.
Arguments write_history {World} _ _ _ _.

Definition is_system (sc : string) : bool := String.eqb sc "system".

(** [self.system_history_data if scope == 'system' else self.user_history_data] *)
Definition history_data (hm : HistoryManager) (sc : string) : HistoryData :=
  if is_system sc then system_history_data hm else user_history_data hm.

Definition set_history_data (hm : HistoryManager) (sc : string)
    (hd : HistoryData) : HistoryManager :=
  if is_system sc
  then {| user_history_data := user_history_data hm;
          system_history_data := hd;
          can_access_system_history := can_access_system_history hm |}
  else {| user_history_data := hd;
          system_history_data := system_history_data hm;
          can_access_system_history := can_access_system_history hm |}.

Definition with_store (hd : HistoryData) (st : list Installation) : HistoryData :=
  {| store := st; installations := installations hd;
     rollbacks := rollbacks hd; metadata := metadata hd |}.

(** The default history structure of [_load_history]. *)
Definition empty_history (t sc : string) : HistoryData :=
  {| store := []; installations := []; rollbacks := [];
     metadata := {| created := t; last_updated := t;
                    total_installations := 0; total_rollbacks := 0;
                    metadata_scope := sc |} |}.

Definition empty_manager (t : string) (privileged : bool) : HistoryManager :=
  {| user_history_data := empty_history t "user";
     system_history_data := empty_history t "system";
     can_access_system_history := privileged |}.

(** The installation dictionaries of a ledger, as [json.dump] writes them. *)
Definition records (hd : HistoryData) : list Installation :=
  omap (fun l => store hd !! l) (installations hd).

(** [installation.get('removed', False)], as a truth value. *)
Definition is_removed (inst : Installation) : bool :=
  match removed inst with
  | Some b => b
  | None => false
  end.

(** The three assignments of [mark_packages_removed] on one dictionary. *)
Definition mark (inst : Installation) (t package : string) : Installation :=
  {| timestamp := timestamp inst; manager := manager inst;
     packages := packages inst; dependencies := dependencies inst;
     version := version inst; size := size inst; user := user inst;
     scope := scope inst;
     removed := Some true;
     removed_timestamp := Some t;
     removed_packages :=
       Some (match removed_packages inst with
             | Some l => l
             | None => []
             end ++ [package])%list |}.

Section Ledger.
Context {World : Type} (be : Backend World).

(** HistoryManager._save_history: the file is the system one for the scope
    ['system'], the data is the user one for the scope ['user']. *)
Definition _save_history (sc : string) (hm : HistoryManager) (w : World) : World :=
  write_history be (is_system sc)
    (if String.eqb sc "user" then user_history_data hm
     else system_history_data hm) w.

(** HistoryManager.record_install *)
Definition record_install (mgr : string) (pkgs : list string)
    (dt : Details) (sc : string) (hm : HistoryManager) (w : World)
    : HistoryManager * World :=
  let '(t, w1) := now be w in
  let record :=
    {| timestamp := t; manager := mgr; packages := pkgs;
       dependencies := match details_dependencies dt with
                       | Some d => d
                       | None => []
                       end;
       version := match details_version dt with
                  | Some v => v
                  | None => "unknown"
                  end;
       size := details_size dt;
       user := getuser be w1;
       scope := sc;
       removed := None; removed_timestamp := None;
       removed_packages := None |} in
  let target := if is_system sc then "system" else "user" in
  let hd := history_data hm target in
  let '(t', w2) := now be w1 in
  let hd' :=
    {| store := (store hd ++ [record])%list;
       installations := (installations hd ++ [length (store hd)])%list;
       rollbacks := rollbacks hd;
       metadata := {| created := created (metadata hd);
                      last_updated := t';
                      total_installations :=
                        (total_installations (metadata hd) + 1)%Z;
                      total_rollbacks := total_rollbacks (metadata hd);
                      metadata_scope := metadata_scope (metadata hd) |} |} in
  let hm' := set_history_data hm target hd' in
  (hm', _save_history target hm' w2).

(** The inner loop of [mark_packages_removed] on the dictionary at [l]. *)
Fixpoint mark_packages (l : loc) (pkgs : list string)
    (st : list Installation) (w : World) : list Installation * World :=
  match pkgs with
  | [] => (st, w)
  | package :: rest =>
      match st !! l with
      | Some inst =>
          if PyList.mem package (packages inst) then
            let '(t, w') := now be w in
            mark_packages l rest (<[l := mark inst t package]> st) w'
          else mark_packages l rest st w
      | None => (st, w)
      end
  end.

(** The outer loop of [mark_packages_removed] over the ledger's list. *)
Fixpoint mark_installations (locs : list loc) (mgr : string)
    (pkgs : list string) (st : list Installation) (w : World)
    : list Installation * World :=
  match locs with
  | [] => (st, w)
  | l :: rest =>
      let '(st', w') :=
        match st !! l with
        | Some inst =>
            if String.eqb (manager inst) mgr then mark_packages l pkgs st w
            else (st, w)
        | None => (st, w)
        end in
      mark_installations rest mgr pkgs st' w'
  end.

(** HistoryManager.mark_packages_removed *)
Definition mark_packages_removed (mgr : string) (pkgs : list string)
    (sc : string) (hm : HistoryManager) (w : World) : HistoryManager * World :=
  let hd := history_data hm sc in
  let '(st', w') := mark_installations (installations hd) mgr pkgs (store hd) w in
  let hm' := set_history_data hm sc (with_store hd st') in
  (hm', _save_history sc hm' w').

(** The search of [check_package_status] through the ledger: the removed
    flag of the first installation of [mgr] that lists the package. *)
Fixpoint find_in_history (locs : list loc) (st : list Installation)
    (package_name mgr : string) : option bool :=
  match locs with
  | [] => None
  | l :: rest =>
      match st !! l with
      | Some inst =>
          if String.eqb (manager inst) mgr
             && PyList.mem package_name (packages inst)
          then Some (is_removed inst)
          else find_in_history rest st package_name mgr
      | None => find_in_history rest st package_name mgr
      end
  end.

(** [search_result.success and search_result.packages and any(...)], as a
    truth value. *)
Definition name_matches (package_name : string) (r : PackageResult) : bool :=
  success r &&
  match result_packages r with
  | Some ps =>
      existsb (fun p => PyStr.contains (PyStr.lower package_name)
                          (PyStr.lower (match p with
                                        | Some n => n
                                        | None => ""
                                        end))) ps
  | None => false
  end.

(** The dictionary the [except] branch of [check_package_status] builds;
    its last entry calls [is_enabled] again, outside any [try]. *)
Definition status_of_exception (flag : bool) (e mgr : string) (w : World)
    : result Status :=
  match is_enabled be w mgr with
  | Ok en =>
      Ok {| found_in_history := true; marked_removed := Some flag;
            still_installed := false;
            status_error := Some ("Error checking package status: " +:+ e);
            manager_enabled := Some en |}
  | Raise e' => Raise e'
  end.

(** HistoryManager.check_package_status: the status, or the exception that
    leaves the method. *)
Definition check_package_status (package_name mgr sc : string)
    (hm : HistoryManager) (w : World) : result Status * World :=
  if negb (get_manager be w mgr) then
    (Ok {| found_in_history := true; marked_removed := None;
           still_installed := false;
           status_error := Some ("Package manager " +:+ mgr +:+ " not found");
           manager_enabled := None |}, w)
  else
    let hd := history_data hm sc in
    match find_in_history (installations hd) (store hd) package_name mgr with
    | None =>
        (Ok {| found_in_history := false; marked_removed := None;
               still_installed := false;
               status_error := Some "Package not found in history";
               manager_enabled := None |}, w)
    | Some flag =>
        match search be mgr package_name w with
        | (Ok search_result, w') =>
            match is_enabled be w' mgr with
            | Ok en =>
                (Ok {| found_in_history := true; marked_removed := Some flag;
                       still_installed :=
                         name_matches package_name search_result;
                       status_error := None;
                       manager_enabled := Some en |}, w')
            | Raise e => (status_of_exception flag e mgr w', w')
            end
        | (Raise e, w') => (status_of_exception flag e mgr w', w')
        end
    end.

Definition count_checked (res : Reconciliation) : Reconciliation :=
  {| checked := S (checked res);
     count_marked_removed := count_marked_removed res;
     errors := errors res; details := details res |}.

Definition count_removed (package mgr : string) (res : Reconciliation)
    : Reconciliation :=
  {| checked := checked res;
     count_marked_removed := S (count_marked_removed res);
     errors := errors res;
     details := (details res ++
       [ {| detail_package := package; detail_manager := mgr;
            detail_action := action_marked_removed;
            detail_text := "Package no longer found in package manager" |} ])%list |}.

Definition count_error (package mgr e : string) (res : Reconciliation)
    : Reconciliation :=
  {| checked := checked res;
     count_marked_removed := count_marked_removed res;
     errors := S (errors res);
     details := (details res ++
       [ {| detail_package := package; detail_manager := mgr;
            detail_action := action_error;
            detail_text := e |} ])%list |}.

(** The inner loop of [reconcile_package_status] over the packages of one
    installation. The [except] branch is reached when
    [check_package_status] itself raises. *)
Fixpoint reconcile_packages (mgr sc : string) (pkgs : list string)
    (res : Reconciliation) (hm : HistoryManager) (w : World)
    : Reconciliation * HistoryManager * World :=
  match pkgs with
  | [] => (res, hm, w)
  | package :: rest =>
      let res1 := count_checked res in
      match check_package_status package mgr sc hm w with
      | (Ok status, w1) =>
          if found_in_history status && negb (still_installed status) then
            let '(hm2, w2) := mark_packages_removed mgr [package] sc hm w1 in
            reconcile_packages mgr sc rest (count_removed package mgr res1)
              hm2 w2
          else
            reconcile_packages mgr sc rest res1 hm w1
      | (Raise e, w1) =>
          reconcile_packages mgr sc rest (count_error package mgr e res1) hm w1
      end
  end.

(** The outer loop of [reconcile_package_status]: each dictionary is read
    when its turn comes. *)
Fixpoint reconcile_installations (locs : list loc) (sc : string)
    (res : Reconciliation) (hm : HistoryManager) (w : World)
    : Reconciliation * HistoryManager * World :=
  match locs with
  | [] => (res, hm, w)
  | l :: rest =>
      match store (history_data hm sc) !! l with
      | Some inst =>
          if is_removed inst then reconcile_installations rest sc res hm w
          else
            let '(res', hm', w') :=
              reconcile_packages (manager inst) sc (packages inst) res hm w in
            reconcile_installations rest sc res' hm' w'
      | None => reconcile_installations rest sc res hm w
      end
  end.

(** HistoryManager.reconcile_package_status *)
Definition reconcile_package_status (sc : string) (hm : HistoryManager)
    (w : World) : Reconciliation * HistoryManager * World :=
  reconcile_installations (installations (history_data hm sc)) sc
    {| checked := 0; count_marked_removed := 0; errors := 0; details := [] |}
    hm w.

(** [l[i]] with Python's negative indices; [None] is an [IndexError]. *)
Definition py_index {A : Type} (l : list A) (i : Z) : option A :=
  if (0 <=? i)%Z then l !! Z.to_nat i
  else if (- Z.of_nat (length l) <=? i)%Z
       then l !! Z.to_nat (Z.of_nat (length l) + i)
       else None.

(** HistoryManager.record_rollback *)
Definition record_rollback (id : Z) (rsn sc : string)
    (hm : HistoryManager) (w : World) : result unit * HistoryManager * World :=
  let hd := history_data hm sc in
  let '(t, w1) := now be w in
  match py_index (installations hd) id with
  | None => (Raise "list index out of range", hm, w1)
  | Some l =>
      let rollback_record :=
        {| rollback_timestamp := t; installation_id := id; reason := rsn;
           original_installation := l; rollback_scope := sc |} in
      let '(t', w2) := now be w1 in
      let hd' :=
        {| store := store hd; installations := installations hd;
           rollbacks := (rollbacks hd ++ [rollback_record])%list;
           metadata := {| created := created (metadata hd);
                          last_updated := t';
                          total_installations := total_installations (metadata hd);
                          total_rollbacks := (total_rollbacks (metadata hd) + 1)%Z;
                          metadata_scope := metadata_scope (metadata hd) |} |} in
      let hm' := set_history_data hm sc hd' in
      (Ok tt, hm', _save_history sc hm' w2)
  end.

(** HistoryManager.get_installation: the dictionary itself is returned. *)
Definition get_installation (id : Z) (sc : string) (hm : HistoryManager)
    : option loc :=
  if is_system sc && negb (can_access_system_history hm) then None
  else
    let locs := installations (history_data hm sc) in
    if (0 <=? id)%Z && (id <? Z.of_nat (length locs))%Z
    then locs !! Z.to_nat id
    else None.

(** HistoryManager.get_installations: [limit] and [mgr] count when truthy. *)
Definition get_installations (limit : option Z) (mgr : option string)
    (sc : string) (hm : HistoryManager) : list loc :=
  if is_system sc && negb (can_access_system_history hm) then []
  else
    let hd := history_data hm sc in
    let locs := installations hd in
    let locs :=
      match mgr with
      | Some m =>
          if String.eqb m "" then locs
          else List.filter (fun l => match store hd !! l with
                                     | Some inst => String.eqb (manager inst) m
                                     | None => false
                                     end) locs
      | None => locs
      end in
    match limit with
    | Some n =>
        if (n =? 0)%Z then locs
        else if (0 <? n)%Z then drop (length locs - Z.to_nat n) locs
        else drop (Z.to_nat (- n)) locs
    | None => locs
    end.

Definition failure (e : string) (attempted : option (list string))
    : RollbackResult :=
  {| rollback_success := false; rollback_error := Some e;
     packages_removed := None; rollback_manager := None;
     rollback_purge := None; message := None;
     packages_attempted := attempted |}.

(** [result.error or 'Unknown error during removal'] *)
Definition error_or_unknown (e : option string) : string :=
  match e with
  | Some s => if String.eqb s "" then "Unknown error during removal" else s
  | None => "Unknown error during removal"
  end.

Definition verb (prg : bool) : string := if prg then "purged" else "removed".

(** HistoryManager.perform_rollback *)
Definition perform_rollback (id : Z) (sc : string) (prg : bool)
    (hm : HistoryManager) (w : World)
    : RollbackResult * HistoryManager * World :=
  match get_installation id sc hm with
  | None =>
      (failure ("Installation " +:+ pretty id +:+ " not found") None, hm, w)
  | Some l =>
      match store (history_data hm sc) !! l with
      | None =>
          (failure ("Installation " +:+ pretty id +:+ " not found") None, hm, w)
      | Some installation =>
          if negb (get_manager be w (manager installation)) then
            (failure ("Package manager " +:+ manager installation
                      +:+ " not available") None, hm, w)
          else
            let unique_packages :=
              PyList.unique (packages installation ++ dependencies installation)%list in
            let '(r, w1) :=
              if prg then purge be (manager installation) unique_packages w
              else remove be (manager installation) unique_packages w in
            match r with
            | Ok res =>
                if success res then
                  match record_rollback id
                          ("Manual rollback - " +:+ verb prg +:+ " packages")
                          sc hm w1 with
                  | (Ok _, hm2, w2) =>
                      let '(hm3, w3) :=
                        mark_packages_removed (manager installation)
                          unique_packages sc hm2 w2 in
                      ({| rollback_success := true; rollback_error := None;
                          packages_removed := Some unique_packages;
                          rollback_manager := Some (manager installation);
                          rollback_purge := Some prg;
                          message :=
                            Some ("Successfully " +:+ verb prg +:+ " "
                                  +:+ pretty (length unique_packages)
                                  +:+ " packages");
                          packages_attempted := None |}, hm3, w3)
                  | (Raise e, hm2, w2) =>
                      (failure e (Some unique_packages), hm2, w2)
                  end
                else
                  (failure (error_or_unknown (error res))
                     (Some unique_packages), hm, w1)
            | Raise e => (failure e (Some unique_packages), hm, w1)
            end
      end
  end.

End Ledger.

End History.

(** ** More of the ledger ([src/core/history.py]): the read-only views *)
Module Ledger.

(** [l[-n:]] for the [limit] arguments: [None] and [0] are falsy and keep
    the list whole, a negative [n] drops the first [-n] entries. *)
Definition last_entries {A : Type} (limit : option Z) (l : list A) : list A :=
  match limit with
  | Some n =>
      if (n =? 0)%Z then l
      else if (0 <? n)%Z then drop (length l - Z.to_nat n) l
      else drop (Z.to_nat (- n)) l
  | None => l
  end.

(** HistoryManager.get_rollbacks *)
Definition get_rollbacks (limit : option Z) (sc : string)
    (hm : History.HistoryManager) : list History.RollbackRecord :=
  if History.is_system sc && negb (History.can_access_system_history hm) then []
  else last_entries limit (History.rollbacks (History.history_data hm sc)).

(** The test of one installation in [search_installations]; [query] is
    already in lower case. *)
Definition matches_query (query : string) (inst : History.Installation) : bool :=
  existsb (PyStr.contains query) (map PyStr.lower (History.packages inst))
  || PyStr.contains query (PyStr.lower (History.manager inst))
  || existsb (PyStr.contains query) (map PyStr.lower (History.dependencies inst)).

(** HistoryManager.search_installations *)
Definition search_installations (query sc : string)
    (hm : History.HistoryManager) : list History.loc :=
  if History.is_system sc && negb (History.can_access_system_history hm) then []
  else
    let hd := History.history_data hm sc in
    List.filter (fun l => match History.store hd !! l with
                          | Some inst => matches_query (PyStr.lower query) inst
                          | None => false
                          end) (History.installations hd).

(** The dictionary [get_statistics] returns when the scope is readable.
    [packages_installed] is built as a Python set, so it is a set here. *)
Record Statistics := {
  stats_scope : string;
  stats_total_installations : nat;
  stats_total_rollbacks : nat;
  managers_used : Dict.t nat;
  packages_installed : gset string;
  recent_activity : list History.loc }.

(** [d[k] = d.get(k, 0) + 1] *)
Definition count_up (d : Dict.t nat) (k : string) : Dict.t nat :=
  Dict.set d k (match Dict.get d k with Some n => n | None => 0 end + 1).

(** The loop of [get_statistics] over the installations. *)
Fixpoint tally (insts : list History.Installation)
    (used : Dict.t nat) (pkgs : gset string) : Dict.t nat * gset string :=
  match insts with
  | [] => (used, pkgs)
  | inst :: rest =>
      tally rest (count_up used (History.manager inst))
        (pkgs ∪ list_to_set (History.packages inst))
  end.

(** HistoryManager.get_statistics: [inl] is the dictionary with the single
    key [error]. *)
Definition get_statistics (sc : string) (hm : History.HistoryManager)
    : string + Statistics :=
  if History.is_system sc && negb (History.can_access_system_history hm)
  then inl "Cannot access system history - insufficient privileges"
  else
    let hd := History.history_data hm sc in
    let '(used, pkgs) := tally (History.records hd) [] ∅ in
    inr {| stats_scope := sc;
           stats_total_installations := length (History.installations hd);
           stats_total_rollbacks := length (History.rollbacks hd);
           managers_used := used;
           packages_installed := pkgs;
           recent_activity :=
             drop (length (History.installations hd) - 10)
               (History.installations hd) |}.

(** An installation of either ledger: its ledger and its place there. *)
Definition Ref : Type := string * History.loc.

(** [x['timestamp']] for an installation of either ledger. *)
Definition timestamp_of (hm : History.HistoryManager) (r : Ref) : string :=
  match History.store (History.history_data hm (fst r)) !! snd r with
  | Some inst => History.timestamp inst
  | None => ""
  end.

(** [list.sort(key=...)]: the sort is stable, so an entry goes before the
    first sorted entry whose key is not smaller. *)
Fixpoint insert_by {A : Type} (key : A -> string) (x : A) (l : list A) : list A :=
  match l with
  | [] => [x]
  | y :: l' =>
      if String.leb (key x) (key y) then x :: y :: l'
      else y :: insert_by key x l'
  end.

Definition sort_by {A : Type} (key : A -> string) (l : list A) : list A :=
  foldr (insert_by key) [] l.

(** HistoryManager.get_all_installations *)
Definition get_all_installations (limit : option Z) (mgr : option string)
    (hm : History.HistoryManager) : list Ref :=
  let user_installations :=
    map (fun l => ("user", l)) (History.get_installations limit mgr "user" hm) in
  let system_installations :=
    map (fun l => ("system", l)) (History.get_installations limit mgr "system" hm) in
  let all_installations :=
    sort_by (timestamp_of hm) (user_installations ++ system_installations)%list in
  last_entries limit all_installations.

End Ledger.

(** ** The retention of old entries *)
Module Retention.

(** The two settings [cleanup_old_entries] reads from the main
    configuration; an absent key is [None]. *)
Record Settings := {
  history_max_entries : option Z;
  history_retention_days : option Z }.

(** What the clean-up asks of [datetime]: the day of the month of
    [datetime.now()], the number of days of that month, the instant at
    midnight of a day of that month, and [datetime.fromisoformat] on a
    time stamp: [None] is its [ValueError], otherwise it gives whether the
    time stamp carries an offset from UTC, and its instant. Instants are
    counted on a line. *)
Record Calendar (World : Type) := {
  day : World -> Z;
  days_in_month : World -> Z;
  midnight : World -> Z -> Z;
  fromisoformat : string -> option (bool * Z) }.
Arguments day {World} _ _.
Arguments days_in_month {World} _ _.
Arguments midnight {World} _ _ _.
Arguments fromisoformat {World} _ _.

(** [l[-m:]]: the last [m] entries, the whole list for [m = 0], and the
    list without its first [-m] entries for a negative [m]. *)
Definition last_slice {A : Type} (m : Z) (l : list A) : list A :=
  if (0 <? m)%Z then drop (length l - Z.to_nat m) l
  else drop (Z.to_nat (- m)) l.

Section Cleanup.
Context {World : Type} (be : History.Backend World) (cal : Calendar World).

(** [cutoff_date.replace(day=d)] on today's midnight: a day that the month
    does not have is a [ValueError]. *)
Definition replace_day (w : World) (d : Z) : result Z :=
  if (1 <=? d)%Z && (d <=? days_in_month cal w)%Z then Ok (midnight cal w d)
  else Raise "ValueError".

(** The test of one installation: it is kept when it is not older than the
    cut-off, and when its time stamp cannot be read. The cut-off carries no
    offset, so the comparison with a time stamp that carries one is a
    [TypeError], which the [except ValueError] of the loop lets through. *)
Definition recent (cutoff_date : Z) (inst : History.Installation)
    : result bool :=
  match fromisoformat cal (History.timestamp inst) with
  | Some (aware, install_date) =>
      if aware then Raise "TypeError"
      else Ok (cutoff_date <=? install_date)%Z
  | None => Ok true
  end.

(** The loop over the installations that collects [installations_to_keep]. *)
Fixpoint keep_recent (cutoff_date : Z) (st : list History.Installation)
    (locs : list History.loc) : result (list History.loc) :=
  match locs with
  | [] => Ok []
  | l :: rest =>
      match st !! l with
      | Some inst =>
          keep ← recent cutoff_date inst;
          kept ← keep_recent cutoff_date st rest;
          Ok (if keep : bool then l :: kept else kept)
      | None => keep_recent cutoff_date st rest
      end
  end.

(** HistoryManager.cleanup_old_entries: the number of entries cleaned, or the
    exception that leaves the method. *)
Definition cleanup_old_entries (settings : Settings) (sc : string)
    (hm : History.HistoryManager) (w : World)
    : result Z * History.HistoryManager * World :=
  if History.is_system sc && negb (History.can_access_system_history hm)
  then (Ok 0%Z, hm, w)
  else
    let max_entries := default 1000%Z (history_max_entries settings) in
    let retention_days := default 365%Z (history_retention_days settings) in
    let hd := History.history_data hm sc in
    let installations := History.installations hd in
    let initial_count := length installations in
    match replace_day w (day cal w - retention_days) with
    | Raise e => (Raise e, hm, w)
    | Ok cutoff_date =>
        match keep_recent cutoff_date (History.store hd) installations with
        | Raise e => (Raise e, hm, w)
        | Ok installations_to_keep =>
            let installations_to_keep :=
              if (max_entries <? Z.of_nat (length installations_to_keep))%Z
              then last_slice max_entries installations_to_keep
              else installations_to_keep in
            let '(t, w1) := History.now be w in
            let hd' :=
              {| History.store := History.store hd;
                 History.installations := installations_to_keep;
                 History.rollbacks := History.rollbacks hd;
                 History.metadata :=
                   {| History.created := History.created (History.metadata hd);
                      History.last_updated := t;
                      History.total_installations :=
                        Z.of_nat (length installations_to_keep);
                      History.total_rollbacks :=
                        History.total_rollbacks (History.metadata hd);
                      History.metadata_scope :=
                        History.metadata_scope (History.metadata hd) |} |} in
            let hm' := History.set_history_data hm sc hd' in
            let w2 := History._save_history be sc hm' w1 in
            ((Ok (Z.of_nat initial_count
                  - Z.of_nat (length installations_to_keep))%Z), hm', w2)
        end
    end.

End Cleanup.

End Retention.

(** ** More of the plugin manager: the listings *)
Module Registry.

(** PluginManager.get_disabled_plugins *)
Definition get_disabled_plugins (pm : Plugin.PluginManager)
    : Dict.t Plugin.SimplePlugin :=
  List.filter (fun kv => negb (Plugin.is_enabled (snd kv))) (Plugin.plugins pm).

(** One entry of [list_plugins]. *)
Record PluginInfo := {
  info_name : string;
  info_enabled : bool;
  info_description : string;
  info_version : string;
  info_author : string;
  info_events : list string;
  info_scope : string }.

(** PluginManager.list_plugins *)
Definition list_plugins (pm : Plugin.PluginManager) : list PluginInfo :=
  map (fun kv =>
         {| info_name := fst kv;
            info_enabled := Plugin.is_enabled (snd kv);
            info_description := Plugin.description (Plugin.config (snd kv));
            info_version := Plugin.version (Plugin.config (snd kv));
            info_author := Plugin.author (Plugin.config (snd kv));
            info_events := Dict.keys (Plugin.events (Plugin.config (snd kv)));
            info_scope := if PyStr.startswith "system-" (fst kv)
                          then "system" else "user" |})
      (Plugin.plugins pm).

(** [action.startswith(('run:', 'script:', 'notify:', 'log:'))] *)
Definition has_action_prefix (action : string) : bool :=
  PyStr.startswith "run:" action || PyStr.startswith "script:" action
  || PyStr.startswith "notify:" action || PyStr.startswith "log:" action.

(** The errors [syntax_check_plugins] finds in one event. *)
Definition event_errors (ev : string * list string) : list string :=
  (match snd ev with
   | [] => ["Event '" +:+ fst ev +:+ "' has no actions"]
   | _ => []
   end
   ++ map (fun action => "Invalid action format: " +:+ action)
        (List.filter (fun action => negb (has_action_prefix action)) (snd ev)))%list.

(** The errors of a plugin whose configuration file exists. The dictionary
    [_load_config] builds has no key ['name'], so [plugin.config.get('name')]
    is [None]. *)
Definition plugin_errors (p : Plugin.SimplePlugin) : list string :=
  "Plugin name not specified"
  :: flat_map event_errors (Plugin.events (Plugin.config p)).

(** PluginManager.syntax_check_plugins; [config_file_exists] answers
    [plugin.config_file.exists()] for a plugin directory. *)
Definition syntax_check_plugins (config_file_exists : string -> bool)
    (pm : Plugin.PluginManager) : Dict.t (list string) :=
  fold_left
    (fun results kv =>
       if config_file_exists (Plugin.plugin_dir (snd kv)) then
         match plugin_errors (snd kv) with
         | [] => results
         | errors => Dict.set results (fst kv) errors
         end
       else results)
    (Plugin.plugins pm) [].

End Registry.

(** ** The text of a [plugin.conf] *)
Module Conf.

Definition LF : ascii := ascii_of_nat 10.
Definition CR : ascii := ascii_of_nat 13.

(** [c.isspace()] for a code point below 256. *)
Definition is_space (c : ascii) : bool :=
  let n := nat_of_ascii c in
  ((9 <=? n)%nat && (n <=? 13)%nat) || ((28 <=? n)%nat && (n <=? 32)%nat)
  || (n =? 133)%nat || (n =? 160)%nat.

(** [s.lstrip()], [s.rstrip()] and [s.strip()] *)
Fixpoint lstrip (s : string) : string :=
  match s with
  | EmptyString => EmptyString
  | String c s' => if is_space c then lstrip s' else s
  end.

Fixpoint rstrip (s : string) : string :=
  match s with
  | EmptyString => EmptyString
  | String c s' =>
      match rstrip s' with
      | EmptyString => if is_space c then EmptyString else String c EmptyString
      | r => String c r
      end
  end.

Definition strip (s : string) : string := rstrip (lstrip s).

(** [s.endswith(suffix)] *)
Fixpoint endswith (suffix s : string) : bool :=
  String.eqb s suffix
  || match s with
     | EmptyString => false
     | String _ s' => endswith suffix s'
     end.

(** [line.split('=', 1)[1]]; [None] is the [IndexError] of a line without
    an equals sign. *)
Fixpoint after_eq (line : string) : option string :=
  match line with
  | EmptyString => None
  | String c s' => if Ascii.eqb c "=" then Some s' else after_eq s'
  end.

(** [line[1:-1]] *)
Fixpoint drop_last (s : string) : string :=
  match s with
  | EmptyString => EmptyString
  | String c s' =>
      match s' with
      | EmptyString => EmptyString
      | String _ _ => String c (drop_last s')
      end
  end.

Definition inner (line : string) : string := drop_last (PyStr.drop 1 line).

(** [f.readlines()] on a file opened for reading as text: a line ends at a
    line feed, a carriage return or the two in a row, and is returned with a
    line feed as its end. [line] is the part of the line read so far. *)
Fixpoint readlines_from (line s : string) : list string :=
  match s with
  | EmptyString =>
      match line with
      | EmptyString => []
      | String _ _ => [line]
      end
  | String c s' =>
      if Ascii.eqb c LF then
        (line +:+ String LF EmptyString) :: readlines_from EmptyString s'
      else if Ascii.eqb c CR then
        (line +:+ String LF EmptyString)
        :: match s' with
           | EmptyString => []
           | String c' s'' =>
               if Ascii.eqb c' LF then readlines_from EmptyString s''
               else readlines_from EmptyString s'
           end
      else readlines_from (line +:+ String c EmptyString) s'
  end.

Definition readlines (text : string) : list string :=
  readlines_from EmptyString text.

(** The state of the loop of [_load_config]: the dictionary built so far
    and [current_event]. *)
Record Parse := {
  parsed : Plugin.PluginConfig;
  current_event : option string }.

Definition with_events (c : Plugin.PluginConfig)
    (evs : Dict.t (list string)) : Plugin.PluginConfig :=
  {| Plugin.enabled := Plugin.enabled c;
     Plugin.description := Plugin.description c;
     Plugin.version := Plugin.version c;
     Plugin.author := Plugin.author c;
     Plugin.events := evs |}.

(** One round of the loop over the lines; [None] is an exception, which
    ends the loading with the dictionary as it is. *)
Definition parse_line (raw : string) (st : Parse) : option Parse :=
  let line := strip raw in
  let config := parsed st in
  if String.eqb line "" || PyStr.startswith "#" line then Some st
  else if PyStr.startswith "description=" line then
    match after_eq line with
    | Some v =>
        Some {| parsed := {| Plugin.enabled := Plugin.enabled config;
                             Plugin.description := v;
                             Plugin.version := Plugin.version config;
                             Plugin.author := Plugin.author config;
                             Plugin.events := Plugin.events config |};
                current_event := current_event st |}
    | None => None
    end
  else if PyStr.startswith "version=" line then
    match after_eq line with
    | Some v =>
        Some {| parsed := {| Plugin.enabled := Plugin.enabled config;
                             Plugin.description := Plugin.description config;
                             Plugin.version := v;
                             Plugin.author := Plugin.author config;
                             Plugin.events := Plugin.events config |};
                current_event := current_event st |}
    | None => None
    end
  else if PyStr.startswith "author=" line then
    match after_eq line with
    | Some v =>
        Some {| parsed := {| Plugin.enabled := Plugin.enabled config;
                             Plugin.description := Plugin.description config;
                             Plugin.version := Plugin.version config;
                             Plugin.author := v;
                             Plugin.events := Plugin.events config |};
                current_event := current_event st |}
    | None => None
    end
  else if PyStr.startswith "enabled=" line then
    match after_eq line with
    | Some v =>
        Some {| parsed := {| Plugin.enabled := String.eqb (PyStr.lower v) "true";
                             Plugin.description := Plugin.description config;
                             Plugin.version := Plugin.version config;
                             Plugin.author := Plugin.author config;
                             Plugin.events := Plugin.events config |};
                current_event := current_event st |}
    | None => None
    end
  else if PyStr.startswith "[" line && endswith "]" line then
    Some {| parsed := with_events config
                        (Dict.set (Plugin.events config) (inner line) []);
            current_event := Some (inner line) |}
  else if match current_event st with
          | Some e => negb (String.eqb e "")
          | None => false
          end && PyStr.startswith "action=" line then
    match after_eq line, current_event st with
    | Some action, Some e =>
        match Dict.get (Plugin.events config) e with
        | Some actions =>
            Some {| parsed := with_events config
                                (Dict.set (Plugin.events config) e
                                   (actions ++ [action])%list);
                    current_event := current_event st |}
        | None => None
        end
    | _, _ => None
    end
  else Some st.

Fixpoint parse_lines (lines : list string) (st : Parse) : Plugin.PluginConfig :=
  match lines with
  | [] => parsed st
  | raw :: rest =>
      match parse_line raw st with
      | Some st' => parse_lines rest st'
      | None => parsed st
      end
  end.

(** The dictionary [_load_config] starts from. *)
Definition default_config : Plugin.PluginConfig :=
  {| Plugin.enabled := true; Plugin.description := "";
     Plugin.version := "1.0.0"; Plugin.author := ""; Plugin.events := [] |}.

(** SimplePlugin._load_config on the text of the configuration file; [None]
    is a file that is missing or cannot be read. *)
Definition _load_config (file : option string) : Plugin.PluginConfig :=
  match file with
  | Some text =>
      parse_lines (readlines text)
        {| parsed := default_config; current_event := None |}
  | None => default_config
  end.

(** The lines [_save_plugin_config] collects for one event, and for a
    configuration. *)
Definition event_lines (ev : string * list string) : list string :=
  (("[" +:+ fst ev +:+ "]")
   :: map (fun action => "action=" +:+ action) (snd ev) ++ [""])%list.

Definition config_lines (c : Plugin.PluginConfig) : list string :=
  ([ "description=" +:+ Plugin.description c;
     "version=" +:+ Plugin.version c;
     "author=" +:+ Plugin.author c;
     "enabled=" +:+ (if Plugin.enabled c then "True" else "False");
     "" ] ++ flat_map event_lines (Plugin.events c))%list.

(** PluginManager._save_plugin_config: the text written to the file. *)
Definition config_text (c : Plugin.PluginConfig) : string :=
  PyStr.join (String LF EmptyString) (config_lines c).

End Conf.

(** ** Properties stated on both sides *)

(** The handler calls of a stretch of the call record: plugin and answer. *)
Fixpoint handler_calls (cs : list Plugin.Call) : list (string * bool) :=
  match cs with
  | [] => []
  | Plugin.HandleEvent p _ r :: cs' => (p, r) :: handler_calls cs'
  | Plugin.ExecuteAction _ _ _ :: cs' => handler_calls cs'
  end.

(** The action calls of a stretch of the call record: action and answer. *)
Fixpoint action_calls (cs : list Plugin.Call) : list (string * bool) :=
  match cs with
  | [] => []
  | Plugin.ExecuteAction _ a r :: cs' => (a, r) :: action_calls cs'
  | Plugin.HandleEvent _ _ _ :: cs' => action_calls cs'
  end.

(** The call record of a plugin's executed actions. *)
Definition executed_calls (p : Plugin.SimplePlugin)
    (executed : list (string * bool)) : list Plugin.Call :=
  map (fun ar => Plugin.ExecuteAction (Plugin.name p) (fst ar) (snd ar)) executed.

(** The actions a plugin has under an event ([[]] when it has none). *)
Definition actions_for (p : Plugin.SimplePlugin) (event : string) : list string :=
  match Dict.get (Plugin.events (Plugin.config p)) event with
  | Some actions => actions
  | None => []
  end.

(** What the spec says of one action: its variables are substituted from
    the context, and the text is executed by the handler its prefix names,
    which is given the text after the prefix; a text without such a prefix
    is run as a command. An action whose substitution raises has failed,
    with nothing executed. *)
Section Executing.
Context {World : Type} (sh : Plugin.Shell World).

Definition handlers (p : Plugin.SimplePlugin)
    : list (string * (string -> World -> bool * World)) :=
  [ ("run:", Plugin._run_command sh);
    ("script:", Plugin._run_script sh (Plugin.plugin_dir p));
    ("notify:", Plugin._send_notification sh);
    ("log:", Plugin._log_message sh (Plugin.plugin_dir p)) ].

Fixpoint dispatch (hs : list (string * (string -> World -> bool * World)))
    (text : string) (w : World) : bool * World :=
  match hs with
  | [] => Plugin._run_command sh text w
  | (prefix, handler) :: rest =>
      if PyStr.startswith prefix text
      then handler (PyStr.drop (String.length prefix) text) w
      else dispatch rest text w
  end.

Definition effect (p : Plugin.SimplePlugin) (context : Context)
    (action : string) (w : World) : bool * World :=
  match Plugin._expand_variables p (Plugin.sysinfo sh w) action context with
  | Ok expanded_action => dispatch (handlers p) expanded_action w
  | Raise _ => (false, w)
  end.

(** [Runs p context actions w executed r w']: from the world [w], the
    actions are executed in order up to the first that fails; [executed]
    lists the ones executed with their answers, [r] says whether all
    succeeded and [w'] is the world they leave. *)
Inductive Runs (p : Plugin.SimplePlugin) (context : Context)
    : list string -> World -> list (string * bool) -> bool -> World -> Prop :=
  | Runs_done (w : World) : Runs p context [] w [] true w
  | Runs_ok (a : string) (rest : list string) (w w' w'' : World)
      (executed : list (string * bool)) (r : bool) :
      effect p context a w = (true, w') ->
      Runs p context rest w' executed r w'' ->
      Runs p context (a :: rest) w ((a, true) :: executed) r w''
  | Runs_failed (a : string) (rest : list string) (w w' : World) :
      effect p context a w = (false, w') ->
      Runs p context (a :: rest) w [(a, false)] false w'.

End Executing.

(** A context that [_expand_variables] accepts: the entries it hands to
    [str.replace] are strings and [packages] is a string or a list of
    strings, each when present. *)
Definition str_entry (context : Context) (k : string) : bool :=
  match Dict.get context k with
  | None | Some (VStr _) => true
  | Some _ => false
  end.

Definition is_VStr (v : PyVal) : bool :=
  match v with VStr _ => true | _ => false end.

Definition packages_entry (context : Context) : bool :=
  match Dict.get context "packages" with
  | None | Some (VStr _) => true
  | Some (VList l) => forallb is_VStr l
  | Some _ => false
  end.

Definition well_typed (context : Context) : bool :=
  str_entry context "package_manager" && packages_entry context
  && str_entry context "operation" && str_entry context "error".






(** No builtin token occurs in the text. *)
Definition token_free (text : string) : bool :=
  forallb (fun t => negb (PyStr.contains t text)) Plugin.builtin_tokens.

(** The calls on a ledger that the record count is stated over. *)
Inductive Op :=
  | OpRecordInstall (mgr : string) (pkgs : list string)
      (dt : History.Details) (sc : string)
  | OpMarkRemoved (mgr : string) (pkgs : list string) (sc : string)
  | OpReconcile (sc : string).

Definition op_scope (o : Op) : string :=
  match o with
  | OpRecordInstall _ _ _ sc | OpMarkRemoved _ _ sc | OpReconcile sc => sc
  end.

Definition valid_scope (sc : string) : bool :=
  String.eqb sc "user" || String.eqb sc "system".

Definition run_op {World : Type} (be : History.Backend World) (o : Op)
    (hm : History.HistoryManager) (w : World) : History.HistoryManager * World :=
  match o with
  | OpRecordInstall mgr pkgs dt sc => History.record_install be mgr pkgs dt sc hm w
  | OpMarkRemoved mgr pkgs sc => History.mark_packages_removed be mgr pkgs sc hm w
  | OpReconcile sc =>
      let '(_, hm', w') := History.reconcile_package_status be sc hm w in (hm', w')
  end.

Fixpoint run_ops {World : Type} (be : History.Backend World) (ops : list Op)
    (hm : History.HistoryManager) (w : World) : History.HistoryManager * World :=
  match ops with
  | [] => (hm, w)
  | o :: rest => let '(hm', w') := run_op be o hm w in run_ops be rest hm' w'
  end.

(** The number of [record_install] calls made for a scope. *)
Fixpoint installs_for (sc : string) (ops : list Op) : nat :=
  match ops with
  | [] => 0
  | OpRecordInstall _ _ _ sc' :: rest =>
      (if String.eqb sc' sc then 1 else 0) + installs_for sc rest
  | _ :: rest => installs_for sc rest
  end.

(** A back-end call that did not succeed, and the error text
    [perform_rollback] reports for it. *)
Definition backend_failed (r : result History.PackageResult) : bool :=
  match r with
  | Ok res => negb (History.success res)
  | Raise _ => true
  end.

Definition reported_error (r : result History.PackageResult) : string :=
  match r with
  | Ok res => History.error_or_unknown (History.error res)
  | Raise e => e
  end.

(** [other] is of the manager of [inst] and lists one of its packages. *)
Definition shares (inst other : History.Installation) : bool :=
  String.eqb (History.manager other) (History.manager inst)
  && existsb (fun p => PyList.mem p (History.packages inst))
       (History.packages other).

(** The packages of the installations of a ledger that are not flagged
    removed: what a reconciliation run has before it. *)
Fixpoint pending (st : list History.Installation) (locs : list History.loc) : nat :=
  match locs with
  | [] => 0
  | l :: rest =>
      match st !! l with
      | Some inst =>
          if History.is_removed inst then pending st rest
          else length (History.packages inst) + pending st rest
      | None => pending st rest
      end
  end.

(** ** A simulated host, to run the definitions on concrete inputs *)
Module Sim.

(** A shell that records the commands it runs; the commands listed in
    [failing] exit with a non-zero status. *)
Record Host := {
  ran : list string;
  failing : list string;
  host_info : Plugin.SysInfo }.

Definition host_run (cmd : string) (h : Host) : bool * Host :=
  (negb (PyList.mem cmd (failing h)),
   {| ran := (ran h ++ [cmd])%list; failing := failing h; host_info := host_info h |}).

Definition shell : Plugin.Shell Host :=
  {| Plugin.sysinfo := host_info;
     Plugin._run_command := host_run;
     Plugin._run_script := fun _ path h => host_run path h;
     Plugin._send_notification := fun msg h => host_run msg h;
     Plugin._log_message := fun _ msg h => host_run msg h;
     Plugin.write_plugin_conf := fun _ h => h |}.

Definition info : Plugin.SysInfo :=
  {| Plugin.environ := [("USER", "ada"); ("HOME", "/home/ada")];
     Plugin.now_timestamp := "2024-05-01 10:00:00";
     Plugin.now_date := "2024-05-01";
     Plugin.now_time := "10:00:00" |}.

Definition host (failing_commands : list string) : Host :=
  {| ran := []; failing := failing_commands; host_info := info |}.

Definition start (failing_commands : list string) : Plugin.PState Host :=
  {| Plugin.world := host failing_commands; Plugin.calls := [] |}.

Definition conf (on : bool) (evs : Dict.t (list string)) : Plugin.PluginConfig :=
  {| Plugin.enabled := on; Plugin.description := ""; Plugin.version := "1.0.0";
     Plugin.author := ""; Plugin.events := evs |}.

Definition plugin (n : string) (on : bool) (evs : Dict.t (list string))
    : Plugin.SimplePlugin :=
  {| Plugin.name := n; Plugin.plugin_dir := "/plugins/" +:+ n;
     Plugin.config := conf on evs |}.

Definition entry (n root : string) (on : bool) : Plugin.DirEntry :=
  {| Plugin.item_name := n; Plugin.item_path := root +:+ "/" +:+ n;
     Plugin.item_is_dir := true; Plugin.item_conf := Some (conf on []) |}.

(** A machine with package managers: a clock, the managers the registry
    knows, the packages present, the managers whose commands raise, the
    managers whose removals are refused with the error text given, and the
    two history files. *)
Record Machine := {
  ticks : nat;
  known : list string;
  present : list (string * string);
  raising : list string;
  refusing : list (string * string);
  user_file : option History.HistoryData;
  system_file : option History.HistoryData }.

Definition tick (m : Machine) : string * Machine :=
  ("t" +:+ pretty (ticks m),
   {| ticks := S (ticks m); known := known m; present := present m;
      raising := raising m; refusing := refusing m;
      user_file := user_file m; system_file := system_file m |}).

Definition machine_search (mgr q : string) (m : Machine)
    : result History.PackageResult * Machine :=
  if PyList.mem mgr (raising m) then (Raise "command timed out", m)
  else
    (Ok {| History.success := true; History.error := None;
           History.result_packages :=
             Some (map (fun mp => Some (snd mp))
                     (List.filter (fun mp => String.eqb (fst mp) mgr
                                             && PyStr.contains q (snd mp))
                        (present m))) |}, m).

Definition machine_remove (mgr : string) (pkgs : list string) (m : Machine)
    : result History.PackageResult * Machine :=
  if PyList.mem mgr (raising m) then (Raise "command timed out", m)
  else match Dict.get (refusing m) mgr with
       | Some e =>
           (Ok {| History.success := false; History.error := Some e;
                  History.result_packages := None |}, m)
       | None =>
           (Ok {| History.success := true; History.error := None;
                  History.result_packages := None |},
            {| ticks := ticks m; known := known m;
               present := List.filter
                            (fun mp => negb (String.eqb (fst mp) mgr
                                             && PyList.mem (snd mp) pkgs))
                            (present m);
               raising := raising m; refusing := refusing m;
               user_file := user_file m; system_file := system_file m |})
       end.

Definition machine_write (system_path : bool) (hd : History.HistoryData)
    (m : Machine) : Machine :=
  {| ticks := ticks m; known := known m; present := present m;
     raising := raising m; refusing := refusing m;
     user_file := if system_path then user_file m else Some hd;
     system_file := if system_path then Some hd else system_file m |}.

Definition backend : History.Backend Machine :=
  {| History.now := tick;
     History.getuser := fun _ => "ada";
     History.get_manager := fun m mgr => PyList.mem mgr (known m);
     History.search := machine_search;
     History.remove := machine_remove;
     History.purge := machine_remove;
     History.is_enabled := fun m mgr => Ok (PyList.mem mgr (known m));
     History.write_history := machine_write |}.

Definition machine (managers : list string) (pkgs : list (string * string))
    (raise_on : list string) (refuse : list (string * string)) : Machine :=
  {| ticks := 0; known := managers; present := pkgs; raising := raise_on;
     refusing := refuse; user_file := None; system_file := None |}.

Definition no_details : History.Details :=
  {| History.details_dependencies := None; History.details_version := None;
     History.details_size := None |}.

(** An unprivileged manager with empty ledgers. *)
Definition fresh : History.HistoryManager := History.empty_manager "t" false.

(** The removed flags and removed-packages lists of a ledger's records. *)
Definition flags (hd : History.HistoryData)
    : list (option bool * option (list string)) :=
  map (fun i => (History.removed i, History.removed_packages i))
    (History.records hd).

(** A user ledger with one record: [vim] with its dependency [vim-common],
    installed by [apt]. *)
Definition vim_details : History.Details :=
  {| History.details_dependencies := Some ["vim-common"];
     History.details_version := None; History.details_size := None |}.

Definition vim_installed (m : Machine) : History.HistoryManager * Machine :=
  History.record_install backend "apt" ["vim"] vim_details "user" fresh m.

Definition vim_record : History.Installation :=
  {| History.timestamp := "t0"; History.manager := "apt";
     History.packages := ["vim"]; History.dependencies := ["vim-common"];
     History.version := "unknown"; History.size := None;
     History.user := "ada"; History.scope := "user";
     History.removed := None; History.removed_timestamp := None;
     History.removed_packages := None |}.

(** A session on both ledgers: five calls, two of them installations in
    the user scope. *)
Definition session : list Op :=
  [ OpRecordInstall "apt" ["vim"; "git"] no_details "user";
    OpRecordInstall "dnf" ["htop"] no_details "system";
    OpMarkRemoved "apt" ["vim"] "user";
    OpReconcile "user";
    OpRecordInstall "apt" ["git"] no_details "user" ].

(** A user ledger with [vim] and [git] installed together by [apt] and
    [vim] marked removed since, and a second record by manager [second] of
    the packages [pkgs]. *)
Definition partly_removed (second : string) (pkgs : list string) (m : Machine)
    : History.HistoryManager * Machine :=
  run_ops backend
    [ OpRecordInstall "apt" ["vim"; "git"] no_details "user";
      OpRecordInstall second pkgs no_details "user";
      OpMarkRemoved "apt" ["vim"] "user" ]
    fresh m.

End Sim.

(** What the marking of packages may do to a store: every dictionary stays
    where it is and keeps its manager and its packages, and a removed flag
    that is set stays set. *)
Definition evolves (st st' : list History.Installation) : Prop :=
  length st' = length st
  /\ forall l i, st !! l = Some i ->
       exists i', st' !! l = Some i'
                  /\ History.manager i' = History.manager i
                  /\ History.packages i' = History.packages i
                  /\ (History.is_removed i = true -> History.is_removed i' = true).

(** Two states of a ledger with the same list of installations, as many
    dictionaries in the store, the same metadata and the same rollbacks. *)
Definition same_frame (hd hd' : History.HistoryData) : Prop :=
  History.installations hd' = History.installations hd
  /\ length (History.store hd') = length (History.store hd)
  /\ History.metadata hd' = History.metadata hd
  /\ History.rollbacks hd' = History.rollbacks hd.

(** A ledger of [n] installations: as many entries in its list, each naming
    a dictionary of the store, and [total_installations] equal to [n]. *)
Definition counts (hd : History.HistoryData) (n : nat) : Prop :=
  length (History.installations hd) = n
  /\ Forall (fun l => l < length (History.store hd)) (History.installations hd)
  /\ History.total_installations (History.metadata hd) = Z.of_nat n.

(** The fields [record_install] gives an installation. *)
Definition original_fields (inst : History.Installation) :=
  (History.timestamp inst, History.manager inst, History.packages inst,
   History.dependencies inst, History.version inst, History.size inst,
   History.user inst, History.scope inst).

(** The packages of a removal list that an installation lists, in the order
    of the removal list. *)
Definition matched_packages (inst : History.Installation) (pkgs : list string)
    : list string :=
  List.filter (fun p => PyList.mem p (History.packages inst)) pkgs.

(** The world after [n] readings of the clock. *)
Fixpoint ticked {World : Type} (be : History.Backend World) (n : nat)
    (w : World) : World :=
  match n with
  | O => w
  | S k => ticked be k (snd (History.now be w))
  end.

(** The markings [mark_packages_removed] makes on the installations named
    by [locs]: one for each package given that an installation of the
    manager lists. *)
Definition markings (st : list History.Installation) (mgr : string)
    (pkgs : list string) (locs : list nat) : nat :=
  foldr (fun l n =>
           match st !! l with
           | Some inst =>
               if String.eqb (History.manager inst) mgr
               then length (matched_packages inst pkgs) + n
               else n
           | None => n
           end) 0 locs.

(** A detail that reports a marking, as opposed to an error. *)
Definition is_marking (d : History.Detail) : bool :=
  match History.detail_action d with
  | History.action_marked_removed => true
  | History.action_error => false
  end.

(** The counters of a reconciliation agree with its details: as many
    details report a marking as [marked_removed] counts, as many report an
    error as [errors] counts, and together they are no more than the
    checks. *)
Definition tidy (res : History.Reconciliation) : Prop :=
  length (List.filter is_marking (History.details res))
  = History.count_marked_removed res
  /\ length (List.filter (fun d => negb (is_marking d)) (History.details res))
     = History.errors res
  /\ History.count_marked_removed res + History.errors res
     <= History.checked res.

(** Every manager has a command, so that [is_enabled] answers. *)
Definition has_commands {World : Type} (be : History.Backend World) : Prop :=
  forall (w : World) (mgr : string), exists b, History.is_enabled be w mgr = Ok b.

(** A back end that knows every manager and whose search finds every
    package asked for. *)
Definition finds_everything {World : Type} (be : History.Backend World) : Prop :=
  forall (w : World) (mgr package : string),
    History.get_manager be w mgr = true
    /\ exists r, fst (History.search be mgr package w) = Ok r
                 /\ History.name_matches package r = true.

(** An installation of the manager that lists the package is in the ledger. *)
Definition in_history (hd : History.HistoryData) (package mgr : string) : Prop :=
  exists l inst,
    l ∈ History.installations hd
    /\ History.store hd !! l = Some inst
    /\ History.manager inst = mgr
    /\ PyList.mem package (History.packages inst) = true.

(** A back end on the simulated machine that knows every manager and finds
    whatever it is asked for. *)
Definition generous_backend : History.Backend Sim.Machine :=
  {| History.now := Sim.tick;
     History.getuser := fun _ => "ada";
     History.get_manager := fun _ _ => true;
     History.search := fun _ q m =>
       (Ok {| History.success := true; History.error := None;
              History.result_packages := Some [Some q] |}, m);
     History.remove := Sim.machine_remove;
     History.purge := Sim.machine_remove;
     History.is_enabled := fun _ _ => Ok true;
     History.write_history := Sim.machine_write |}.

(** The number of installations a [managers_used] dictionary counts. *)
Definition counted (used : Dict.t nat) : nat :=
  foldr (fun kv n => snd kv + n) 0 used.

(** Every entry of the ledger's list names a dictionary of the store. *)
Definition live (hd : History.HistoryData) : Prop :=
  Forall (fun l => is_Some (History.store hd !! l)) (History.installations hd).

(** In the order of the time stamps, each entry next to a later or equal one. *)
Definition by_timestamp (hm : History.HistoryManager) (refs : list Ledger.Ref)
    : Prop :=
  Sorted (fun a b => String.leb (Ledger.timestamp_of hm a)
                       (Ledger.timestamp_of hm b) = true) refs.

(** The time stamp of the installation does not read as one with an offset
    from UTC; the ledger writes [datetime.now().isoformat()], which has none. *)
Definition naive {World : Type} (cal : Retention.Calendar World)
    (inst : History.Installation) : Prop :=
  forall t, Retention.fromisoformat cal (History.timestamp inst) <> Some (true, t).


Definition june : Retention.Calendar Sim.Machine :=
  {| Retention.day := fun _ => 20%Z;
     Retention.days_in_month := fun _ => 30%Z;
     Retention.midnight := fun _ d => (d * 86400)%Z;
     Retention.fromisoformat := fun _ => None |}.

(** No line ends inside the string. *)
Definition no_break (s : string) : Prop :=
  forall c, c ∈ list_ascii_of_string s -> c <> Conf.LF /\ c <> Conf.CR.

(** No value, event name or action of the configuration holds a line end. *)
Definition one_line_values (c : Plugin.PluginConfig) : Prop :=
  no_break (Plugin.description c) /\ no_break (Plugin.version c)
  /\ no_break (Plugin.author c)
  /\ Forall (fun ev => no_break (fst ev) /\ Forall no_break (snd ev))
       (Plugin.events c).

(** What is left of a configuration after its file is written and read:
    the values and actions lose the white space at their end, and an event
    without a name loses its actions. *)
Definition as_read (c : Plugin.PluginConfig) : Plugin.PluginConfig :=
  {| Plugin.enabled := Plugin.enabled c;
     Plugin.description := Conf.rstrip (Plugin.description c);
     Plugin.version := Conf.rstrip (Plugin.version c);
     Plugin.author := Conf.rstrip (Plugin.author c);
     Plugin.events :=
       map (fun ev => (fst ev, if String.eqb (fst ev) "" then []
                               else map Conf.rstrip (snd ev)))
         (Plugin.events c) |}.

(** No character of the string is white space. *)
Definition solid (p : string) : bool :=
  forallb (fun c => negb (Conf.is_space c)) (list_ascii_of_string p).

(** A directory entry [_load_plugins_from_dir] makes a plugin of: a
    directory with a [plugin.conf]. *)
Definition loadable (item : Plugin.DirEntry) : bool :=
  Plugin.item_is_dir item
  && match Plugin.item_conf item with Some _ => true | None => false end.

(** The entries of a plugin directory, none when it does not exist. *)
Definition dir_items (d : option (list Plugin.DirEntry)) : list Plugin.DirEntry :=
  match d with
  | Some items => items
  | None => []
  end.

(** * Properties *)

(** ** String replacement *)

Lemma contains_empty (s : string) : PyStr.contains "" s = true.
Proof. destruct s; reflexivity. Qed.

Lemma replace_go_absent (old new s : string) :
  PyStr.contains old s = false -> PyStr.replace_go old new 0 s = s.
Proof.
  induction s as [|c s IH]; intros H; [reflexivity|].
  cbn [PyStr.contains] in H. apply orb_false_iff in H as [Hp Hc].
  cbn [PyStr.replace_go]. rewrite Hp. f_equal. auto.
Qed.

Lemma replace_absent (old new s : string) :
  PyStr.contains old s = false -> PyStr.replace old new s = s.
Proof.
  destruct old as [|a old]; intros H.
  - rewrite contains_empty in H. discriminate.
  - unfold PyStr.replace. now apply replace_go_absent.
Qed.

(** ** Variable substitution *)

Lemma dict_get_set_eq {V : Type} (d : Dict.t V) (k : string) (v : V) :
  Dict.get (Dict.set d k v) k = Some v.
Proof.
  induction d as [|[k' v'] d IH]; cbn.
  - now rewrite String.eqb_refl.
  - destruct (String.eqb k' k) eqn:E; cbn.
    + now rewrite String.eqb_refl.
    + now rewrite E.
Qed.

Lemma dict_get_set_ne {V : Type} (d : Dict.t V) (k k' : string) (v : V) :
  k <> k' -> Dict.get (Dict.set d k v) k' = Dict.get d k'.
Proof.
  intros Hne. induction d as [|[k0 v0] d IH]; cbn.
  - apply String.eqb_neq in Hne. now rewrite Hne.
  - destruct (String.eqb k0 k) eqn:E; cbn.
    + apply String.eqb_eq in E. subst k0.
      apply String.eqb_neq in Hne. now rewrite Hne.
    + now rewrite IH.
Qed.

Lemma all_str_ok (l : list PyVal) :
  is_ok (Plugin.all_str l) = forallb is_VStr l.
Proof.
  induction l as [|v l IH]; [reflexivity|].
  cbn [Plugin.all_str forallb]. destruct v; try reflexivity.
  cbn. destruct (Plugin.all_str l); cbn in *; congruence.
Qed.

Lemma expand_variables_ok_iff (p : Plugin.SimplePlugin) (si : Plugin.SysInfo)
    (text : string) (context : Context) :
  is_ok (Plugin._expand_variables p si text context) = well_typed context.
Proof.
  unfold Plugin._expand_variables, well_typed, str_entry, packages_entry, ctx_get.
  destruct (Dict.get context "package_manager") as [[]|]; try reflexivity;
  (destruct (Dict.get context "packages") as [[| | | |l]|]; try reflexivity;
   cbn; try (pose proof (all_str_ok l) as Hl;
             destruct (Plugin.all_str l); cbn in Hl |- *; rewrite <- Hl;
             try reflexivity);
   (destruct (Dict.get context "operation") as [[]|]; try reflexivity;
    cbn; destruct (Dict.get context "error") as [[]|]; reflexivity)).
Qed.













(** ** Dispatch *)

Section DispatchProps.
Context {World : Type} (sh : Plugin.Shell World).


Lemma action_calls_app (a b : list Plugin.Call) :
  action_calls (a ++ b) = (action_calls a ++ action_calls b)%list.
Proof.
  induction a as [|[] a IH]; cbn; [reflexivity| |]; now rewrite IH.
Qed.


Lemma action_calls_executed p executed :
  action_calls (executed_calls p executed) = executed.
Proof.
  induction executed as [|[a r] e IH]; cbn; [reflexivity|]. f_equal. exact IH.
Qed.

Lemma execute_action_calls p action context st :
  Plugin.calls (snd (Plugin._execute_action sh p action context st))
  = (Plugin.calls st ++
     [Plugin.ExecuteAction (Plugin.name p) action
        (fst (Plugin._execute_action sh p action context st))])%list.
Proof.
  unfold Plugin._execute_action.
  destruct (match Plugin._expand_variables p _ action context with
            | Ok _ => _ | Raise _ => _ end) as [r w']; reflexivity.
Qed.

Lemma execute_action_effect p action context st :
  Plugin._execute_action sh p action context st
  = (fst (effect sh p context action (Plugin.world st)),
     {| Plugin.world := snd (effect sh p context action (Plugin.world st));
        Plugin.calls :=
          (Plugin.calls st ++
           [Plugin.ExecuteAction (Plugin.name p) action
              (fst (effect sh p context action (Plugin.world st)))])%list |}).
Proof.
  unfold Plugin._execute_action, effect.
  destruct (Plugin._expand_variables p _ action context) as [e|err];
    [|reflexivity].
  cbn [dispatch handlers String.length].
  destruct (PyStr.startswith "run:" e);
    [destruct (Plugin._run_command sh _ _); reflexivity|].
  destruct (PyStr.startswith "script:" e);
    [destruct (Plugin._run_script sh _ _ _); reflexivity|].
  destruct (PyStr.startswith "notify:" e);
    [destruct (Plugin._send_notification sh _ _); reflexivity|].
  destruct (PyStr.startswith "log:" e);
    [destruct (Plugin._log_message sh _ _ _); reflexivity|].
  destruct (Plugin._run_command sh _ _); reflexivity.
Qed.

Lemma run_actions_spec p context actions : forall st,
  exists executed : list (string * bool),
    Plugin.calls (snd (Plugin.run_actions sh p actions context st))
    = (Plugin.calls st ++ executed_calls p executed)%list
    /\ Runs sh p context actions (Plugin.world st) executed
         (fst (Plugin.run_actions sh p actions context st))
         (Plugin.world (snd (Plugin.run_actions sh p actions context st)))
    /\ ((fst (Plugin.run_actions sh p actions context st) = true
         /\ map fst executed = actions /\ forallb snd executed = true)
        \/ (fst (Plugin.run_actions sh p actions context st) = false
            /\ exists pre a rest,
                 executed = (pre ++ [(a, false)])%list
                 /\ forallb snd pre = true
                 /\ actions = (map fst pre ++ a :: rest)%list)).
Proof.
  induction actions as [|a actions IH]; intros st.
  - exists []. cbn. rewrite app_nil_r. split; [reflexivity|].
    split; [constructor|]. left. auto.
  - cbn [Plugin.run_actions]. rewrite execute_action_effect.
    destruct (effect sh p context a (Plugin.world st)) as [ok w'] eqn:He.
    cbn [fst snd]. destruct ok.
    + destruct (IH {| Plugin.world := w';
                      Plugin.calls :=
                        (Plugin.calls st ++
                         [Plugin.ExecuteAction (Plugin.name p) a true])%list |})
        as (ex & Hcalls & Hruns & Hcase).
      cbn [Plugin.world Plugin.calls] in Hcalls, Hruns.
      exists ((a, true) :: ex). split; [|split].
      * rewrite Hcalls. cbn. now rewrite <- app_assoc.
      * eapply Runs_ok; [exact He|exact Hruns].
      * destruct Hcase as [(Hr & Hm & Hall) | (Hr & pre & b & rest & Hex & Hpre & Ha)].
        -- left. cbn. rewrite Hm, Hall. auto.
        -- right. split; [assumption|].
           exists ((a, true) :: pre), b, rest. subst ex. cbn.
           rewrite Hpre, Ha. auto.
    + exists [(a, false)]. split; [reflexivity|]. split.
      * cbn [Plugin.world]. now apply Runs_failed.
      * right. split; [reflexivity|]. exists [], a, actions. auto.
Qed.

End DispatchProps.

(** C5: a disabled plugin answers [true] at once, the world untouched and
    no action executed. An enabled one executes the actions configured for
    the event in order, from the world it is called in and with the context
    it is given: each action has its variables substituted and is handed to
    the handler its prefix names, the next action starts in the world the
    last one left, and the world the plugin leaves is the one left by the
    last action executed. Either all the actions ran and succeeded and the
    answer is [true], or the answer is [false], the last action executed is
    the first that failed and the ones after it did not run. *)
Theorem handle_event_spec {World : Type} (sh : Plugin.Shell World)
    (p : Plugin.SimplePlugin) (event : string) (context : Context)
    (st : Plugin.PState World) :
  let out := Plugin.handle_event sh p event context st in
  if Plugin.is_enabled p then
    exists executed : list (string * bool),
      Plugin.calls (snd out)
      = (Plugin.calls st ++ executed_calls p executed
         ++ [Plugin.HandleEvent (Plugin.name p) event (fst out)])%list
      /\ Runs sh p context (actions_for p event) (Plugin.world st) executed
           (fst out) (Plugin.world (snd out))
      /\ ((fst out = true
           /\ map fst executed = actions_for p event
           /\ forallb snd executed = true)
          \/ (fst out = false
              /\ exists pre a rest,
                   executed = (pre ++ [(a, false)])%list
                   /\ forallb snd pre = true
                   /\ actions_for p event = (map fst pre ++ a :: rest)%list))
  else
    out = (true, Plugin.record_call
                   (Plugin.HandleEvent (Plugin.name p) event true)
                   (Plugin.world st) st).
Proof.
  cbv zeta. unfold Plugin.handle_event, actions_for.
  destruct (Plugin.is_enabled p); cbn [negb]; [|reflexivity].
  destruct (Dict.get (Plugin.events (Plugin.config p)) event) as [actions|].
  - destruct (run_actions_spec sh p context actions st)
      as (ex & Hc & Hruns & Hcase).
    destruct (Plugin.run_actions sh p actions context st) as [r st'].
    cbn [fst snd] in *. exists ex. split; [|split; [exact Hruns|exact Hcase]].
    unfold Plugin.record_call. cbn. rewrite Hc. now rewrite <- app_assoc.
  - exists []. cbn. split; [reflexivity|]. split; [constructor|]. left. auto.
Qed.




(** C3 at its failing input: a plugin directory [backup] in the system
    directory and one in the user directory, both enabled. The registry holds
    them as [system-backup] and [user-backup], both are enabled and both are
    called on an event; no plugin is called [backup], so enabling or
    disabling that name finds nothing and changes nothing. *)
Theorem same_name_plugins_both_active :
  let pm := Plugin.init (Some [Sim.entry "backup" "/usr/share/paka/plugins" true])
              (Some [Sim.entry "backup" "/home/ada/.local/share/paka/plugins" true])
              [] in
  Dict.keys (Plugin.get_enabled_plugins pm) = ["system-backup"; "user-backup"]
  /\ handler_calls (Plugin.calls (snd (Plugin.trigger_event Sim.shell pm
                                         "pre-install" [] (Sim.start []))))
     = [("system-backup", true); ("user-backup", true)]
  /\ Plugin.get_plugin pm "backup" = None
  /\ Plugin.enable_plugin Sim.shell pm "backup" (Sim.host [])
     = (false, pm, Sim.host [])
  /\ Plugin.disable_plugin Sim.shell pm "backup" (Sim.host [])
     = (false, pm, Sim.host []).
Proof. vm_compute. repeat split; reflexivity. Qed.

(** ** The ledger *)

(** C1 at its failing inputs: one record of [firefox] installed by [apt].
    When the search of the back end raises, and when the registry has no
    manager [apt], reconciliation flags the record removed and reports
    [marked_removed = 1], [errors = 0]. *)
Theorem reconcile_marks_removed_on_error :
  let installed w :=
    History.record_install Sim.backend "apt" ["firefox"] Sim.no_details "user"
      Sim.fresh w in
  let run w :=
    let '(hm, w') := installed w in
    let '(res, hm', _) := History.reconcile_package_status Sim.backend "user" hm w' in
    (History.checked res, History.count_marked_removed res, History.errors res,
     map History.detail_action (History.details res),
     Sim.flags (History.user_history_data hm')) in
  fst (History.search Sim.backend "apt" "firefox"
         (Sim.machine ["apt"] [("apt", "firefox")] ["apt"] []))
    = Raise "command timed out"
  /\ run (Sim.machine ["apt"] [("apt", "firefox")] ["apt"] [])
     = (1, 1, 0, [History.action_marked_removed], [(Some true, Some ["firefox"])])
  /\ History.get_manager Sim.backend
       (Sim.machine [] [("apt", "firefox")] [] []) "apt" = false
  /\ run (Sim.machine [] [("apt", "firefox")] [] [])
     = (1, 1, 0, [History.action_marked_removed], [(Some true, Some ["firefox"])]).
Proof. vm_compute. repeat split; reflexivity. Qed.

(** C7 at its failing input: a manager whose privilege check answers
    [False]. [record_install] with scope [system] appends to the system
    ledger and writes the system file, and [mark_packages_removed] with
    scope [system] flags the record there; neither is refused. *)
Theorem system_scope_written_unprivileged :
  let '(hm1, w1) :=
    History.record_install Sim.backend "apt" ["htop"] Sim.no_details "system"
      Sim.fresh (Sim.machine ["apt"] [("apt", "htop")] [] []) in
  let '(hm2, w2) :=
    History.mark_packages_removed Sim.backend "apt" ["htop"] "system" hm1 w1 in
  History.can_access_system_history Sim.fresh = false
  /\ map History.packages (History.records (History.system_history_data hm1))
     = [["htop"]]
  /\ History.records (History.user_history_data hm1) = []
  /\ option_map History.records (Sim.system_file w1)
     = Some (History.records (History.system_history_data hm1))
  /\ Sim.flags (History.system_history_data hm2) = [(Some true, Some ["htop"])]
  /\ option_map Sim.flags (Sim.system_file w2)
     = Some [(Some true, Some ["htop"])]
  /\ History.get_installations None None "system" hm2 = [].
Proof. vm_compute. repeat split; reflexivity. Qed.

(** C8 at its failing input: the rollback of the only record, [vim]
    installed by [apt], with a back end that removes it. The rollback record
    names the installation dictionary itself, so once the packages are
    marked its [original_installation] reads [removed = True], in memory and
    in the file written last. *)
Theorem rollback_original_is_alias :
  let '(hm1, w1) :=
    History.record_install Sim.backend "apt" ["vim"] Sim.no_details "user"
      Sim.fresh (Sim.machine ["apt"] [("apt", "vim")] [] []) in
  let '(res, hm2, w2) := History.perform_rollback Sim.backend 0 "user" false hm1 w1 in
  let original (hd : History.HistoryData) :=
    map (fun r => option_map History.removed
                    (History.store hd !! History.original_installation r))
      (History.rollbacks hd) in
  Sim.flags (History.user_history_data hm1) = [(None, None)]
  /\ History.rollback_success res = true
  /\ original (History.user_history_data hm2) = [Some (Some true)]
  /\ option_map original (Sim.user_file w2) = Some [Some (Some true)].
Proof. vm_compute. repeat split; reflexivity. Qed.

(** C2, as the code has it: when [perform_rollback] reaches the back end
    (the installation is found and its manager is registered) and the
    [remove] or [purge] call returns [success = False] or raises, the history
    manager is unchanged, nothing but the back-end call has acted on the
    world, and the result carries [success = False], the attempted package
    list and an error text: the text of the exception, or the back end's
    error string, or ['Unknown error during removal'] when the back end gave
    none or an empty one. *)
Theorem perform_rollback_failure {World : Type} (be : History.Backend World)
    (id : Z) (sc : string) (prg : bool) (hm : History.HistoryManager)
    (w : World) (l : History.loc) (inst : History.Installation) :
  History.get_installation id sc hm = Some l ->
  History.store (History.history_data hm sc) !! l = Some inst ->
  History.get_manager be w (History.manager inst) = true ->
  let pkgs := PyList.unique (History.packages inst ++ History.dependencies inst)%list in
  let call := if prg then History.purge be (History.manager inst) pkgs w
              else History.remove be (History.manager inst) pkgs w in
  let out := History.perform_rollback be id sc prg hm w in
  backend_failed (fst call) = true ->
  snd (fst out) = hm
  /\ snd out = snd call
  /\ History.rollback_success (fst (fst out)) = false
  /\ History.rollback_error (fst (fst out)) = Some (reported_error (fst call))
  /\ History.packages_attempted (fst (fst out)) = Some pkgs
  /\ (forall res e, fst call = Ok res -> History.error res = Some e ->
      e <> "" -> History.rollback_error (fst (fst out)) = Some e).
Proof.
  intros Hget Hst Hmgr pkgs call out Hfail.
  assert (Hout : out = (History.failure (reported_error (fst call)) (Some pkgs),
                        hm, snd call)).
  { subst out. unfold History.perform_rollback. rewrite Hget, Hst, Hmgr.
    cbn [negb]. fold pkgs. fold call.
    destruct call as [[res|e] w1]; cbn [fst snd] in *.
    - cbn in Hfail. apply negb_true_iff in Hfail. rewrite Hfail. reflexivity.
    - reflexivity. }
  rewrite Hout. cbn [fst snd]. repeat split.
  intros res e Hres He Hne. cbn. rewrite Hres. cbn. rewrite He. cbn.
  destruct (String.eqb_spec e ""); [contradiction|reflexivity].
Qed.

Lemma perform_rollback_failure_witness :
  let '(hm, w) :=
    Sim.vim_installed (Sim.machine ["apt"] [("apt", "vim")] []
                         [("apt", "permission denied")]) in
  let out := History.perform_rollback Sim.backend 0 "user" false hm w in
  snd (fst out) = hm
  /\ snd out = w
  /\ History.rollback_success (fst (fst out)) = false
  /\ History.rollback_error (fst (fst out)) = Some "permission denied"
  /\ History.packages_attempted (fst (fst out)) = Some ["vim"; "vim-common"].
Proof.
  pose proof (perform_rollback_failure Sim.backend 0 "user" false
                (fst (Sim.vim_installed
                        (Sim.machine ["apt"] [("apt", "vim")] []
                           [("apt", "permission denied")])))
                (snd (Sim.vim_installed
                        (Sim.machine ["apt"] [("apt", "vim")] []
                           [("apt", "permission denied")])))
                0%nat Sim.vim_record
                eq_refl eq_refl eq_refl eq_refl) as H.
  destruct H as (H1 & H2 & H3 & H4 & H5 & _).
  repeat split; assumption.
Defined.

(** C2 as stated fails where the back end refuses with an empty error
    string (a command that fails with nothing on its standard error): the
    result carries ['Unknown error during removal'], not that string. The
    ledger is unchanged there too. *)
Lemma perform_rollback_empty_error :
  let '(hm, w) :=
    Sim.vim_installed (Sim.machine ["apt"] [("apt", "vim")] [] [("apt", "")]) in
  let out := History.perform_rollback Sim.backend 0 "user" false hm w in
  option_map History.error
    (match fst (History.remove Sim.backend "apt" ["vim"; "vim-common"] w) with
     | Ok res => Some res
     | Raise _ => None
     end) = Some (Some "")
  /\ History.rollback_error (fst (fst out)) = Some "Unknown error during removal"
  /\ History.rollback_error (fst (fst out)) <> Some ""
  /\ snd (fst out) = hm.
Proof. vm_compute. repeat split; try reflexivity. discriminate. Qed.

(** ** Marking, on the store *)

Lemma evolves_refl st : evolves st st.
Proof. split; [reflexivity|]. intros l i H. exists i. auto. Qed.

Lemma evolves_trans st1 st2 st3 :
  evolves st1 st2 -> evolves st2 st3 -> evolves st1 st3.
Proof.
  intros [L1 H1] [L2 H2]. split; [congruence|].
  intros l i Hi. destruct (H1 l i Hi) as (i2 & Hi2 & Hm & Hp & Hr).
  destruct (H2 l i2 Hi2) as (i3 & Hi3 & Hm' & Hp' & Hr').
  exists i3. repeat split; try congruence. auto.
Qed.

Lemma evolves_mark st l inst t package :
  st !! l = Some inst -> evolves st (<[l := History.mark inst t package]> st).
Proof.
  intros Hl. split; [apply length_insert|].
  intros l' i Hi. destruct (decide (l = l')) as [->|Hne].
  - exists (History.mark inst t package).
    rewrite list_lookup_insert_eq by (eapply lookup_lt_Some; eauto).
    assert (i = inst) by congruence. subst i. auto.
  - exists i. rewrite list_lookup_insert_ne by assumption. auto.
Qed.

Section StoreProps.
Context {World : Type} (be : History.Backend World).

Lemma mark_packages_evolves l pkgs : forall st w,
  evolves st (fst (History.mark_packages be l pkgs st w)).
Proof.
  induction pkgs as [|package rest IH]; intros st w; cbn [History.mark_packages].
  - apply evolves_refl.
  - destruct (st !! l) as [inst|] eqn:Hl; [|apply evolves_refl].
    destruct (PyList.mem package (History.packages inst)); [|apply IH].
    destruct (History.now be w) as [t w'].
    eapply evolves_trans; [apply evolves_mark; eassumption|apply IH].
Qed.

Lemma mark_packages_other l pkgs l' : l <> l' -> forall st w,
  fst (History.mark_packages be l pkgs st w) !! l' = st !! l'.
Proof.
  intros Hne. induction pkgs as [|package rest IH]; intros st w;
    cbn [History.mark_packages]; [reflexivity|].
  destruct (st !! l) as [inst|] eqn:Hl; [|reflexivity].
  destruct (PyList.mem package (History.packages inst)); [|apply IH].
  destruct (History.now be w) as [t w'].
  rewrite IH. now apply list_lookup_insert_ne.
Qed.

Lemma mark_packages_none l pkgs inst : forall st w,
  st !! l = Some inst ->
  forallb (fun p => negb (PyList.mem p (History.packages inst))) pkgs = true ->
  History.mark_packages be l pkgs st w = (st, w).
Proof.
  induction pkgs as [|package rest IH]; intros st w Hl Hall;
    cbn [History.mark_packages]; [reflexivity|].
  cbn [forallb] in Hall. apply andb_true_iff in Hall as [Hp Hrest].
  apply negb_true_iff in Hp. rewrite Hl, Hp. now apply IH.
Qed.

Lemma mark_packages_flags l pkgs inst : forall st w,
  st !! l = Some inst ->
  existsb (fun p => PyList.mem p (History.packages inst)) pkgs = true ->
  exists inst', fst (History.mark_packages be l pkgs st w) !! l = Some inst'
                /\ History.is_removed inst' = true
                /\ History.packages inst' = History.packages inst.
Proof.
  induction pkgs as [|package rest IH]; intros st w Hl Hex;
    cbn [existsb] in Hex; [discriminate|].
  cbn [History.mark_packages]. rewrite Hl.
  destruct (PyList.mem package (History.packages inst)) eqn:Hm.
  - destruct (History.now be w) as [t w'].
    pose proof (mark_packages_evolves l rest
                  (<[l := History.mark inst t package]> st) w') as [_ Hev].
    destruct (Hev l (History.mark inst t package)) as (i' & Hi' & _ & Hp & Hr).
    { apply list_lookup_insert_eq. eapply lookup_lt_Some; eauto. }
    exists i'. split; [exact Hi'|]. split; [now apply Hr|exact Hp].
  - cbn in Hex. now apply IH.
Qed.

Lemma mark_installations_evolves mgr pkgs locs : forall st w,
  evolves st (fst (History.mark_installations be locs mgr pkgs st w)).
Proof.
  induction locs as [|l rest IH]; intros st w; cbn [History.mark_installations].
  - apply evolves_refl.
  - destruct (st !! l) as [inst|] eqn:Hl; [|apply IH].
    destruct (String.eqb (History.manager inst) mgr); [|apply IH].
    pose proof (mark_packages_evolves l pkgs st w) as Hev.
    destruct (History.mark_packages be l pkgs st w) as [st' w'].
    eapply evolves_trans; [exact Hev|apply IH].
Qed.

(** A dictionary of another manager, or one that lists none of the
    packages, is left as it is. *)
Lemma mark_installations_frozen mgr pkgs l inst locs : forall st w,
  st !! l = Some inst ->
  String.eqb (History.manager inst) mgr
  && existsb (fun p => PyList.mem p (History.packages inst)) pkgs = false ->
  fst (History.mark_installations be locs mgr pkgs st w) !! l = Some inst.
Proof.
  intros st w Hl Hno. revert st w Hl.
  induction locs as [|l' rest IH]; intros st w Hl;
    cbn [History.mark_installations]; [exact Hl|].
  destruct (st !! l') as [inst'|] eqn:Hl'; [|now apply IH].
  destruct (String.eqb (History.manager inst') mgr) eqn:Hm; [|now apply IH].
  destruct (decide (l' = l)) as [->|Hne].
  - assert (inst' = inst) by congruence. subst inst'.
    rewrite Hm in Hno. cbn in Hno.
    rewrite (mark_packages_none l pkgs inst st w Hl).
    + now apply IH.
    + clear -Hno. induction pkgs as [|p ps IHp]; [reflexivity|].
      cbn in *. apply orb_false_iff in Hno as [Hp Hps].
      rewrite Hp. cbn. auto.
  - pose proof (mark_packages_other l' pkgs l Hne st w) as Ho.
    destruct (History.mark_packages be l' pkgs st w) as [st' w'].
    cbn [fst] in Ho. apply IH. now rewrite Ho.
Qed.

(** A dictionary of the ledger that is of the manager and lists one of the
    packages comes out flagged. *)
Lemma mark_installations_flags mgr pkgs l inst locs : forall st w,
  l ∈ locs -> st !! l = Some inst ->
  String.eqb (History.manager inst) mgr = true ->
  existsb (fun p => PyList.mem p (History.packages inst)) pkgs = true ->
  exists inst', fst (History.mark_installations be locs mgr pkgs st w) !! l
                = Some inst'
                /\ History.is_removed inst' = true
                /\ History.packages inst' = History.packages inst.
Proof.
  induction locs as [|l' rest IH]; intros st w Hin Hl Hm Hex.
  - inversion Hin.
  - cbn [History.mark_installations].
    destruct (decide (l' = l)) as [->|Hne].
    + rewrite Hl, Hm.
      destruct (mark_packages_flags l pkgs inst st w Hl Hex) as (i1 & Hi1 & Hr1 & Hp1).
      destruct (History.mark_packages be l pkgs st w) as [st' w']. cbn [fst] in Hi1.
      pose proof (mark_installations_evolves mgr pkgs rest st' w') as [_ Hev].
      destruct (Hev l i1 Hi1) as (i2 & Hi2 & _ & Hp2 & Hr2).
      exists i2. split; [exact Hi2|]. split; [auto|congruence].
    + apply elem_of_cons in Hin as [->|Hin]; [contradiction|].
      destruct (st !! l') as [inst'|] eqn:Hl'; [|now apply IH].
      destruct (String.eqb (History.manager inst') mgr); [|now apply IH].
      pose proof (mark_packages_other l' pkgs l Hne st w) as Ho.
      destruct (History.mark_packages be l' pkgs st w) as [st' w'].
      cbn [fst] in Ho. apply IH; auto. now rewrite Ho.
Qed.

End StoreProps.

(** ** Marking and reconciliation, on the history manager *)

Lemma same_frame_refl hd : same_frame hd hd.
Proof. repeat split. Qed.

Lemma same_frame_trans hd1 hd2 hd3 :
  same_frame hd1 hd2 -> same_frame hd2 hd3 -> same_frame hd1 hd3.
Proof.
  intros (A1 & B1 & C1 & D1) (A2 & B2 & C2 & D2). repeat split; congruence.
Qed.

Lemma history_data_set hm sc hd sc' :
  History.history_data (History.set_history_data hm sc hd) sc'
  = if Bool.eqb (History.is_system sc') (History.is_system sc) then hd
    else History.history_data hm sc'.
Proof.
  unfold History.history_data, History.set_history_data.
  destruct (History.is_system sc), (History.is_system sc'); reflexivity.
Qed.

Section LedgerProps.
Context {World : Type} (be : History.Backend World).

Lemma mark_packages_removed_fst mgr pkgs sc hm w :
  fst (History.mark_packages_removed be mgr pkgs sc hm w)
  = History.set_history_data hm sc
      (History.with_store (History.history_data hm sc)
         (fst (History.mark_installations be
                 (History.installations (History.history_data hm sc))
                 mgr pkgs (History.store (History.history_data hm sc)) w))).
Proof.
  unfold History.mark_packages_removed.
  destruct (History.mark_installations be _ mgr pkgs _ w) as [st' w'].
  reflexivity.
Qed.

Lemma mark_packages_removed_store mgr pkgs sc hm w :
  History.store (History.history_data
                   (fst (History.mark_packages_removed be mgr pkgs sc hm w)) sc)
  = fst (History.mark_installations be
           (History.installations (History.history_data hm sc))
           mgr pkgs (History.store (History.history_data hm sc)) w).
Proof.
  rewrite mark_packages_removed_fst, history_data_set.
  now rewrite eqb_reflx.
Qed.

Lemma mark_packages_removed_frame mgr pkgs sc hm w sc' :
  same_frame (History.history_data hm sc')
    (History.history_data
       (fst (History.mark_packages_removed be mgr pkgs sc hm w)) sc').
Proof.
  rewrite mark_packages_removed_fst, history_data_set.
  destruct (Bool.eqb (History.is_system sc') (History.is_system sc)) eqn:E;
    [|apply same_frame_refl].
  apply eqb_prop in E.
  assert (Hd : History.history_data hm sc' = History.history_data hm sc)
    by (unfold History.history_data; now rewrite E).
  rewrite Hd. repeat split. cbn.
  apply (mark_installations_evolves be).
Qed.

(** One round of the inner loop of reconciliation. *)
Lemma reconcile_packages_inv mgr sc pkgs : forall res hm w,
  let out := History.reconcile_packages be mgr sc pkgs res hm w in
  (forall sc', same_frame (History.history_data hm sc')
                 (History.history_data (snd (fst out)) sc'))
  /\ evolves (History.store (History.history_data hm sc))
       (History.store (History.history_data (snd (fst out)) sc))
  /\ History.checked (fst (fst out)) = History.checked res + length pkgs
  /\ (forall l inst,
        History.store (History.history_data hm sc) !! l = Some inst ->
        String.eqb (History.manager inst) mgr
        && existsb (fun p => PyList.mem p (History.packages inst)) pkgs = false ->
        History.store (History.history_data (snd (fst out)) sc) !! l = Some inst).
Proof.
  induction pkgs as [|package rest IH]; intros res hm w; cbv zeta.
  - cbn. split; [intros; apply same_frame_refl|].
    split; [apply evolves_refl|]. split; [lia|]. auto.
  - cbn [History.reconcile_packages].
    assert (Hkeep : forall res1 w1,
      History.checked res1 = S (History.checked res) ->
      let out := History.reconcile_packages be mgr sc rest res1 hm w1 in
      (forall sc', same_frame (History.history_data hm sc')
                     (History.history_data (snd (fst out)) sc'))
      /\ evolves (History.store (History.history_data hm sc))
           (History.store (History.history_data (snd (fst out)) sc))
      /\ History.checked (fst (fst out))
         = History.checked res + length (package :: rest)
      /\ (forall l inst,
            History.store (History.history_data hm sc) !! l = Some inst ->
            String.eqb (History.manager inst) mgr
            && existsb (fun p => PyList.mem p (History.packages inst))
                 (package :: rest) = false ->
            History.store (History.history_data (snd (fst out)) sc) !! l
            = Some inst)).
    { intros res1 w1 Hres1. specialize (IH res1 hm w1).
      cbv zeta in *. destruct IH as (IHf & IHe & IHc & IHz).
      split; [exact IHf|]. split; [exact IHe|].
      split; [rewrite IHc, Hres1; cbn; lia|].
      intros l inst Hl Hno. apply IHz; [exact Hl|].
      cbn [existsb] in Hno. apply andb_false_iff in Hno as [Hm|Hno];
        [now rewrite Hm|].
      apply orb_false_iff in Hno as [_ Hr]. rewrite Hr.
      now rewrite andb_false_r. }
    destruct (History.check_package_status be package mgr sc hm w)
      as [[status|e] w1]; [|now apply Hkeep].
    destruct (History.found_in_history status && negb (History.still_installed status));
      [|now apply Hkeep].
    clear Hkeep.
    pose proof (mark_packages_removed_frame mgr [package] sc hm w1) as Hf.
      pose proof (mark_packages_removed_store mgr [package] sc hm w1) as Hs.
      destruct (History.mark_packages_removed be mgr [package] sc hm w1) as [hm2 w2].
      cbn [fst] in Hf, Hs.
      specialize (IH (History.count_removed package mgr (History.count_checked res)) hm2 w2).
      cbv zeta in IH. destruct IH as (IHf & IHe & IHc & IHz).
      split; [intros sc'; eapply same_frame_trans; [apply Hf|apply IHf]|].
      split.
      { eapply evolves_trans; [|exact IHe]. rewrite Hs.
        apply (mark_installations_evolves be). }
      split; [rewrite IHc; cbn; lia|].
      intros l inst Hl Hno. apply IHz.
      * rewrite Hs. apply (mark_installations_frozen be); [exact Hl|].
        cbn [existsb] in *. apply andb_false_iff in Hno as [Hm|Hno];
          [now rewrite Hm|].
        apply orb_false_iff in Hno as [Hp _]. rewrite Hp.
        now rewrite andb_false_r.
      * cbn [existsb] in Hno. apply andb_false_iff in Hno as [Hm|Hno];
          [now rewrite Hm|].
        apply orb_false_iff in Hno as [_ Hr]. rewrite Hr.
        now rewrite andb_false_r.
Qed.

Lemma pending_cons_le st l rest : pending st rest <= pending st (l :: rest).
Proof.
  cbn [pending]. destruct (st !! l) as [i|]; [|lia].
  destruct (History.is_removed i); lia.
Qed.

(** The outer loop of reconciliation, started anywhere in a run: [st0] is
    the store the run began with. *)
Lemma reconcile_installations_inv sc st0 locs : forall res hm w,
  evolves st0 (History.store (History.history_data hm sc)) ->
  let out := History.reconcile_installations be locs sc res hm w in
  (forall sc', same_frame (History.history_data hm sc')
                 (History.history_data (snd (fst out)) sc'))
  /\ evolves (History.store (History.history_data hm sc))
       (History.store (History.history_data (snd (fst out)) sc))
  /\ History.checked (fst (fst out)) <= History.checked res + pending st0 locs
  /\ (forall l inst,
        History.store (History.history_data hm sc) !! l = Some inst ->
        (forall l' other, l' ∈ locs -> st0 !! l' = Some other ->
           History.is_removed other = false -> shares inst other = false) ->
        History.store (History.history_data (snd (fst out)) sc) !! l = Some inst).
Proof.
  induction locs as [|l' rest IH]; intros res hm w Hev; cbv zeta.
  - cbn. split; [intros; apply same_frame_refl|].
    split; [apply evolves_refl|]. split; [lia|]. auto.
  - cbn [History.reconcile_installations].
    pose proof (pending_cons_le st0 l' rest) as Hle.
    assert (Hrest : forall inst : History.Installation,
              (forall l'' other, l'' ∈ l' :: rest -> st0 !! l'' = Some other ->
                 History.is_removed other = false -> shares inst other = false) ->
              forall l'' other, l'' ∈ rest -> st0 !! l'' = Some other ->
                History.is_removed other = false -> shares inst other = false).
    { intros inst H l'' other Hin. apply H. apply elem_of_cons. now right. }
    destruct (History.store (History.history_data hm sc) !! l') as [cur|] eqn:Hcur.
    + destruct (History.is_removed cur) eqn:Hflag.
      * specialize (IH res hm w Hev). cbv zeta in IH.
        destruct IH as (IHf & IHe & IHc & IHz).
        split; [exact IHf|]. split; [exact IHe|]. split; [lia|].
        intros l inst Hl Hno. apply IHz; [exact Hl|]. eapply Hrest; eauto.
      * destruct Hev as [Hlen Hev0].
        assert (Hlt : l' < length st0).
        { rewrite <- Hlen. eapply lookup_lt_Some; eauto. }
        destruct (lookup_lt_is_Some_2 st0 l' Hlt) as [orig Horig].
        destruct (Hev0 l' orig Horig) as (cur' & Hcur' & Hm & Hp & Hr).
        assert (cur' = cur) by congruence. subst cur'.
        assert (Hoflag : History.is_removed orig = false).
        { destruct (History.is_removed orig) eqn:E; [|reflexivity].
          rewrite Hr in Hflag by reflexivity. discriminate. }
        pose proof (reconcile_packages_inv (History.manager cur) sc
                      (History.packages cur) res hm w) as Hpk.
        cbv zeta in Hpk.
        destruct (History.reconcile_packages be (History.manager cur) sc
                    (History.packages cur) res hm w) as [[res1 hm1] w1].
        cbn [fst snd] in Hpk. destruct Hpk as (Pf & Pe & Pc & Pz).
        assert (Hev1 : evolves st0 (History.store (History.history_data hm1 sc))).
        { eapply evolves_trans; [split; [exact Hlen|exact Hev0]|exact Pe]. }
        specialize (IH res1 hm1 w1 Hev1). cbv zeta in IH.
        destruct IH as (IHf & IHe & IHc & IHz).
        split; [intros sc'; eapply same_frame_trans; [apply Pf|apply IHf]|].
        split; [eapply evolves_trans; eauto|].
        split.
        { cbn [pending]. rewrite Horig, Hoflag. rewrite Hp in Pc. lia. }
        intros l inst Hl Hno. apply IHz; [|eapply Hrest; eauto].
        apply Pz; [exact Hl|].
        specialize (Hno l' orig (list_elem_of_here _ _) Horig Hoflag).
        unfold shares in Hno. rewrite Hm, Hp.
        now rewrite String.eqb_sym.
    + specialize (IH res hm w Hev). cbv zeta in IH.
      destruct IH as (IHf & IHe & IHc & IHz).
      split; [exact IHf|]. split; [exact IHe|]. split; [lia|].
      intros l inst Hl Hno. apply IHz; [exact Hl|]. eapply Hrest; eauto.
Qed.

End LedgerProps.

(** C10, as the code has it. A reconciliation run checks at most the
    packages of the installations that were not flagged removed when it
    began; it drops and adds no installation and unsets no flag; an
    installation flagged removed comes out of the run exactly as it went in,
    unless an unflagged installation of the same manager lists one of its
    packages (then the marking of that package reaches it too); and
    [mark_packages_removed] of a single package flags every installation of
    the manager that lists it, whatever else the installation lists. *)
Theorem reconcile_skips_flagged {World : Type} (be : History.Backend World)
    (sc : string) (hm : History.HistoryManager) (w : World) :
  let hd := History.history_data hm sc in
  let out := History.reconcile_package_status be sc hm w in
  let hd' := History.history_data (snd (fst out)) sc in
  History.checked (fst (fst out))
    <= pending (History.store hd) (History.installations hd)
  /\ same_frame hd hd'
  /\ evolves (History.store hd) (History.store hd')
  /\ (forall l inst,
        History.store hd !! l = Some inst ->
        History.is_removed inst = true ->
        (forall l' other, l' ∈ History.installations hd ->
           History.store hd !! l' = Some other ->
           History.is_removed other = false -> shares inst other = false) ->
        History.store hd' !! l = Some inst)
  /\ (forall package l inst w0,
        l ∈ History.installations hd ->
        History.store hd !! l = Some inst ->
        PyList.mem package (History.packages inst) = true ->
        exists inst',
          History.store
            (History.history_data
               (fst (History.mark_packages_removed be (History.manager inst)
                       [package] sc hm w0)) sc) !! l = Some inst'
          /\ History.is_removed inst' = true
          /\ History.packages inst' = History.packages inst).
Proof.
  cbv zeta. unfold History.reconcile_package_status.
  pose proof (reconcile_installations_inv be sc
                (History.store (History.history_data hm sc))
                (History.installations (History.history_data hm sc))
                {| History.checked := 0; History.count_marked_removed := 0;
                   History.errors := 0; History.details := [] |}
                hm w (evolves_refl _)) as H.
  cbv zeta in H. destruct H as (Hf & He & Hc & Hz).
  split; [exact Hc|]. split; [apply Hf|]. split; [exact He|].
  split.
  - intros l inst Hl _ Hno. now apply Hz.
  - intros package l inst w0 Hin Hl Hmem.
    rewrite mark_packages_removed_store.
    apply (mark_installations_flags be); auto.
    + apply String.eqb_refl.
    + cbn. now rewrite Hmem.
Qed.

Lemma reconcile_skips_flagged_witness :
  let '(hm, w) :=
    Sim.partly_removed "dnf" ["htop"] (Sim.machine ["apt"; "dnf"] [] [] []) in
  let out := History.reconcile_package_status Sim.backend "user" hm w in
  exists inst,
    History.store (History.user_history_data hm) !! 0%nat = Some inst
    /\ History.removed_packages inst = Some ["vim"]
    /\ History.store (History.user_history_data (snd (fst out))) !! 0%nat
       = Some inst
    /\ Sim.flags (History.user_history_data (snd (fst out)))
       = [(Some true, Some ["vim"]); (Some true, Some ["htop"])].
Proof.
  pose (s := Sim.partly_removed "dnf" ["htop"]
               (Sim.machine ["apt"; "dnf"] [] [] [])).
  change (let '(hm, w) := s in
          let out := History.reconcile_package_status Sim.backend "user" hm w in
          exists inst,
            History.store (History.user_history_data hm) !! 0%nat = Some inst
            /\ History.removed_packages inst = Some ["vim"]
            /\ History.store (History.user_history_data (snd (fst out))) !! 0%nat
               = Some inst
            /\ Sim.flags (History.user_history_data (snd (fst out)))
               = [(Some true, Some ["vim"]); (Some true, Some ["htop"])]).
  destruct s as [hm w] eqn:Hs. cbv zeta.
  pose proof (reconcile_skips_flagged Sim.backend "user" hm w) as H.
  cbv zeta in H. destruct H as (_ & _ & _ & Hz & _).
  assert (Hhm : hm = fst s) by (now rewrite Hs).
  assert (Hw : w = snd s) by (now rewrite Hs).
  eexists. split; [rewrite Hhm; vm_compute; reflexivity|].
  split; [reflexivity|]. split.
  - apply Hz.
    + rewrite Hhm. vm_compute. reflexivity.
    + reflexivity.
    + intros l' other Hin Hl' Hflag. rewrite Hhm in Hin, Hl'.
      vm_compute in Hin.
      apply elem_of_cons in Hin as [->|Hin].
      { vm_compute in Hl'. injection Hl' as <-. discriminate Hflag. }
      apply elem_of_cons in Hin as [->|Hin].
      { vm_compute in Hl'. injection Hl' as <-. reflexivity. }
      inversion Hin.
  - rewrite Hhm, Hw. vm_compute. reflexivity.
Defined.

(** C10 as stated fails where another record lists the remaining package:
    [vim] and [git] installed together by [apt], [git] installed again by
    [apt], [vim] marked removed. The first record is flagged and skipped,
    yet the run that finds [git] gone while checking the second record marks
    [git] removed in the first one as well. *)
Lemma reconcile_marks_flagged_record :
  let '(hm, w) :=
    Sim.partly_removed "apt" ["git"] (Sim.machine ["apt"] [] [] []) in
  let '(res, hm', _) := History.reconcile_package_status Sim.backend "user" hm w in
  map History.packages (History.records (History.user_history_data hm))
    = [["vim"; "git"]; ["git"]]
  /\ Sim.flags (History.user_history_data hm)
     = [(Some true, Some ["vim"]); (None, None)]
  /\ History.checked res = 1
  /\ Sim.flags (History.user_history_data hm')
     = [(Some true, Some ["vim"; "git"]); (Some true, Some ["git"])].
Proof. vm_compute. repeat split; reflexivity. Qed.

(** ** The number of installation records *)

Lemma counts_same_frame hd hd' n : same_frame hd hd' -> counts hd n -> counts hd' n.
Proof.
  intros (Hi & Hl & Hm & _) (Hn & Hall & Ht).
  unfold counts. rewrite Hi, Hl, Hm. auto.
Qed.

Lemma counts_records hd n : counts hd n -> length (History.records hd) = n.
Proof.
  intros (Hn & Hall & _). unfold History.records. rewrite <- Hn. clear Hn.
  induction Hall as [|l locs Hl _ IH]; [reflexivity|].
  cbn. destruct (lookup_lt_is_Some_2 _ _ Hl) as [i Hi].
  rewrite Hi. cbn. now rewrite IH.
Qed.

Lemma is_system_target sc :
  History.is_system (if History.is_system sc then "system" else "user")
  = History.is_system sc.
Proof. destruct (History.is_system sc) eqn:E; reflexivity. Qed.

Lemma history_data_same hm sc sc' :
  History.is_system sc' = History.is_system sc ->
  History.history_data hm sc' = History.history_data hm sc.
Proof. unfold History.history_data. now intros ->. Qed.

Section CountProps.
Context {World : Type} (be : History.Backend World).

Lemma record_install_counts mgr pkgs dt sc hm w sc' n :
  counts (History.history_data hm sc') n ->
  counts (History.history_data
            (fst (History.record_install be mgr pkgs dt sc hm w)) sc')
    (n + if Bool.eqb (History.is_system sc') (History.is_system sc) then 1 else 0).
Proof.
  intros (Hn & Hall & Ht). unfold History.record_install.
  destruct (History.now be w) as [t w1].
  destruct (History.now be w1) as [t' w2]. cbn [fst].
  rewrite history_data_set, is_system_target.
  destruct (Bool.eqb (History.is_system sc') (History.is_system sc)) eqn:E.
  - apply eqb_prop in E.
    cbv zeta.
    rewrite (history_data_same hm sc'
               (if History.is_system sc then "system" else "user"))
      by (rewrite is_system_target; now symmetry).
    unfold counts. cbn. rewrite !length_app. cbn.
    split; [lia|]. split; [|lia].
    apply Forall_app. split.
    + eapply Forall_impl; [exact Hall|]. cbn. intros; lia.
    + constructor; [lia|constructor].
  - rewrite Nat.add_0_r. repeat split; assumption.
Qed.

Lemma reconcile_package_status_frame sc hm w sc' :
  same_frame (History.history_data hm sc')
    (History.history_data
       (snd (fst (History.reconcile_package_status be sc hm w))) sc').
Proof.
  unfold History.reconcile_package_status.
  pose proof (reconcile_installations_inv be sc
                (History.store (History.history_data hm sc))
                (History.installations (History.history_data hm sc))
                {| History.checked := 0; History.count_marked_removed := 0;
                   History.errors := 0; History.details := [] |}
                hm w (evolves_refl _)) as H.
  cbv zeta in H. destruct H as (Hf & _). apply Hf.
Qed.

Lemma valid_scope_eqb sc sc' :
  valid_scope sc = true -> valid_scope sc' = true ->
  Bool.eqb (History.is_system sc) (History.is_system sc') = String.eqb sc' sc.
Proof.
  unfold valid_scope. intros H H'.
  apply orb_true_iff in H as [H|H]; apply String.eqb_eq in H; subst sc;
    apply orb_true_iff in H' as [H'|H']; apply String.eqb_eq in H'; subst sc';
    reflexivity.
Qed.

Lemma run_ops_counts sc : valid_scope sc = true -> forall ops hm w n,
  forallb (fun o => valid_scope (op_scope o)) ops = true ->
  counts (History.history_data hm sc) n ->
  counts (History.history_data (fst (run_ops be ops hm w)) sc)
    (n + installs_for sc ops).
Proof.
  intros Hsc. induction ops as [|o ops IH]; intros hm w n Hv Hc.
  - cbn. now rewrite Nat.add_0_r.
  - cbn [forallb] in Hv. apply andb_true_iff in Hv as [Ho Hv].
    cbn [run_ops]. destruct o as [mgr pkgs dt sc'|mgr pkgs sc'|sc'];
      cbn [run_op op_scope installs_for] in *.
    + pose proof (record_install_counts mgr pkgs dt sc' hm w sc n Hc) as H1.
      rewrite (valid_scope_eqb sc sc' Hsc Ho) in H1.
      destruct (History.record_install be mgr pkgs dt sc' hm w) as [hm' w'].
      cbn [fst] in H1. specialize (IH hm' w' _ Hv H1).
      replace (n + ((if String.eqb sc' sc then 1 else 0) + installs_for sc ops))
        with (n + (if String.eqb sc' sc then 1 else 0) + installs_for sc ops)
        by lia.
      exact IH.
    + pose proof (mark_packages_removed_frame be mgr pkgs sc' hm w sc) as Hf.
      destruct (History.mark_packages_removed be mgr pkgs sc' hm w) as [hm' w'].
      cbn [fst] in Hf. apply IH; [exact Hv|].
      eapply counts_same_frame; eauto.
    + pose proof (reconcile_package_status_frame sc' hm w sc) as Hf.
      destruct (History.reconcile_package_status be sc' hm w) as [[res hm'] w'].
      cbn [fst snd] in Hf. apply IH; [exact Hv|].
      eapply counts_same_frame; eauto.
Qed.

End CountProps.

(** C9: [mark_packages_removed] leaves the list of installations, the
    number of dictionaries and the metadata of both ledgers as they are; and
    after any sequence of [record_install], [mark_packages_removed] and
    [reconcile_package_status] calls on empty ledgers, the installation
    records of a scope, and its [total_installations], are as many as the
    [record_install] calls made for that scope. *)
Theorem record_count {World : Type} (be : History.Backend World)
    (ops : list Op) (t : string) (privileged : bool) (w : World) (sc : string) :
  forallb (fun o => valid_scope (op_scope o)) ops = true ->
  valid_scope sc = true ->
  let hd := History.history_data
              (fst (run_ops be ops (History.empty_manager t privileged) w)) sc in
  (forall mgr pkgs sc0 hm0 w0 sc',
     same_frame (History.history_data hm0 sc')
       (History.history_data
          (fst (History.mark_packages_removed be mgr pkgs sc0 hm0 w0)) sc'))
  /\ length (History.installations hd) = installs_for sc ops
  /\ length (History.records hd) = installs_for sc ops
  /\ History.total_installations (History.metadata hd)
     = Z.of_nat (installs_for sc ops).
Proof.
  intros Hv Hsc hd.
  split; [intros; apply mark_packages_removed_frame|].
  assert (Hc : counts hd (0 + installs_for sc ops)).
  { apply run_ops_counts; [exact Hsc|exact Hv|].
    unfold History.history_data, History.empty_manager.
    destruct (History.is_system sc); repeat split; constructor. }
  cbn [Nat.add] in Hc. split; [apply Hc|].
  split; [now apply counts_records|apply Hc].
Qed.

Lemma record_count_witness :
  let hm := fst (run_ops Sim.backend Sim.session (History.empty_manager "t" false)
                   (Sim.machine ["apt"; "dnf"] [("apt", "git")] [] [])) in
  length (History.records (History.history_data hm "user")) = 2
  /\ length (History.records (History.history_data hm "system")) = 1.
Proof.
  split.
  - apply (record_count Sim.backend Sim.session "t" false
             (Sim.machine ["apt"; "dnf"] [("apt", "git")] [] []) "user"
             eq_refl eq_refl).
  - apply (record_count Sim.backend Sim.session "t" false
             (Sim.machine ["apt"; "dnf"] [("apt", "git")] [] []) "system"
             eq_refl eq_refl).
Defined.

(** * Further properties of the code *)

(** ** The removal set of a rollback *)

Lemma mem_elem_of (x : string) (l : list string) :
  PyList.mem x l = true <-> x ∈ l.
Proof.
  unfold PyList.mem. induction l as [|y l IH]; cbn.
  - split; [discriminate|]. intros H. inversion H.
  - rewrite orb_true_iff, IH, elem_of_cons, String.eqb_eq. tauto.
Qed.

Lemma mem_not_elem_of (x : string) (l : list string) :
  PyList.mem x l = false <-> x ∉ l.
Proof.
  rewrite <- mem_elem_of. destruct (PyList.mem x l).
  - split; [discriminate|]. intros H. exfalso. now apply H.
  - split; [intros _ H; discriminate|reflexivity].
Qed.

Lemma unique_from_spec (l : list string) : forall seen,
  NoDup (PyList.unique_from seen l)
  /\ (forall x, x ∈ PyList.unique_from seen l <-> x ∈ l /\ x ∉ seen)
  /\ sublist (PyList.unique_from seen l) l.
Proof.
  induction l as [|y l IH]; intros seen; cbn [PyList.unique_from].
  - split; [constructor|]. split; [|constructor].
    intros x. split; [intros H; inversion H|intros [H _]; inversion H].
  - destruct (PyList.mem y seen) eqn:Hy.
    + apply mem_elem_of in Hy. destruct (IH seen) as (Hn & Hm & Hs).
      split; [exact Hn|]. split; [|now apply sublist_cons].
      intros x. rewrite Hm, elem_of_cons. split; [tauto|].
      intros [[->|H] Hx]; [contradiction|tauto].
    + apply mem_not_elem_of in Hy. destruct (IH (y :: seen)) as (Hn & Hm & Hs).
      split; [|split; [|now apply sublist_skip]].
      * constructor; [|exact Hn]. rewrite Hm, elem_of_cons. tauto.
      * intros x. rewrite !elem_of_cons, Hm, elem_of_cons.
        destruct (decide (x = y)) as [->|Hne]; tauto.
Qed.

Lemma unique_from_nodup (l : list string) : forall seen,
  NoDup l -> (forall x, x ∈ l -> x ∉ seen) -> PyList.unique_from seen l = l.
Proof.
  induction l as [|y l IH]; intros seen Hnd Hseen; [reflexivity|].
  cbn [PyList.unique_from]. apply NoDup_cons in Hnd as [Hy Hnd].
  assert (Hm : PyList.mem y seen = false).
  { apply mem_not_elem_of, Hseen. now left. }
  rewrite Hm. f_equal. apply IH; [exact Hnd|].
  intros x Hx. rewrite elem_of_cons. intros [->|H]; [contradiction|].
  revert H. apply Hseen. now right.
Qed.

Lemma unique_from_seen (l : list string) : forall seen seen',
  (forall x, x ∈ seen <-> x ∈ seen') ->
  PyList.unique_from seen l = PyList.unique_from seen' l.
Proof.
  induction l as [|y l IH]; intros seen seen' Hs; [reflexivity|].
  cbn [PyList.unique_from].
  assert (Hy : PyList.mem y seen = PyList.mem y seen').
  { destruct (PyList.mem y seen') eqn:E.
    - apply mem_elem_of, Hs, mem_elem_of, E.
    - apply mem_not_elem_of. rewrite Hs. now apply mem_not_elem_of. }
  rewrite Hy. destruct (PyList.mem y seen').
  - now apply IH.
  - f_equal. apply IH. intros x. rewrite !elem_of_cons, Hs. tauto.
Qed.

Lemma unique_from_app (l1 l2 : list string) : forall seen,
  PyList.unique_from seen (l1 ++ l2)
  = (PyList.unique_from seen l1 ++ PyList.unique_from (l1 ++ seen) l2)%list.
Proof.
  induction l1 as [|y l1 IH]; intros seen; [reflexivity|].
  cbn [app PyList.unique_from].
  destruct (PyList.mem y seen) eqn:Hy.
  - rewrite IH. f_equal. apply unique_from_seen.
    intros x. rewrite elem_of_cons, !elem_of_app.
    apply mem_elem_of in Hy. split; [tauto|].
    intros [->|H]; tauto.
  - rewrite IH. cbn [app]. f_equal. f_equal. apply unique_from_seen.
    intros x. rewrite !elem_of_cons, !elem_of_app, elem_of_cons. tauto.
Qed.

(** X1: the packages handed to the back end by a rollback are the
    installation's packages and dependencies without repetition: every name
    of the input is kept, none is kept twice, and the names stay in the order
    of their first occurrence, that is, a name comes right after the names
    kept from the part of the input before its first occurrence. A list
    without repetition is handed over as it is. *)
Theorem unique_packages_spec (l : list string) :
  NoDup (PyList.unique l)
  /\ (forall x, x ∈ PyList.unique l <-> x ∈ l)
  /\ sublist (PyList.unique l) l
  /\ (NoDup l -> PyList.unique l = l)
  /\ (forall before x after,
        l = (before ++ x :: after)%list -> x ∉ before ->
        exists kept_after,
          PyList.unique l
          = (PyList.unique before ++ x :: kept_after)%list)
  /\ (forall before after,
        l = (before ++ after)%list ->
        PyList.unique before `prefix_of` PyList.unique l).
Proof.
  destruct (unique_from_spec l []) as (Hn & Hm & Hs).
  split; [exact Hn|]. split.
  { intros x. unfold PyList.unique. rewrite Hm. split; [tauto|].
    intros H. split; [exact H|]. intros H'. inversion H'. }
  split; [exact Hs|]. split.
  { intros Hnd. apply unique_from_nodup; [exact Hnd|].
    intros x _ H'. inversion H'. }
  split.
  - intros before x after -> Hx. unfold PyList.unique.
    rewrite unique_from_app. cbn [PyList.unique_from].
    assert (Hmem : PyList.mem x (before ++ []) = false).
    { apply mem_not_elem_of. now rewrite app_nil_r. }
    rewrite Hmem. eauto.
  - intros before after ->. unfold PyList.unique. rewrite unique_from_app.
    now apply prefix_app_r.
Qed.

Lemma unique_packages_spec_witness :
  PyList.unique ["vim"; "vim-common"] = ["vim"; "vim-common"].
Proof.
  apply (proj1 (proj2 (proj2 (proj2 (unique_packages_spec ["vim"; "vim-common"]))))).
  apply NoDup_cons. split; [|apply NoDup_singleton].
  apply mem_not_elem_of. reflexivity.
Defined.

(** ** Rollback *)

Lemma get_installation_Some id sc hm l :
  History.get_installation id sc hm = Some l ->
  (0 <= id < Z.of_nat (length (History.installations (History.history_data hm sc))))%Z
  /\ History.installations (History.history_data hm sc) !! Z.to_nat id = Some l
  /\ History.py_index (History.installations (History.history_data hm sc)) id = Some l.
Proof.
  unfold History.get_installation, History.py_index.
  destruct (History.is_system sc && negb (History.can_access_system_history hm));
    [discriminate|].
  destruct (0 <=? id)%Z eqn:H0; cbn [andb]; [|discriminate].
  destruct (id <? _)%Z eqn:H1; [|discriminate].
  intros H. apply Z.leb_le in H0. apply Z.ltb_lt in H1. auto.
Qed.

(** X2: [get_installation] answers [None], and [perform_rollback] then
    reports that the installation was not found without calling the back
    end or touching the ledgers, for every index below zero, every index
    from the length of the list on, and every index of the system scope
    when the privilege check fails. *)
Theorem perform_rollback_not_found {World : Type} (be : History.Backend World)
    (id : Z) (sc : string) (prg : bool) (hm : History.HistoryManager) (w : World) :
  (id < 0)%Z
  \/ (Z.of_nat (length (History.installations (History.history_data hm sc))) <= id)%Z
  \/ (sc = "system" /\ History.can_access_system_history hm = false) ->
  History.get_installation id sc hm = None
  /\ History.perform_rollback be id sc prg hm w
     = (History.failure ("Installation " +:+ pretty id +:+ " not found") None,
        hm, w).
Proof.
  intros H.
  assert (Hg : History.get_installation id sc hm = None).
  { unfold History.get_installation.
    destruct H as [H|[H|[-> H]]].
    - destruct (_ && _); [reflexivity|].
      apply Z.leb_gt in H. now rewrite H.
    - destruct (_ && _); [reflexivity|].
      apply Z.ltb_ge in H. rewrite H. now rewrite andb_false_r.
    - rewrite H. reflexivity. }
  split; [exact Hg|]. unfold History.perform_rollback. now rewrite Hg.
Qed.

Lemma perform_rollback_not_found_witness :
  History.perform_rollback Sim.backend (-1) "user" false
    (fst (Sim.vim_installed (Sim.machine ["apt"] [("apt", "vim")] [] [])))
    (Sim.machine ["apt"] [("apt", "vim")] [] [])
  = (History.failure "Installation -1 not found" None,
     fst (Sim.vim_installed (Sim.machine ["apt"] [("apt", "vim")] [] [])),
     Sim.machine ["apt"] [("apt", "vim")] [] []).
Proof.
  apply (proj2 (perform_rollback_not_found Sim.backend (-1) "user" false
                  (fst (Sim.vim_installed
                          (Sim.machine ["apt"] [("apt", "vim")] [] [])))
                  (Sim.machine ["apt"] [("apt", "vim")] [] [])
                  (or_introl eq_refl))).
Defined.

(** X3: [record_rollback] indexes the list the Python way. An index
    outside [-len, len) raises [IndexError] and leaves the history manager
    as it is; an index in [-len, 0) records a rollback of the installation
    that far from the end, an index [get_installation] refuses. *)
Theorem record_rollback_index {World : Type} (be : History.Backend World)
    (id : Z) (rsn sc : string) (hm : History.HistoryManager) (w : World) :
  let locs := History.installations (History.history_data hm sc) in
  let len := Z.of_nat (length locs) in
  let out := History.record_rollback be id rsn sc hm w in
  ((id < - len \/ len <= id)%Z ->
   fst (fst out) = Raise "list index out of range" /\ snd (fst out) = hm)
  /\ ((- len <= id < 0)%Z ->
      History.get_installation id sc hm = None
      /\ fst (fst out) = Ok tt
      /\ exists l,
           locs !! Z.to_nat (len + id) = Some l
           /\ map History.original_installation
                (History.rollbacks (History.history_data (snd (fst out)) sc))
              = (map History.original_installation
                   (History.rollbacks (History.history_data hm sc)) ++ [l])%list).
Proof.
  cbv zeta. unfold History.record_rollback.
  destruct (History.now be w) as [t w1]. split.
  - intros H.
    assert (Hi : History.py_index
                   (History.installations (History.history_data hm sc)) id = None).
    { unfold History.py_index. destruct (0 <=? id)%Z eqn:H0.
      - apply Z.leb_le in H0. apply lookup_ge_None. lia.
      - apply Z.leb_gt in H0.
        assert (Hlt : (- Z.of_nat (length (History.installations
                                             (History.history_data hm sc)))
                       <=? id)%Z = false) by (apply Z.leb_gt; lia).
        now rewrite Hlt. }
    rewrite Hi. auto.
  - intros H. split.
    { unfold History.get_installation. destruct (_ && _); [reflexivity|].
      assert (H0 : (0 <=? id)%Z = false) by (apply Z.leb_gt; lia).
      now rewrite H0. }
    destruct (lookup_lt_is_Some_2
                (History.installations (History.history_data hm sc))
                (Z.to_nat (Z.of_nat (length (History.installations
                                               (History.history_data hm sc))) + id)))
      as [l Hl]; [lia|].
    assert (Hi : History.py_index
                   (History.installations (History.history_data hm sc)) id = Some l).
    { unfold History.py_index.
      assert (H0 : (0 <=? id)%Z = false) by (apply Z.leb_gt; lia).
      assert (H1 : (- Z.of_nat (length (History.installations
                                          (History.history_data hm sc)))
                    <=? id)%Z = true) by (apply Z.leb_le; lia).
      now rewrite H0, H1. }
    rewrite Hi. destruct (History.now be w1) as [t' w2]. cbn [fst snd].
    split; [reflexivity|]. exists l. split; [exact Hl|].
    rewrite history_data_set, eqb_reflx. cbn. now rewrite map_app.
Qed.

Lemma record_rollback_index_witness :
  let s := Sim.vim_installed (Sim.machine ["apt"] [("apt", "vim")] [] []) in
  fst (fst (History.record_rollback Sim.backend 1 "why" "user" (fst s) (snd s)))
    = Raise "list index out of range"
  /\ fst (fst (History.record_rollback Sim.backend (-1) "why" "user" (fst s) (snd s)))
     = Ok tt.
Proof.
  split.
  - apply (proj1 (record_rollback_index Sim.backend 1 "why" "user" _ _)).
    vm_compute. right. discriminate.
  - apply (proj2 (record_rollback_index Sim.backend (-1) "why" "user" _ _)).
    vm_compute. split; [discriminate|reflexivity].
Defined.

(** X4: when [perform_rollback] reaches the back end and the removal
    succeeds, the result names the packages removed; the ledger keeps its
    list of installations, gains exactly one rollback record (for this
    index, this installation and this scope) with [total_rollbacks] one
    higher; and the installation, if it lists any package, is flagged
    removed. *)
Theorem perform_rollback_success {World : Type} (be : History.Backend World)
    (id : Z) (sc : string) (prg : bool) (hm : History.HistoryManager)
    (w : World) (l : History.loc) (inst : History.Installation)
    (res : History.PackageResult) :
  History.get_installation id sc hm = Some l ->
  History.store (History.history_data hm sc) !! l = Some inst ->
  History.get_manager be w (History.manager inst) = true ->
  let pkgs := PyList.unique (History.packages inst ++ History.dependencies inst)%list in
  let call := if prg then History.purge be (History.manager inst) pkgs w
              else History.remove be (History.manager inst) pkgs w in
  fst call = Ok res -> History.success res = true ->
  let out := History.perform_rollback be id sc prg hm w in
  let hd := History.history_data hm sc in
  let hd' := History.history_data (snd (fst out)) sc in
  History.rollback_success (fst (fst out)) = true
  /\ History.packages_removed (fst (fst out)) = Some pkgs
  /\ History.installations hd' = History.installations hd
  /\ History.total_rollbacks (History.metadata hd')
     = (History.total_rollbacks (History.metadata hd) + 1)%Z
  /\ map (fun r => (History.installation_id r, History.original_installation r,
                    History.rollback_scope r)) (History.rollbacks hd')
     = (map (fun r => (History.installation_id r, History.original_installation r,
                       History.rollback_scope r)) (History.rollbacks hd)
        ++ [(id, l, sc)])%list
  /\ (History.packages inst <> [] ->
      exists inst', History.store hd' !! l = Some inst'
                    /\ History.is_removed inst' = true).
Proof.
  intros Hget Hst Hmgr pkgs call Hcall Hok out hd hd'.
  destruct (get_installation_Some id sc hm l Hget) as (Hrange & Hl & Hidx).
  subst out hd'. unfold History.perform_rollback.
  rewrite Hget, Hst, Hmgr. cbn [negb]. fold pkgs. fold call.
  destruct call as [r w1]. cbn [fst] in Hcall. subst r. rewrite Hok.
  unfold History.record_rollback. destruct (History.now be w1) as [t w2].
  rewrite Hidx. destruct (History.now be w2) as [t' w3].
  match goal with
  | |- context [History.mark_packages_removed be ?m ?p ?s ?h ?x] =>
      pose proof (mark_packages_removed_fst be m p s h x) as Hfst;
      destruct (History.mark_packages_removed be m p s h x) as [hm3 w4]
  end.
  cbn [fst] in Hfst. subst hm3. cbn [fst snd].
  rewrite !history_data_set, !eqb_reflx. fold hd. cbn.
  split; [reflexivity|]. split; [reflexivity|]. split; [reflexivity|].
  split; [reflexivity|]. split; [now rewrite map_app|].
  intros Hne.
  destruct (mark_installations_flags be (History.manager inst) pkgs l inst
              (History.installations hd) (History.store hd)
              (History._save_history be sc
                 (History.set_history_data hm sc
                    {| History.store := History.store hd;
                       History.installations := History.installations hd;
                       History.rollbacks :=
                         (History.rollbacks hd ++
                          [{| History.rollback_timestamp := t;
                              History.installation_id := id;
                              History.reason :=
                                "Manual rollback - " +:+ History.verb prg
                                +:+ " packages";
                              History.original_installation := l;
                              History.rollback_scope := sc |}])%list;
                       History.metadata :=
                         {| History.created := History.created (History.metadata hd);
                            History.last_updated := t';
                            History.total_installations :=
                              History.total_installations (History.metadata hd);
                            History.total_rollbacks :=
                              (History.total_rollbacks (History.metadata hd) + 1)%Z;
                            History.metadata_scope :=
                              History.metadata_scope (History.metadata hd) |} |})
                 w3))
    as (inst' & Hi' & Hr' & _).
  - eapply list_elem_of_lookup_2. exact Hl.
  - exact Hst.
  - apply String.eqb_refl.
  - destruct (History.packages inst) as [|p ps] eqn:Hp; [contradiction|].
    apply existsb_exists. exists p. split.
    + apply list_elem_of_In. subst pkgs.
      apply (proj1 (proj2 (unique_from_spec _ []))).
      split; [cbn; now left|]. intros H'. inversion H'.
    + cbn. now rewrite String.eqb_refl.
  - exists inst'. split; [exact Hi'|exact Hr'].
Qed.

Lemma perform_rollback_success_witness :
  let s := Sim.vim_installed (Sim.machine ["apt"] [("apt", "vim")] [] []) in
  let out := History.perform_rollback Sim.backend 0 "user" false (fst s) (snd s) in
  History.rollback_success (fst (fst out)) = true
  /\ History.packages_removed (fst (fst out)) = Some ["vim"; "vim-common"]
  /\ exists inst',
       History.store (History.user_history_data (snd (fst out))) !! 0%nat
       = Some inst'
       /\ History.is_removed inst' = true.
Proof.
  pose proof (perform_rollback_success Sim.backend 0 "user" false
                (fst (Sim.vim_installed (Sim.machine ["apt"] [("apt", "vim")] [] [])))
                (snd (Sim.vim_installed (Sim.machine ["apt"] [("apt", "vim")] [] [])))
                0%nat Sim.vim_record
                {| History.success := true; History.error := None;
                   History.result_packages := None |}
                eq_refl eq_refl eq_refl eq_refl eq_refl) as H.
  cbv zeta in H. destruct H as (H1 & H2 & _ & _ & _ & H6).
  cbv zeta. split; [exact H1|]. split; [exact H2|].
  apply H6. discriminate.
Defined.

(** ** What marking writes *)

Section MarkProps.
Context {World : Type} (be : History.Backend World).

Lemma mark_packages_spec l pkgs : forall inst st w,
  st !! l = Some inst ->
  exists inst',
    fst (History.mark_packages be l pkgs st w) !! l = Some inst'
    /\ original_fields inst' = original_fields inst
    /\ History.removed inst'
       = (if matched_packages inst pkgs is [] then History.removed inst
          else Some true)
    /\ History.removed_packages inst'
       = (if matched_packages inst pkgs is [] then History.removed_packages inst
          else Some (default [] (History.removed_packages inst)
                     ++ matched_packages inst pkgs)%list).
Proof.
  induction pkgs as [|p rest IH]; intros inst st w Hl.
  - exists inst. cbn. auto.
  - cbn [History.mark_packages]. rewrite Hl.
    unfold matched_packages in *. cbn [List.filter].
    destruct (PyList.mem p (History.packages inst)) eqn:Hp.
    + destruct (History.now be w) as [t w'].
      destruct (IH (History.mark inst t p)
                  (<[l := History.mark inst t p]> st) w') as (i' & Hi' & Ho & Hr & Hrp).
      { apply list_lookup_insert_eq. eapply lookup_lt_Some; eauto. }
      exists i'. split; [exact Hi'|]. split; [rewrite Ho; reflexivity|].
      cbn [History.mark History.packages History.removed
           History.removed_packages] in Hr, Hrp.
      split.
      * rewrite Hr. now destruct (List.filter _ rest).
      * rewrite Hrp. destruct (History.removed_packages inst) as [old|];
          destruct (List.filter _ rest); cbn;
          rewrite <- ?app_assoc; reflexivity.
    + apply IH. exact Hl.
Qed.

Lemma mark_installations_untouched mgr pkgs l inst locs : forall st w,
  l ∉ locs -> st !! l = Some inst ->
  fst (History.mark_installations be locs mgr pkgs st w) !! l = Some inst.
Proof.
  induction locs as [|l' rest IH]; intros st w Hnin Hl;
    cbn [History.mark_installations]; [exact Hl|].
  apply not_elem_of_cons in Hnin as [Hne Hnin].
  destruct (st !! l') as [inst'|] eqn:Hl'; [|now apply IH].
  destruct (String.eqb (History.manager inst') mgr); [|now apply IH].
  pose proof (mark_packages_other be l' pkgs l (not_eq_sym Hne) st w) as Ho.
  destruct (History.mark_packages be l' pkgs st w) as [st' w'].
  cbn [fst] in Ho. apply IH; [exact Hnin|]. now rewrite Ho.
Qed.

Lemma mark_installations_spec mgr pkgs l inst locs : forall st w,
  NoDup locs -> l ∈ locs -> st !! l = Some inst ->
  History.manager inst = mgr ->
  exists inst',
    fst (History.mark_installations be locs mgr pkgs st w) !! l = Some inst'
    /\ original_fields inst' = original_fields inst
    /\ History.removed inst'
       = (if matched_packages inst pkgs is [] then History.removed inst
          else Some true)
    /\ History.removed_packages inst'
       = (if matched_packages inst pkgs is [] then History.removed_packages inst
          else Some (default [] (History.removed_packages inst)
                     ++ matched_packages inst pkgs)%list).
Proof.
  induction locs as [|l' rest IH]; intros st w Hnd Hin Hl Hm.
  - inversion Hin.
  - apply NoDup_cons in Hnd as [Hnin Hnd]. cbn [History.mark_installations].
    destruct (decide (l' = l)) as [->|Hne].
    + rewrite Hl, Hm, String.eqb_refl.
      destruct (mark_packages_spec l pkgs inst st w Hl) as (i' & Hi' & Hrest).
      destruct (History.mark_packages be l pkgs st w) as [st' w'].
      cbn [fst] in Hi'. exists i'. split; [|exact Hrest].
      now apply mark_installations_untouched.
    + apply elem_of_cons in Hin as [->|Hin]; [contradiction|].
      destruct (st !! l') as [inst'|] eqn:Hl'; [|now apply IH].
      destruct (String.eqb (History.manager inst') mgr); [|now apply IH].
      pose proof (mark_packages_other be l' pkgs l Hne st w) as Ho.
      destruct (History.mark_packages be l' pkgs st w) as [st' w'].
      cbn [fst] in Ho. apply IH; auto. now rewrite Ho.
Qed.

End MarkProps.

Lemma matched_packages_nil (inst : History.Installation) (pkgs : list string) :
  matched_packages inst pkgs = [] <->
  existsb (fun p => PyList.mem p (History.packages inst)) pkgs = false.
Proof.
  unfold matched_packages. induction pkgs as [|p rest IH]; cbn; [tauto|].
  destruct (PyList.mem p (History.packages inst)); cbn; [|exact IH].
  split; discriminate.
Qed.

Section StampProps.
Context {World : Type} (be : History.Backend World).

Lemma ticked_add (a b : nat) (w : World) :
  ticked be (a + b) w = ticked be b (ticked be a w).
Proof. revert w. induction a as [|a IH]; intros w; [reflexivity|]. cbn. apply IH. Qed.

Lemma mark_packages_stamp l pkgs : forall inst st w,
  st !! l = Some inst ->
  snd (History.mark_packages be l pkgs st w)
  = ticked be (length (matched_packages inst pkgs)) w
  /\ exists inst',
       fst (History.mark_packages be l pkgs st w) !! l = Some inst'
       /\ (matched_packages inst pkgs = [] -> inst' = inst)
       /\ (matched_packages inst pkgs <> [] ->
           History.removed_timestamp inst'
           = Some (fst (History.now be
                          (ticked be (length (matched_packages inst pkgs) - 1) w)))).
Proof.
  induction pkgs as [|p rest IH]; intros inst st w Hl.
  - cbn. split; [reflexivity|]. exists inst. repeat split; [exact Hl|].
    intros H. now contradiction H.
  - cbn [History.mark_packages]. rewrite Hl.
    unfold matched_packages in *. cbn [List.filter].
    destruct (PyList.mem p (History.packages inst)) eqn:Hp.
    + destruct (History.now be w) as [t w'] eqn:Hnow.
      destruct (IH (History.mark inst t p)
                  (<[l := History.mark inst t p]> st) w') as (Hw & i' & Hi' & Hnil & Hts).
      { apply list_lookup_insert_eq. eapply lookup_lt_Some; eauto. }
      cbn [History.mark History.packages] in Hw, Hnil, Hts.
      assert (Hw' : w' = snd (History.now be w)) by now rewrite Hnow.
      split; [rewrite Hw; cbn [length ticked]; now rewrite Hw'|].
      exists i'. split; [exact Hi'|]. split; [discriminate|].
      intros _. cbn [length].
      destruct (List.filter _ rest) as [|q mr] eqn:Hmr.
      * rewrite (Hnil eq_refl). cbn. now rewrite Hnow.
      * rewrite Hts by discriminate. cbn [length].
        replace (S (S (length mr)) - 1) with (S (length mr)) by lia.
        replace (S (length mr) - 1) with (length mr) by lia.
        cbn [ticked]. now rewrite Hw'.
    + apply IH. exact Hl.
Qed.

Lemma markings_evolves mgr pkgs locs st st' :
  evolves st st' -> markings st' mgr pkgs locs = markings st mgr pkgs locs.
Proof.
  intros [Hlen Hev]. unfold markings.
  induction locs as [|l rest IH]; [reflexivity|]. cbn [foldr]. rewrite IH.
  destruct (st !! l) as [i|] eqn:Hl.
  - destruct (Hev l i Hl) as (i' & Hi' & Hm & Hp & _). rewrite Hi', Hm.
    unfold matched_packages. now rewrite Hp.
  - assert (Hl' : st' !! l = None).
    { apply lookup_ge_None. apply lookup_ge_None in Hl. lia. }
    now rewrite Hl'.
Qed.

Lemma mark_installations_world mgr pkgs locs : forall st w,
  snd (History.mark_installations be locs mgr pkgs st w)
  = ticked be (markings st mgr pkgs locs) w.
Proof.
  induction locs as [|l rest IH]; intros st w; [reflexivity|].
  cbn [History.mark_installations markings foldr].
  fold (markings st mgr pkgs rest).
  destruct (st !! l) as [inst|] eqn:Hl; [|apply IH].
  destruct (String.eqb (History.manager inst) mgr); [|apply IH].
  pose proof (mark_packages_evolves be l pkgs st w) as Hev.
  destruct (mark_packages_stamp l pkgs inst st w Hl) as [Hw _].
  destruct (History.mark_packages be l pkgs st w) as [st' w'].
  cbn [fst snd] in *. rewrite IH, (markings_evolves _ _ _ _ _ Hev), Hw.
  now rewrite ticked_add.
Qed.

Lemma mark_installations_app mgr pkgs a b : forall st w,
  History.mark_installations be (a ++ b) mgr pkgs st w
  = History.mark_installations be b mgr pkgs
      (fst (History.mark_installations be a mgr pkgs st w))
      (snd (History.mark_installations be a mgr pkgs st w)).
Proof.
  induction a as [|l a IH]; intros st w; [reflexivity|].
  cbn [app History.mark_installations].
  destruct (match st !! l with
            | Some inst =>
                if String.eqb (History.manager inst) mgr
                then History.mark_packages be l pkgs st w else (st, w)
            | None => (st, w)
            end) as [st' w'].
  apply IH.
Qed.

End StampProps.

Lemma mark_installations_stamp {World : Type} (be : History.Backend World)
    (mgr : string) (pkgs : list string) (l : nat)
    (inst : History.Installation) (before after : list nat)
    (st : list History.Installation) (w : World) :
  NoDup (before ++ l :: after) -> st !! l = Some inst ->
  History.manager inst = mgr -> matched_packages inst pkgs <> [] ->
  exists inst',
    fst (History.mark_installations be (before ++ l :: after) mgr pkgs st w) !! l
    = Some inst'
    /\ History.removed_timestamp inst'
       = Some (fst (History.now be
                      (ticked be (markings st mgr pkgs before
                                  + length (matched_packages inst pkgs) - 1) w))).
Proof.
  intros Hnd Hl Hm Hne.
  apply NoDup_app in Hnd as (_ & Hbefore & Hnd).
  apply NoDup_cons in Hnd as [Hafter _].
  assert (Hl1 : fst (History.mark_installations be before mgr pkgs st w) !! l
                = Some inst).
  { apply mark_installations_untouched; [|exact Hl].
    intros Hin. apply (Hbefore l Hin). apply list_elem_of_here. }
  rewrite mark_installations_app, mark_installations_world.
  destruct (History.mark_installations be before mgr pkgs st w) as [st1 w1].
  cbn [fst snd] in *. cbn [History.mark_installations].
  rewrite Hl1, Hm, String.eqb_refl.
  destruct (mark_packages_stamp be l pkgs inst st1
              (ticked be (markings st mgr pkgs before) w) Hl1)
    as (_ & inst' & Hi' & _ & Hts).
  destruct (History.mark_packages be l pkgs st1
              (ticked be (markings st mgr pkgs before) w)) as [st2 w2].
  cbn [fst] in Hi'. exists inst'. split.
  - now apply mark_installations_untouched.
  - assert (Hlen : length (matched_packages inst pkgs) <> 0)
      by (destruct (matched_packages inst pkgs); [congruence|discriminate]).
    replace (markings st mgr pkgs before
             + length (matched_packages inst pkgs) - 1)
      with (markings st mgr pkgs before
            + (length (matched_packages inst pkgs) - 1)) by lia.
    now rewrite (Hts Hne), ticked_add.
Qed.

(** X5: what [mark_packages_removed] writes. An installation of another
    manager, or one that lists none of the packages given, is left as it
    is, every field of it. In a ledger whose list names no dictionary twice,
    an installation of the manager keeps the fields it was recorded with;
    when it lists some of the packages given it is flagged removed, the
    packages it lists are appended to its [removed_packages] in the order
    given, on top of what was there (a package marked twice is listed
    twice), and its [removed_timestamp] is the reading of the clock taken
    for the last of them: the clock is read once for every marking, first
    for the installations before this one in the ledger. *)
Theorem mark_packages_removed_spec {World : Type} (be : History.Backend World)
    (mgr : string) (pkgs : list string) (sc : string)
    (hm : History.HistoryManager) (w : World)
    (l : History.loc) (inst : History.Installation) :
  let hd := History.history_data hm sc in
  let hd' := History.history_data
               (fst (History.mark_packages_removed be mgr pkgs sc hm w)) sc in
  History.store hd !! l = Some inst ->
  (History.manager inst <> mgr -> History.store hd' !! l = Some inst)
  /\ (matched_packages inst pkgs = [] -> History.store hd' !! l = Some inst)
  /\ (NoDup (History.installations hd) -> l ∈ History.installations hd ->
      History.manager inst = mgr ->
      exists inst',
        History.store hd' !! l = Some inst'
        /\ original_fields inst' = original_fields inst
        /\ History.removed inst'
           = (if matched_packages inst pkgs is [] then History.removed inst
              else Some true)
        /\ History.removed_packages inst'
           = (if matched_packages inst pkgs is []
              then History.removed_packages inst
              else Some (default [] (History.removed_packages inst)
                         ++ matched_packages inst pkgs)%list)
        /\ (matched_packages inst pkgs <> [] ->
            forall before after,
              History.installations hd = (before ++ l :: after)%list ->
              History.removed_timestamp inst'
              = Some (fst (History.now be
                             (ticked be
                                (markings (History.store hd) mgr pkgs before
                                 + length (matched_packages inst pkgs) - 1)
                                w))))).
Proof.
  cbv zeta. intros Hl. rewrite mark_packages_removed_store. split; [|split].
  - intros Hne. apply (mark_installations_frozen be); [exact Hl|].
    apply String.eqb_neq in Hne. now rewrite Hne.
  - intros Hnil. apply (mark_installations_frozen be); [exact Hl|].
    apply matched_packages_nil in Hnil. rewrite Hnil. apply andb_false_r.
  - intros Hnd Hin Hm.
    destruct (mark_installations_spec be mgr pkgs l inst
                (History.installations (History.history_data hm sc))
                (History.store (History.history_data hm sc)) w Hnd Hin Hl Hm)
      as (inst' & Hi' & Ho & Hr & Hrp).
    exists inst'. repeat (split; [assumption|]).
    intros Hne before after Hsplit. rewrite Hsplit in Hnd, Hi'.
    destruct (mark_installations_stamp be mgr pkgs l inst before after
                (History.store (History.history_data hm sc)) w Hnd Hl Hm Hne)
      as (inst'' & Hi'' & Hts).
    congruence.
Qed.

Lemma mark_packages_removed_spec_witness :
  let s := Sim.partly_removed "dnf" ["htop"] (Sim.machine ["apt"; "dnf"] [] [] []) in
  let hm' := fst (History.mark_packages_removed Sim.backend "apt"
                    ["git"; "vim"; "curl"] "user" (fst s) (snd s)) in
  exists inst',
    History.store (History.user_history_data hm') !! 0%nat = Some inst'
    /\ History.removed_packages inst' = Some ["vim"; "git"; "vim"].
Proof.
  cbv zeta.
  destruct (proj2 (proj2 (mark_packages_removed_spec Sim.backend "apt"
                     ["git"; "vim"; "curl"] "user"
                     (fst (Sim.partly_removed "dnf" ["htop"]
                             (Sim.machine ["apt"; "dnf"] [] [] [])))
                     (snd (Sim.partly_removed "dnf" ["htop"]
                             (Sim.machine ["apt"; "dnf"] [] [] [])))
                     0%nat _ eq_refl)))
    as (inst' & Hi' & _ & _ & Hrp & _).
  - vm_compute. apply NoDup_cons. split; [|apply NoDup_singleton].
    intros H. apply elem_of_cons in H as [H|H]; [discriminate|inversion H].
  - vm_compute. left.
  - reflexivity.
  - exists inst'. split; [exact Hi'|exact Hrp].
Defined.

(** ** Recording and saving *)

Lemma can_access_set hm sc hd :
  History.can_access_system_history (History.set_history_data hm sc hd)
  = History.can_access_system_history hm.
Proof. unfold History.set_history_data. now destruct (History.is_system sc). Qed.

(** X6: an installation just recorded is the last one of its ledger. When
    the scope is readable, [get_installation] at the former length of the
    list returns it: the manager, packages and scope given, no removed flag,
    and ['unknown'] and the empty list where the details name no version and
    no dependencies. A scope other than ['system'] is the user ledger, and
    the system ledger is then left as it is. *)
Theorem record_install_lookup {World : Type} (be : History.Backend World)
    (mgr : string) (pkgs : list string) (dt : History.Details) (sc : string)
    (hm : History.HistoryManager) (w : World) :
  let n := length (History.installations (History.history_data hm sc)) in
  let hm' := fst (History.record_install be mgr pkgs dt sc hm w) in
  (History.is_system sc && negb (History.can_access_system_history hm) = false ->
   exists l inst,
     History.get_installation (Z.of_nat n) sc hm' = Some l
     /\ History.store (History.history_data hm' sc) !! l = Some inst
     /\ History.manager inst = mgr
     /\ History.packages inst = pkgs
     /\ History.scope inst = sc
     /\ History.removed inst = None
     /\ History.version inst = default "unknown" (History.details_version dt)
     /\ History.dependencies inst = default [] (History.details_dependencies dt))
  /\ (sc <> "system" ->
      History.system_history_data hm' = History.system_history_data hm
      /\ History.installations (History.user_history_data hm')
         = (History.installations (History.user_history_data hm)
            ++ [length (History.store (History.user_history_data hm))])%list).
Proof.
  cbv zeta. unfold History.record_install.
  destruct (History.now be w) as [t w1].
  destruct (History.now be w1) as [t' w2]. cbn [fst]. split.
  - intros Hacc.
    exists (length (History.store (History.history_data hm sc))).
    eexists. unfold History.get_installation.
    rewrite history_data_set, is_system_target, eqb_reflx.
    rewrite (history_data_same hm sc
               (if History.is_system sc then "system" else "user"))
      by apply is_system_target.
    rewrite can_access_set, Hacc. cbn [History.installations History.store].
    rewrite length_app. cbn [length].
    assert (H0 : (0 <=? Z.of_nat (length (History.installations
                                            (History.history_data hm sc))))%Z = true)
      by (apply Z.leb_le; lia).
    assert (H1 : (Z.of_nat (length (History.installations
                                      (History.history_data hm sc)))
                  <? Z.of_nat (length (History.installations
                                         (History.history_data hm sc)) + 1))%Z = true)
      by (apply Z.ltb_lt; lia).
    rewrite H0, H1. cbn [andb]. rewrite Nat2Z.id.
    split; [apply list_lookup_middle; reflexivity|].
    split; [apply list_lookup_middle; reflexivity|].
    cbn. repeat split;
      try (now destruct (History.details_version dt));
      now destruct (History.details_dependencies dt).
  - intros Hne.
    assert (Hs : History.is_system sc = false)
      by (now apply String.eqb_neq).
    rewrite Hs. unfold History.set_history_data, History.history_data. cbn. auto.
Qed.

Lemma record_install_lookup_witness :
  let hm' := fst (History.record_install Sim.backend "apt" ["htop"]
                    Sim.no_details "all" Sim.fresh
                    (Sim.machine ["apt"] [] [] [])) in
  (exists l inst,
     History.get_installation 0 "all" hm' = Some l
     /\ History.store (History.history_data hm' "all") !! l = Some inst
     /\ History.scope inst = "all" /\ History.version inst = "unknown")
  /\ History.system_history_data hm' = History.system_history_data Sim.fresh.
Proof.
  pose proof (record_install_lookup Sim.backend "apt" ["htop"] Sim.no_details
                "all" Sim.fresh (Sim.machine ["apt"] [] [] [])) as H.
  cbv zeta in H. destruct H as [H1 H2]. cbv zeta. split.
  - destruct (H1 eq_refl) as (l & inst & Hg & Hl & _ & _ & Hs & _ & Hv & _).
    exists l, inst. auto.
  - apply H2. discriminate.
Defined.

(** X7: [_save_history] picks the file by [scope == 'system'] and the data
    by [scope == 'user']. So for a scope string that is neither,
    [mark_packages_removed] marks the user ledger and then writes the system
    ledger, untouched, over the user history file. *)
Theorem save_history_unknown_scope {World : Type} (be : History.Backend World)
    (mgr : string) (pkgs : list string) (sc : string)
    (hm : History.HistoryManager) (w : World) :
  sc <> "user" -> sc <> "system" ->
  let out := History.mark_packages_removed be mgr pkgs sc hm w in
  let marked := History.mark_installations be
                  (History.installations (History.user_history_data hm))
                  mgr pkgs (History.store (History.user_history_data hm)) w in
  History.system_history_data (fst out) = History.system_history_data hm
  /\ History.store (History.user_history_data (fst out)) = fst marked
  /\ snd out = History.write_history be false (History.system_history_data hm)
                 (snd marked).
Proof.
  intros Hu Hs. cbv zeta. unfold History.mark_packages_removed,
    History._save_history, History.history_data, History.set_history_data,
    History.is_system.
  apply String.eqb_neq in Hu, Hs. rewrite Hs, Hu.
  destruct (History.mark_installations be _ mgr pkgs _ w) as [st' w'].
  cbn. auto.
Qed.

Lemma save_history_unknown_scope_witness :
  let s := Sim.vim_installed (Sim.machine ["apt"] [] [] []) in
  let out := History.mark_packages_removed Sim.backend "apt" ["vim"] "all"
               (fst s) (snd s) in
  Sim.flags (History.user_history_data (fst out)) = [(Some true, Some ["vim"])]
  /\ Sim.user_file (snd out) = Some (History.system_history_data (fst s))
  /\ History.records (History.system_history_data (fst s)) = [].
Proof.
  pose proof (save_history_unknown_scope Sim.backend "apt" ["vim"] "all"
                (fst (Sim.vim_installed (Sim.machine ["apt"] [] [] [])))
                (snd (Sim.vim_installed (Sim.machine ["apt"] [] [] [])))) as H.
  cbv zeta in H. destruct H as (_ & _ & Hw); [discriminate|discriminate|].
  cbv zeta. split; [reflexivity|]. split; [|reflexivity].
  rewrite Hw. reflexivity.
Defined.

(** ** Live status and reconciliation *)

Lemma find_in_history_None locs st package mgr :
  History.find_in_history locs st package mgr = None <->
  forall l inst, l ∈ locs -> st !! l = Some inst ->
    String.eqb (History.manager inst) mgr
    && PyList.mem package (History.packages inst) = false.
Proof.
  induction locs as [|l' rest IH]; cbn [History.find_in_history].
  - split; [|reflexivity]. intros _ l inst H. inversion H.
  - destruct (st !! l') as [i|] eqn:Hl'.
    + destruct (String.eqb (History.manager i) mgr
                && PyList.mem package (History.packages i)) eqn:E.
      * split; [discriminate|]. intros H.
        specialize (H l' i (list_elem_of_here _ _) Hl'). congruence.
      * rewrite IH. split.
        -- intros H l inst Hin Hl. apply elem_of_cons in Hin as [->|Hin].
           ++ congruence.
           ++ eauto.
        -- intros H l inst Hin. apply H. now right.
    + rewrite IH. split.
      * intros H l inst Hin Hl. apply elem_of_cons in Hin as [->|Hin].
        -- congruence.
        -- eauto.
      * intros H l inst Hin. apply H. now right.
Qed.

Lemma in_history_decide (locs : list nat)
    (st : list History.Installation) (package mgr : string) :
  (exists l inst, l ∈ locs /\ st !! l = Some inst
                  /\ History.manager inst = mgr
                  /\ PyList.mem package (History.packages inst) = true)
  \/ (forall l inst, l ∈ locs -> st !! l = Some inst ->
        String.eqb (History.manager inst) mgr
        && PyList.mem package (History.packages inst) = false).
Proof.
  induction locs as [|l' rest IH].
  - right. intros l inst H. inversion H.
  - destruct IH as [(l & inst & Hin & Hl & Hm & Hp)|IH].
    + left. exists l, inst. split; [now right|auto].
    + destruct (st !! l') as [i|] eqn:Hl'.
      * destruct (String.eqb (History.manager i) mgr
                  && PyList.mem package (History.packages i)) eqn:E.
        -- left. apply andb_true_iff in E as [Hm Hp].
           apply String.eqb_eq in Hm. exists l', i.
           split; [now left|auto].
        -- right. intros l inst Hin Hl.
           apply elem_of_cons in Hin as [->|Hin]; [congruence|eauto].
      * right. intros l inst Hin Hl.
        apply elem_of_cons in Hin as [->|Hin]; [congruence|eauto].
Qed.

(** X8: [check_package_status]. With no manager of that name registered
    it answers [found_in_history = True] and [still_installed = False]
    whatever the ledger holds, and asks nothing of the back end. With the
    manager registered and no installation of that manager listing the
    package, it answers [found_in_history = False] and the back end is not
    searched. Otherwise the back end is searched once, and the manager is
    asked whether it is enabled: when that raises, the method raises the
    same exception (also after a failed search, from its [except] branch);
    when it answers, so does the method, with [found_in_history = True],
    the manager's answer, and [still_installed] true exactly when the search
    returned and one of the names found contains the package name, case
    apart. *)
Theorem check_package_status_spec {World : Type} (be : History.Backend World)
    (package mgr sc : string) (hm : History.HistoryManager) (w : World) :
  let out := History.check_package_status be package mgr sc hm w in
  let searched := History.search be mgr package w in
  if History.get_manager be w mgr then
    (~ in_history (History.history_data hm sc) package mgr ->
     exists status,
       out = (Ok status, w)
       /\ History.found_in_history status = false
       /\ History.still_installed status = false)
    /\ (in_history (History.history_data hm sc) package mgr ->
        snd out = snd searched
        /\ match History.is_enabled be (snd searched) mgr with
           | Raise e => fst out = Raise e
           | Ok en =>
               exists status,
                 fst out = Ok status
                 /\ History.found_in_history status = true
                 /\ History.manager_enabled status = Some en
                 /\ History.still_installed status
                    = match fst searched with
                      | Ok r => History.name_matches package r
                      | Raise _ => false
                      end
                 /\ (History.status_error status = None
                     <-> is_ok (fst searched) = true)
           end)
  else
    exists status,
      out = (Ok status, w)
      /\ History.found_in_history status = true
      /\ History.still_installed status = false.
Proof.
  cbv zeta. unfold History.check_package_status.
  destruct (History.get_manager be w mgr); cbn [negb]; [|eauto].
  destruct (History.find_in_history _ _ package mgr) as [flag|] eqn:Hf.
  - assert (Hin : in_history (History.history_data hm sc) package mgr).
    { destruct (in_history_decide (History.installations (History.history_data hm sc))
                  (History.store (History.history_data hm sc)) package mgr)
        as [H|H]; [exact H|].
      apply find_in_history_None in H. congruence. }
    split; [intros Hno; now contradiction Hno|]. intros _.
    unfold History.status_of_exception.
    destruct (History.search be mgr package w) as [[r|e] w']; cbn [fst snd];
      (split; [destruct (History.is_enabled be w' mgr); reflexivity|]);
      destruct (History.is_enabled be w' mgr) as [en|e']; cbn [fst];
      try reflexivity; eexists; (split; [reflexivity|]); cbn;
      repeat split; try reflexivity; try discriminate.
  - split; [intros _; eexists; split; [reflexivity|]; cbn; auto|].
    intros (l & inst & Hin & Hl & Hm & Hp). exfalso.
    apply (proj1 (find_in_history_None _ _ _ _)) with (l := l) (inst := inst) in Hf;
      [|exact Hin|exact Hl].
    rewrite Hm, String.eqb_refl, Hp in Hf. discriminate.
Qed.

Lemma filter_length_app {A : Type} (f : A -> bool) (l k : list A) :
  length (List.filter f (l ++ k))
  = length (List.filter f l) + length (List.filter f k).
Proof. now rewrite List.filter_app, length_app. Qed.

Section ReconcileProps.
Context {World : Type} (be : History.Backend World).

Lemma reconcile_packages_tidy mgr sc pkgs : forall res hm w,
  tidy res -> tidy (fst (fst (History.reconcile_packages be mgr sc pkgs res hm w))).
Proof.
  induction pkgs as [|p rest IH]; intros res hm w Ht; [exact Ht|].
  cbn [History.reconcile_packages].
  destruct Ht as (Hm & He & Hle).
  destruct (History.check_package_status be p mgr sc hm w) as [[status|e] w1].
  - destruct (History.found_in_history status && negb (History.still_installed status)).
    + destruct (History.mark_packages_removed be mgr [p] sc hm w1) as [hm2 w2].
      apply IH. unfold tidy. cbn [History.count_removed History.count_checked
        History.details History.count_marked_removed History.errors
        History.checked].
      rewrite !filter_length_app. cbn. lia.
    + apply IH. unfold tidy. cbn. lia.
  - apply IH. unfold tidy. cbn [History.count_error History.count_checked
      History.details History.count_marked_removed History.errors
      History.checked].
    rewrite !filter_length_app. cbn. lia.
Qed.

Lemma reconcile_installations_tidy sc locs : forall res hm w,
  tidy res -> tidy (fst (fst (History.reconcile_installations be locs sc res hm w))).
Proof.
  induction locs as [|l rest IH]; intros res hm w Ht; [exact Ht|].
  cbn [History.reconcile_installations].
  destruct (History.store (History.history_data hm sc) !! l) as [inst|];
    [|now apply IH].
  destruct (History.is_removed inst); [now apply IH|].
  pose proof (reconcile_packages_tidy (History.manager inst) sc
                (History.packages inst) res hm w Ht) as Hp.
  destruct (History.reconcile_packages be (History.manager inst) sc
              (History.packages inst) res hm w) as [[res1 hm1] w1].
  now apply IH.
Qed.

Lemma check_package_status_present package mgr sc hm w :
  finds_everything be ->
  match fst (History.check_package_status be package mgr sc hm w) with
  | Ok status =>
      History.found_in_history status && negb (History.still_installed status)
      = false
  | Raise _ => ~ has_commands be
  end.
Proof.
  intros Hfe. unfold History.check_package_status.
  destruct (Hfe w mgr package) as (Hm & r & Hs & Hn). rewrite Hm. cbn [negb].
  destruct (History.find_in_history _ _ package mgr); [|reflexivity].
  destruct (History.search be mgr package w) as [sr w']. cbn [fst] in Hs.
  subst sr. unfold History.status_of_exception.
  destruct (History.is_enabled be w' mgr) as [en|e] eqn:He; cbn.
  - now rewrite Hn.
  - intros Hc. destruct (Hc w' mgr) as [answer Hb]. congruence.
Qed.

Lemma reconcile_packages_present mgr sc pkgs : finds_everything be ->
  forall res hm w,
  let out := History.reconcile_packages be mgr sc pkgs res hm w in
  snd (fst out) = hm
  /\ History.checked (fst (fst out)) = History.checked res + length pkgs
  /\ History.count_marked_removed (fst (fst out)) = History.count_marked_removed res
  /\ (exists errs,
        History.details (fst (fst out)) = (History.details res ++ errs)%list
        /\ Forall (fun d => is_marking d = false) errs
        /\ History.errors (fst (fst out)) = History.errors res + length errs
        /\ (has_commands be -> errs = [])).
Proof.
  intros Hfe. induction pkgs as [|p rest IH]; intros res hm w; cbv zeta.
  - cbn. repeat split; [lia|]. exists []. rewrite app_nil_r. cbn.
    repeat split; [constructor|lia].
  - cbn [History.reconcile_packages].
    pose proof (check_package_status_present p mgr sc hm w Hfe) as Hc.
    destruct (History.check_package_status be p mgr sc hm w)
      as [[status|e] w1]; cbn [fst] in Hc.
    + rewrite Hc.
      destruct (IH (History.count_checked res) hm w1)
        as (H1 & H2 & H3 & errs & H4 & H5 & H6 & H7).
      split; [exact H1|]. split; [rewrite H2; cbn; lia|].
      split; [exact H3|]. exists errs. auto.
    + destruct (IH (History.count_error p mgr e (History.count_checked res))
                  hm w1) as (H1 & H2 & H3 & errs & H4 & H5 & H6 & H7).
      split; [exact H1|]. split; [rewrite H2; cbn; lia|].
      split; [exact H3|].
      exists ({| History.detail_package := p; History.detail_manager := mgr;
                 History.detail_action := History.action_error;
                 History.detail_text := e |} :: errs).
      split; [rewrite H4; cbn; now rewrite <- app_assoc|].
      split; [constructor; [reflexivity|exact H5]|].
      split; [rewrite H6; cbn; lia|].
      intros Hhc. now contradiction Hc.
Qed.

Lemma reconcile_installations_present sc locs : finds_everything be ->
  forall res hm w,
  let out := History.reconcile_installations be locs sc res hm w in
  snd (fst out) = hm
  /\ History.checked (fst (fst out))
     = History.checked res + pending (History.store (History.history_data hm sc)) locs
  /\ History.count_marked_removed (fst (fst out)) = History.count_marked_removed res
  /\ (exists errs,
        History.details (fst (fst out)) = (History.details res ++ errs)%list
        /\ Forall (fun d => is_marking d = false) errs
        /\ History.errors (fst (fst out)) = History.errors res + length errs
        /\ (has_commands be -> errs = [])).
Proof.
  intros Hfe. induction locs as [|l rest IH]; intros res hm w; cbv zeta.
  - cbn. repeat split; [lia|]. exists []. rewrite app_nil_r. cbn.
    repeat split; [constructor|lia].
  - cbn [History.reconcile_installations pending].
    destruct (History.store (History.history_data hm sc) !! l) as [inst|];
      [|apply IH].
    destruct (History.is_removed inst); [apply IH|].
    pose proof (reconcile_packages_present (History.manager inst) sc
                  (History.packages inst) Hfe res hm w) as Hp.
    cbv zeta in Hp.
    destruct (History.reconcile_packages be (History.manager inst) sc
                (History.packages inst) res hm w) as [[res1 hm1] w1].
    cbn [fst snd] in Hp.
    destruct Hp as (-> & Hc & Hm & e1 & Hd1 & Hf1 & He1 & Hn1).
    destruct (IH res1 hm w1) as (H1 & H2 & H3 & e2 & Hd2 & Hf2 & He2 & Hn2).
    split; [exact H1|]. split; [rewrite H2, Hc; lia|].
    split; [congruence|]. exists (e1 ++ e2)%list.
    split; [rewrite Hd2, Hd1; now rewrite <- app_assoc|].
    split; [now apply Forall_app|].
    split; [rewrite He2, He1, length_app; lia|].
    intros Hhc. now rewrite (Hn1 Hhc), (Hn2 Hhc).
Qed.

End ReconcileProps.

(** X9: the counters a reconciliation returns agree with its details: as
    many details report a marking as [marked_removed] counts, as many
    report an error as [errors] counts, and markings and errors together
    are no more than the packages checked. *)
Theorem reconcile_result_tidy {World : Type} (be : History.Backend World)
    (sc : string) (hm : History.HistoryManager) (w : World) :
  tidy (fst (fst (History.reconcile_package_status be sc hm w))).
Proof.
  unfold History.reconcile_package_status.
  apply reconcile_installations_tidy. unfold tidy. cbn. lia.
Qed.

(** X10: when every manager is registered and the search of the back end
    finds every package asked for, a reconciliation marks nothing: the
    history manager comes out as it went in, no detail reports a marking,
    and the packages checked are exactly those of the installations not
    flagged removed. The details are the errors of managers whose
    [is_enabled] raised, one per package checked of such a manager; when
    every manager has a command there is no detail at all. *)
Theorem reconcile_all_present {World : Type} (be : History.Backend World)
    (sc : string) (hm : History.HistoryManager) (w : World) :
  finds_everything be ->
  let out := History.reconcile_package_status be sc hm w in
  snd (fst out) = hm
  /\ History.count_marked_removed (fst (fst out)) = 0
  /\ Forall (fun d => is_marking d = false) (History.details (fst (fst out)))
  /\ History.errors (fst (fst out)) = length (History.details (fst (fst out)))
  /\ (has_commands be -> History.details (fst (fst out)) = [])
  /\ History.checked (fst (fst out))
     = pending (History.store (History.history_data hm sc))
         (History.installations (History.history_data hm sc)).
Proof.
  intros Hfe. cbv zeta. unfold History.reconcile_package_status.
  destruct (reconcile_installations_present be sc
              (History.installations (History.history_data hm sc)) Hfe
              {| History.checked := 0; History.count_marked_removed := 0;
                 History.errors := 0; History.details := [] |} hm w)
    as (H1 & H2 & H3 & errs & H4 & H5 & H6 & H7).
  cbn [History.details History.errors History.checked
         History.count_marked_removed app] in *.
  rewrite H4. repeat split; auto.
Qed.

Lemma prefix_refl (s : string) : String.prefix s s = true.
Proof.
  induction s as [|c s IH]; [reflexivity|].
  cbn. destruct (ascii_dec c c); [exact IH|contradiction].
Qed.

Lemma contains_refl (s : string) : PyStr.contains s s = true.
Proof. destruct s; cbn [PyStr.contains]; now rewrite prefix_refl. Qed.

Lemma generous_finds_everything : finds_everything generous_backend.
Proof.
  intros w mgr package. split; [reflexivity|].
  eexists. split; [reflexivity|].
  unfold History.name_matches. cbn. now rewrite contains_refl.
Qed.

Lemma reconcile_all_present_witness :
  let s := Sim.partly_removed "dnf" ["htop"; "curl"] (Sim.machine [] [] [] []) in
  let out := History.reconcile_package_status generous_backend "user" (fst s) (snd s) in
  snd (fst out) = fst s /\ History.checked (fst (fst out)) = 2.
Proof.
  pose proof (reconcile_all_present generous_backend "user"
                (fst (Sim.partly_removed "dnf" ["htop"; "curl"]
                        (Sim.machine [] [] [] [])))
                (snd (Sim.partly_removed "dnf" ["htop"; "curl"]
                        (Sim.machine [] [] [] [])))
                generous_finds_everything) as H.
  cbv zeta in H. destruct H as (H1 & _ & _ & _ & _ & H4).
  cbv zeta. split; [exact H1|]. rewrite H4. reflexivity.
Defined.

(** ** Actions and their variables *)

Lemma replace_go_skip (old new s : string) :
  PyStr.replace_go old new (String.length s) s = "".
Proof. induction s as [|c s IH]; [reflexivity|]. cbn. exact IH. Qed.

Lemma append_empty_r (s : string) : s +:+ "" = s.
Proof.
  induction s as [|c s IH]; [reflexivity|].
  change (String c (s +:+ "") = String c s). now rewrite IH.
Qed.

Lemma replace_whole (old new : string) :
  old <> "" -> PyStr.replace old new old = new.
Proof.
  destruct old as [|c old]; [contradiction|]. intros _.
  unfold PyStr.replace. cbn [PyStr.replace_go].
  rewrite prefix_refl.
  replace (String.length (String c old) - 1) with (String.length old)
    by (cbn [String.length]; lia).
  rewrite replace_go_skip. apply append_empty_r.
Qed.

Lemma token_free_absent (text : string) :
  token_free text = true -> Forall (fun t => PyStr.contains t text = false)
                              Plugin.builtin_tokens.
Proof.
  unfold token_free. intros H. apply Forall_forall. intros t Ht.
  apply list_elem_of_In in Ht.
  rewrite forallb_forall in H. specialize (H t Ht).
  now apply negb_true_iff in H.
Qed.

Lemma all_str_map (ss : list string) : Plugin.all_str (map VStr ss) = Ok ss.
Proof. induction ss as [|s ss IH]; [reflexivity|]. cbn. now rewrite IH. Qed.

Lemma str_entry_as_str (context : Context) (k : string) :
  str_entry context k = true ->
  exists s, Plugin.as_str (ctx_get context k (VStr "")) = Ok s.
Proof.
  unfold str_entry, ctx_get.
  destruct (Dict.get context k) as [[]|]; try discriminate; intros _; eauto.
Qed.

Lemma packages_entry_join (context : Context) :
  packages_entry context = true ->
  exists pk n,
    Plugin.join_arg (ctx_get context "packages" (VList [])) = Ok pk
    /\ Plugin.len_arg (ctx_get context "packages" (VList [])) = Ok n.
Proof.
  unfold packages_entry, ctx_get.
  destruct (Dict.get context "packages") as [[| | | |l]|]; try discriminate.
  - intros _. cbn. eauto.
  - intros H. cbn. rewrite <- all_str_ok in H.
    destruct (Plugin.all_str l); [|discriminate]. cbn. eauto.
  - intros _. cbn. eauto.
Qed.

(** On a context it accepts, [_expand_variables] is the chain of its
    fourteen replacements. *)
Lemma expand_variables_chain (p : Plugin.SimplePlugin) (si : Plugin.SysInfo)
    (text : string) (context : Context) :
  well_typed context = true ->
  exists pm pk n op er,
    Plugin.as_str (ctx_get context "package_manager" (VStr "")) = Ok pm
    /\ Plugin.join_arg (ctx_get context "packages" (VList [])) = Ok pk
    /\ Plugin.len_arg (ctx_get context "packages" (VList [])) = Ok n
    /\ Plugin.as_str (ctx_get context "operation" (VStr "")) = Ok op
    /\ Plugin.as_str (ctx_get context "error" (VStr "")) = Ok er
    /\ Plugin._expand_variables p si text context
       = Ok (PyStr.replace "$time" (Plugin.now_time si)
            (PyStr.replace "$date" (Plugin.now_date si)
            (PyStr.replace "$timestamp" (Plugin.now_timestamp si)
            (PyStr.replace "$plugin-dir" (Plugin.plugin_dir p)
            (PyStr.replace "$plugin-name" (Plugin.name p)
            (PyStr.replace "$hostname" (Plugin.getenv si "HOSTNAME" "")
            (PyStr.replace "$home" (Plugin.getenv si "HOME" "")
            (PyStr.replace "$user" (Plugin.getenv si "USER" "")
            (PyStr.replace "$error" er
            (PyStr.replace "$success"
               (py_str (ctx_get context "success" (VBool false)))
            (PyStr.replace "$operation" op
            (PyStr.replace "$package-count" (pretty n)
            (PyStr.replace "$packages" pk
            (PyStr.replace "$package-manager" pm text)))))))))))))).
Proof.
  unfold well_typed. intros H.
  apply andb_true_iff in H as [H He]. apply andb_true_iff in H as [H Ho].
  apply andb_true_iff in H as [Hm Hp].
  destruct (str_entry_as_str _ _ Hm) as [pm Hpm].
  destruct (packages_entry_join _ Hp) as (pk & n & Hpk & Hn).
  destruct (str_entry_as_str _ _ Ho) as [op Hop].
  destruct (str_entry_as_str _ _ He) as [er Her].
  exists pm, pk, n, op, er. repeat (split; [assumption|]).
  unfold Plugin._expand_variables. rewrite Hpm, Hpk, Hn, Hop, Her. reflexivity.
Qed.

(** X11: a text that is exactly the token [$packages] expands to the
    package names joined by single spaces, and a text that is exactly
    [$error] to the error text, whenever the context is one the function
    accepts and the value put in holds no builtin token itself. *)
Theorem expand_variables_value (p : Plugin.SimplePlugin) (si : Plugin.SysInfo)
    (context : Context) :
  well_typed context = true ->
  (forall ss, Dict.get context "packages" = Some (VList (map VStr ss)) ->
     token_free (PyStr.join " " ss) = true ->
     Plugin._expand_variables p si "$packages" context = Ok (PyStr.join " " ss))
  /\ (forall e, Dict.get context "error" = Some (VStr e) ->
        token_free e = true ->
        Plugin._expand_variables p si "$error" context = Ok e).
Proof.
  intros Hwt. split.
  - intros ss Hp Htf. apply token_free_absent in Htf.
    unfold Plugin.builtin_tokens in Htf.
    repeat match goal with
           | H : Forall _ (_ :: _) |- _ => apply Forall_cons in H as [?H H]
           end.
    destruct (expand_variables_chain p si "$packages" context Hwt)
      as (pm & pk & n & op & er & _ & Hpk & _ & _ & _ & ->).
    unfold ctx_get in Hpk. rewrite Hp in Hpk. cbn in Hpk.
    rewrite all_str_map in Hpk. cbn in Hpk. injection Hpk as <-.
    rewrite (replace_absent "$package-manager" pm "$packages") by reflexivity.
    rewrite (replace_whole "$packages") by discriminate.
    repeat match goal with
           | |- context [PyStr.replace ?o ?n (PyStr.join " " ss)] =>
               rewrite (replace_absent o n (PyStr.join " " ss)) by assumption
           end.
    reflexivity.
  - intros e He Htf. apply token_free_absent in Htf.
    unfold Plugin.builtin_tokens in Htf.
    repeat match goal with
           | H : Forall _ (_ :: _) |- _ => apply Forall_cons in H as [?H H]
           end.
    destruct (expand_variables_chain p si "$error" context Hwt)
      as (pm & pk & n & op & er & _ & _ & _ & _ & Her & ->).
    unfold ctx_get in Her. rewrite He in Her. cbn in Her. injection Her as <-.
    repeat match goal with
           | |- context [PyStr.replace ?o ?n "$error"] =>
               first [ rewrite (replace_absent o n "$error") by reflexivity
                     | rewrite (replace_whole "$error") by discriminate ]
           end.
    repeat match goal with
           | |- context [PyStr.replace ?o ?n e] =>
               rewrite (replace_absent o n e) by assumption
           end.
    reflexivity.
Qed.

Lemma expand_variables_value_witness :
  Plugin._expand_variables (Sim.plugin "notify" true []) Sim.info "$packages"
    [("packages", VList [VStr "vim"; VStr "git"]); ("error", VStr "none")]
  = Ok "vim git".
Proof.
  apply (proj1 (expand_variables_value (Sim.plugin "notify" true []) Sim.info
                  [("packages", VList [VStr "vim"; VStr "git"]);
                   ("error", VStr "none")] eq_refl) ["vim"; "git"]);
    reflexivity.
Defined.

(** X12: a context that [_expand_variables] refuses (an [error] that is
    [None], say) makes every action fail before anything runs: the shell is
    not touched. An enabled plugin with at least one action for the event
    then answers [False] after its first action, the world unchanged. *)
Theorem ill_typed_context_fails {World : Type} (sh : Plugin.Shell World)
    (p : Plugin.SimplePlugin) (event : string) (context : Context)
    (st : Plugin.PState World) :
  well_typed context = false ->
  (forall action,
     Plugin._execute_action sh p action context st
     = (false, Plugin.record_call
                 (Plugin.ExecuteAction (Plugin.name p) action false)
                 (Plugin.world st) st))
  /\ (Plugin.is_enabled p = true -> actions_for p event <> [] ->
      fst (Plugin.handle_event sh p event context st) = false
      /\ Plugin.world (snd (Plugin.handle_event sh p event context st))
         = Plugin.world st
      /\ length (action_calls
                   (Plugin.calls (snd (Plugin.handle_event sh p event context st))))
         = S (length (action_calls (Plugin.calls st)))).
Proof.
  intros Hwt.
  assert (Hex : forall action st0,
            Plugin._execute_action sh p action context st0
            = (false, Plugin.record_call
                        (Plugin.ExecuteAction (Plugin.name p) action false)
                        (Plugin.world st0) st0)).
  { intros action st0. unfold Plugin._execute_action.
    pose proof (expand_variables_ok_iff p (Plugin.sysinfo sh (Plugin.world st0))
                  action context) as Hok.
    rewrite Hwt in Hok.
    destruct (Plugin._expand_variables p _ action context); [discriminate|].
    reflexivity. }
  split; [intros action; apply Hex|].
  intros Hen Hne. unfold Plugin.handle_event, actions_for in *.
  rewrite Hen. cbn [negb].
  destruct (Dict.get (Plugin.events (Plugin.config p)) event) as [[|a rest]|];
    try contradiction.
  cbn [Plugin.run_actions]. rewrite Hex. cbn.
  split; [reflexivity|]. split; [reflexivity|].
  rewrite !action_calls_app. cbn. rewrite !length_app. cbn. lia.
Qed.

Lemma ill_typed_context_fails_witness :
  let p := Sim.plugin "notify" true [("error", ["log:failed $error"; "run:true"])] in
  let out := Plugin.handle_event Sim.shell p "error" [("error", VNone)]
               (Sim.start []) in
  fst out = false /\ Sim.ran (Plugin.world (snd out)) = [].
Proof.
  pose proof (proj2 (ill_typed_context_fails Sim.shell
                       (Sim.plugin "notify" true
                          [("error", ["log:failed $error"; "run:true"])])
                       "error" [("error", VNone)] (Sim.start []) eq_refl)
                eq_refl) as H.
  cbv zeta. destruct H as (H1 & H2 & _); [discriminate|].
  split; [exact H1|]. rewrite H2. reflexivity.
Defined.

(** ** The plugin registry *)

Lemma dict_keys_set_present {V : Type} (d : Dict.t V) (k : string) (v : V) :
  Dict.get d k <> None -> Dict.keys (Dict.set d k v) = Dict.keys d.
Proof.
  induction d as [|[k0 v0] d IH]; cbn; [contradiction|].
  destruct (String.eqb k0 k) eqn:E; cbn.
  - intros _. apply String.eqb_eq in E. now subst.
  - intros H. unfold Dict.keys in IH. now rewrite IH.
Qed.

Lemma mem_app_r (x : string) (l : list string) : PyList.mem x (l ++ [x]) = true.
Proof.
  unfold PyList.mem. rewrite existsb_app. cbn.
  rewrite String.eqb_refl. now rewrite orb_true_r.
Qed.

(** X13: enabling or disabling a registered plugin by its name (other
    than [all] for enabling) answers [True], sets the flag of that plugin
    and of no other, keeps the order of the registry, and writes the
    plugin's file; after enabling, the name is in the [enabled_plugins] list
    of the main configuration. For a name that is not registered both answer
    [False] and change nothing. *)
Theorem enable_disable_plugin {World : Type} (sh : Plugin.Shell World)
    (pm : Plugin.PluginManager) (n : string) (w : World) :
  n <> "all" ->
  let e := Plugin.enable_plugin sh pm n w in
  let d := Plugin.disable_plugin sh pm n w in
  match Plugin.get_plugin pm n with
  | Some p =>
      fst (fst e) = true /\ fst (fst d) = true
      /\ Plugin.get_plugin (snd (fst e)) n = Some (Plugin.set_enabled true p)
      /\ Plugin.get_plugin (snd (fst d)) n = Some (Plugin.set_enabled false p)
      /\ (forall n', n' <> n ->
            Plugin.get_plugin (snd (fst e)) n' = Plugin.get_plugin pm n'
            /\ Plugin.get_plugin (snd (fst d)) n' = Plugin.get_plugin pm n')
      /\ Dict.keys (Plugin.plugins (snd (fst e))) = Dict.keys (Plugin.plugins pm)
      /\ Dict.keys (Plugin.plugins (snd (fst d))) = Dict.keys (Plugin.plugins pm)
      /\ PyList.mem n (Plugin.enabled_plugins (snd (fst e))) = true
      /\ snd e = Plugin.write_plugin_conf sh (Plugin.set_enabled true p) w
      /\ snd d = Plugin.write_plugin_conf sh (Plugin.set_enabled false p) w
  | None => e = (false, pm, w) /\ d = (false, pm, w)
  end.
Proof.
  intros Hall. cbv zeta. unfold Plugin.enable_plugin, Plugin.disable_plugin.
  apply String.eqb_neq in Hall. rewrite Hall.
  destruct (Plugin.get_plugin pm n) as [p|] eqn:Hg; [|auto].
  unfold Plugin.get_plugin in *. cbn.
  split; [reflexivity|]. split; [reflexivity|].
  split; [apply dict_get_set_eq|]. split; [apply dict_get_set_eq|].
  split.
  { intros n' Hne. split; apply dict_get_set_ne; congruence. }
  split; [apply dict_keys_set_present; congruence|].
  split; [apply dict_keys_set_present; congruence|].
  split; [|auto].
  change (PyList.mem n
            (if PyList.mem n (Plugin.enabled_plugins pm)
             then Plugin.enabled_plugins pm
             else (Plugin.enabled_plugins pm ++ [n])%list) = true).
  destruct (PyList.mem n (Plugin.enabled_plugins pm)) eqn:Hm;
    [exact Hm|apply mem_app_r].
Qed.

Lemma enable_disable_plugin_witness :
  let pm := Plugin.init (Some [Sim.entry "backup" "/usr/share/paka/plugins" true])
              (Some [Sim.entry "backup" "/home/ada/.local/share/paka/plugins" true])
              [] in
  fst (fst (Plugin.disable_plugin Sim.shell pm "user-backup" (Sim.host []))) = true
  /\ Dict.keys (Plugin.plugins
                  (snd (fst (Plugin.disable_plugin Sim.shell pm "user-backup"
                               (Sim.host [])))))
     = ["system-backup"; "user-backup"].
Proof.
  pose proof (enable_disable_plugin Sim.shell
                (Plugin.init
                   (Some [Sim.entry "backup" "/usr/share/paka/plugins" true])
                   (Some [Sim.entry "backup" "/home/ada/.local/share/paka/plugins" true])
                   [])
                "user-backup" (Sim.host [])) as H.
  cbv zeta in H. specialize (H ltac:(discriminate)).
  vm_compute in H. destruct H as (_ & H2 & _ & _ & _ & _ & H7 & _).
  cbv zeta. split; [exact H2|exact H7].
Defined.

Lemma set_enabled_id (p : Plugin.SimplePlugin) :
  Plugin.is_enabled p = true -> Plugin.set_enabled true p = p.
Proof.
  destruct p as [n d [e ds v a ev]]. unfold Plugin.is_enabled. cbn.
  now intros ->.
Qed.

Lemma enable_all_loop_spec {World : Type} (sh : Plugin.Shell World)
    (ps : Dict.t Plugin.SimplePlugin) : forall w : World,
  fst (fst (Plugin._enable_all_loop sh ps w)) = ps
  /\ snd (fst (Plugin._enable_all_loop sh ps w))
     = length (List.filter (fun kv => Plugin.is_enabled (snd kv)) ps).
Proof.
  induction ps as [|[k p] ps IH]; intros w; [split; reflexivity|].
  cbn [Plugin._enable_all_loop List.filter snd].
  destruct (Plugin.is_enabled p) eqn:Hp.
  - rewrite (set_enabled_id p Hp).
    destruct (IH (Plugin.write_plugin_conf sh p w)) as [H1 H2].
    destruct (Plugin._enable_all_loop sh ps _) as [[ps' c] w'].
    cbn in *. now subst.
  - destruct (IH w) as [H1 H2].
    destruct (Plugin._enable_all_loop sh ps w) as [[ps' c] w'].
    cbn in *. now subst.
Qed.

(** X14: [enable_plugin('all')] enables nothing: it visits the plugins
    that are enabled already, so the registry and the main configuration
    come out as they went in, and the answer is whether any plugin was
    enabled to begin with. *)
Theorem enable_all_changes_nothing {World : Type} (sh : Plugin.Shell World)
    (pm : Plugin.PluginManager) (w : World) :
  snd (fst (Plugin.enable_plugin sh pm "all" w)) = pm
  /\ fst (fst (Plugin.enable_plugin sh pm "all" w))
     = negb (Nat.eqb (length (Plugin.get_enabled_plugins pm)) 0)
  /\ Registry.get_disabled_plugins
       (snd (fst (Plugin.enable_plugin sh pm "all" w)))
     = Registry.get_disabled_plugins pm.
Proof.
  unfold Plugin.enable_plugin. cbn [String.eqb].
  change (String.eqb "all" "all") with true. cbv iota.
  destruct (enable_all_loop_spec sh (Plugin.plugins pm) w) as [H1 H2].
  destruct (Plugin._enable_all_loop sh (Plugin.plugins pm) w) as [[ps c] w'].
  cbn in *. subst ps c.
  assert (Hpm : {| Plugin.plugins := Plugin.plugins pm;
                   Plugin.enabled_plugins := Plugin.enabled_plugins pm |} = pm)
    by (now destruct pm).
  rewrite Hpm. split; [reflexivity|]. split; [|reflexivity].
  unfold Plugin.get_enabled_plugins.
  now destruct (length _).
Qed.

Lemma nth_error_lookup_eq {A : Type} (l : list A) : forall i,
  nth_error l i = l !! i.
Proof. induction l as [|a l IH]; intros [|i]; cbn; auto. Qed.

Lemma remove_first_keeps_other (x y : string) (l : list string) : forall j,
  l !! j = Some y -> y <> x ->
  exists j', j' <= j /\ PyList.remove_first x l !! j' = Some y.
Proof.
  induction l as [|a l IH]; intros j Hj Hne; [discriminate|].
  cbn [PyList.remove_first]. destruct (String.eqb a x) eqn:E.
  - apply String.eqb_eq in E. subst a. destruct j as [|j].
    + cbn in Hj. congruence.
    + exists j. split; [lia|exact Hj].
  - destruct j as [|j].
    + exists 0. split; [lia|exact Hj].
    + destruct (IH j Hj Hne) as (j' & Hle & Hj').
      exists (S j'). split; [lia|exact Hj'].
Qed.

Lemma remove_first_keeps_later (y : string) (l : list string) : forall i j,
  l !! i = Some y -> j < i -> l !! j = Some y ->
  PyList.remove_first y l !! (i - 1) = Some y.
Proof.
  induction l as [|a l IH]; intros i j Hi Hlt Hj; [discriminate|].
  cbn [PyList.remove_first]. destruct i as [|i]; [lia|].
  cbn [Nat.sub]. rewrite Nat.sub_0_r. cbn in Hi.
  destruct (String.eqb a y) eqn:E; [exact Hi|].
  destruct j as [|j].
  - cbn in Hj. injection Hj as ->. rewrite String.eqb_refl in E. discriminate.
  - cbn in Hj. destruct i as [|i]; [lia|].
    specialize (IH (S i) j Hi ltac:(lia) Hj).
    cbn [Nat.sub] in IH. rewrite Nat.sub_0_r in IH. exact IH.
Qed.

Lemma cleanup_loop_plugins rounds : forall i pm,
  Plugin.plugins (Plugin._cleanup_loop rounds i pm) = Plugin.plugins pm.
Proof.
  induction rounds as [|rounds IH]; intros i pm; [reflexivity|].
  cbn [Plugin._cleanup_loop].
  destruct (nth_error (Plugin.enabled_plugins pm) i) as [n|]; [|reflexivity].
  rewrite IH. now destruct (Dict.get (Plugin.plugins pm) n).
Qed.

Lemma cleanup_loop_step rounds i pm :
  Plugin._cleanup_loop (S rounds) i pm
  = match nth_error (Plugin.enabled_plugins pm) i with
    | None => pm
    | Some plugin_name =>
        Plugin._cleanup_loop rounds (S i)
          match Dict.get (Plugin.plugins pm) plugin_name with
          | None => Plugin._remove_plugin_from_config plugin_name pm
          | Some _ => pm
          end
    end.
Proof. reflexivity. Qed.

(** A name behind the cursor of the clean-up loop is still in the list at
    the end. *)
Lemma cleanup_loop_behind (y : string) rounds : forall i pm j,
  j < i -> Plugin.enabled_plugins pm !! j = Some y ->
  y ∈ Plugin.enabled_plugins (Plugin._cleanup_loop rounds i pm).
Proof.
  induction rounds as [|rounds IH]; intros i pm j Hlt Hj.
  - cbn. eapply list_elem_of_lookup_2; eauto.
  - cbn [Plugin._cleanup_loop]. rewrite nth_error_lookup_eq.
    destruct (Plugin.enabled_plugins pm !! i) as [n|] eqn:Hi;
      [|eapply list_elem_of_lookup_2; eauto].
    destruct (Dict.get (Plugin.plugins pm) n); [eapply IH; [|exact Hj]; lia|].
    unfold Plugin._remove_plugin_from_config.
    assert (Hmem : PyList.mem n (Plugin.enabled_plugins pm) = true).
    { apply mem_elem_of. eapply list_elem_of_lookup_2; eauto. }
    rewrite Hmem. destruct (String.eqb_spec y n) as [->|Hne].
    + apply (IH (S i) _ (i - 1)); [lia|]. cbn.
      eapply remove_first_keeps_later; eauto.
    + destruct (remove_first_keeps_other n y _ j Hj Hne) as (j' & Hle & Hj').
      apply (IH (S i) _ j'); [lia|exact Hj'].
Qed.

(** X15: [_cleanup_missing_plugins] walks the [enabled_plugins] list while
    removing from it, so the entry after a removed one is never looked at:
    when the first name of the list is not registered, the second name is
    still in the list afterwards, registered or not. The registry itself is
    never changed. *)
Theorem cleanup_missing_plugins_skips (pm : Plugin.PluginManager)
    (x y : string) (rest : list string) :
  Plugin.enabled_plugins pm = x :: y :: rest ->
  Plugin.get_plugin pm x = None ->
  y ∈ Plugin.enabled_plugins (Plugin._cleanup_missing_plugins pm)
  /\ Plugin.plugins (Plugin._cleanup_missing_plugins pm) = Plugin.plugins pm.
Proof.
  intros Hl Hx. unfold Plugin._cleanup_missing_plugins.
  split; [|apply cleanup_loop_plugins].
  rewrite Hl. change (length (x :: y :: rest)) with (S (S (length rest))).
  rewrite cleanup_loop_step, Hl.
  cbn [nth_error]. unfold Plugin.get_plugin in Hx. rewrite Hx.
  apply (cleanup_loop_behind y _ 1 _ 0); [lia|].
  unfold Plugin._remove_plugin_from_config. rewrite Hl. cbn.
  now rewrite String.eqb_refl.
Qed.

Lemma cleanup_missing_plugins_skips_witness :
  Plugin.enabled_plugins
    (Plugin._cleanup_missing_plugins
       {| Plugin.plugins := []; Plugin.enabled_plugins := ["gone"; "lost"] |})
  = ["lost"].
Proof.
  pose proof (proj1 (cleanup_missing_plugins_skips
                       {| Plugin.plugins := [];
                          Plugin.enabled_plugins := ["gone"; "lost"] |}
                       "gone" "lost" [] eq_refl eq_refl)) as H.
  vm_compute in H |- *. apply elem_of_cons in H as [H|H]; [reflexivity|].
  inversion H.
Defined.

Lemma dict_keys_set {V : Type} (d : Dict.t V) (k : string) (v : V) (k' : string) :
  k' ∈ Dict.keys (Dict.set d k v) <-> k' = k \/ k' ∈ Dict.keys d.
Proof.
  unfold Dict.keys. induction d as [|[k0 v0] d IH]; cbn.
  - rewrite elem_of_cons. split; [|tauto]. intros [H|H]; [tauto|inversion H].
  - destruct (String.eqb k0 k) eqn:E; cbn; rewrite !elem_of_cons.
    + apply String.eqb_eq in E. subst. tauto.
    + rewrite IH. tauto.
Qed.

Lemma dict_get_keys {V : Type} (d : Dict.t V) (k : string) :
  Dict.get d k <> None <-> k ∈ Dict.keys d.
Proof.
  unfold Dict.keys. induction d as [|[k0 v0] d IH]; cbn.
  - split; [contradiction|]. intros H. inversion H.
  - rewrite elem_of_cons. destruct (String.eqb k0 k) eqn:E.
    + apply String.eqb_eq in E. subst. split; [tauto|discriminate].
    + apply String.eqb_neq in E. rewrite IH. split; [tauto|].
      intros [H|H]; [congruence|exact H].
Qed.

Lemma load_plugins_from_dir_keys (prefix : string) (items : list Plugin.DirEntry) :
  prefix <> "" -> forall reg k,
  k ∈ Dict.keys (Plugin._load_plugins_from_dir items prefix reg) <->
  k ∈ Dict.keys reg
  \/ exists item, item ∈ items /\ loadable item = true
                  /\ k = prefix +:+ "-" +:+ Plugin.item_name item.
Proof.
  intros Hp. apply String.eqb_neq in Hp.
  induction items as [|item items IH]; intros reg k;
    cbn [Plugin._load_plugins_from_dir].
  - split; [tauto|]. intros [H|(item & H & _)]; [exact H|inversion H].
  - rewrite IH. unfold loadable.
    destruct (Plugin.item_is_dir item) eqn:Hd;
      [destruct (Plugin.item_conf item) as [c|] eqn:Hc|].
    + rewrite Hp, dict_keys_set. split.
      * intros [[->|H]|(it & Hin & Hl & Hk)]; [right|tauto|right].
        -- exists item. rewrite Hd, Hc. split; [now left|auto].
        -- exists it. split; [now right|auto].
      * intros [H|(it & Hin & Hl & Hk)]; [tauto|].
        apply elem_of_cons in Hin as [->|Hin]; [tauto|].
        right. exists it. auto.
    + split.
      * intros [H|(it & Hin & Hl & Hk)]; [tauto|].
        right. exists it. split; [now right|auto].
      * intros [H|(it & Hin & Hl & Hk)]; [tauto|].
        apply elem_of_cons in Hin as [->|Hin].
        -- rewrite Hd, Hc in Hl. discriminate.
        -- right. exists it. auto.
    + split.
      * intros [H|(it & Hin & Hl & Hk)]; [tauto|].
        right. exists it. split; [now right|auto].
      * intros [H|(it & Hin & Hl & Hk)]; [tauto|].
        apply elem_of_cons in Hin as [->|Hin].
        -- rewrite Hd in Hl. discriminate.
        -- right. exists it. auto.
Qed.

Lemma load_plugins_keys (system_dir user_dir : option (list Plugin.DirEntry))
    (k : string) :
  k ∈ Dict.keys (Plugin._load_plugins system_dir user_dir) <->
  (exists item, item ∈ dir_items system_dir /\ loadable item = true
                /\ k = "system-" +:+ Plugin.item_name item)
  \/ (exists item, item ∈ dir_items user_dir /\ loadable item = true
                   /\ k = "user-" +:+ Plugin.item_name item).
Proof.
  unfold Plugin._load_plugins, dir_items.
  assert (Hs : forall items,
            k ∈ Dict.keys (Plugin._load_plugins_from_dir items "system" []) <->
            exists item, item ∈ items /\ loadable item = true
                         /\ k = "system-" +:+ Plugin.item_name item).
  { intros items. rewrite load_plugins_from_dir_keys by discriminate.
    split; [intros [H|H]; [inversion H|exact H]|tauto]. }
  destruct user_dir as [u|], system_dir as [sy|].
  - rewrite load_plugins_from_dir_keys by discriminate. rewrite Hs. tauto.
  - rewrite load_plugins_from_dir_keys by discriminate. split.
    + intros [H|H]; [inversion H|tauto].
    + intros [(it & H & _)|H]; [inversion H|tauto].
  - rewrite Hs. split; [tauto|].
    intros [H|(it & H & _)]; [exact H|inversion H].
  - cbn. split; [intros H; inversion H|].
    intros [(it & H & _)|(it & H & _)]; inversion H.
Qed.

Lemma startswith_system (n : string) :
  PyStr.startswith "system-" ("system-" +:+ n) = true.
Proof. destruct n; vm_compute; reflexivity. Qed.

(** X16: what the loader registers. The registry holds exactly one name
    per loadable entry name and directory: [system-<name>] for a directory
    with a [plugin.conf] in the system directory and [user-<name>] for one in
    the user directory, and nothing else; a file, or a directory without
    [plugin.conf], is skipped. [list_plugins] then reports the scope
    ['system'] for the first kind and ['user'] for the second, whatever the
    directory is called. *)
Theorem load_plugins_scopes (system_dir user_dir : option (list Plugin.DirEntry))
    (enabled : list string) :
  let pm := {| Plugin.plugins := Plugin._load_plugins system_dir user_dir;
               Plugin.enabled_plugins := enabled |} in
  (forall k, Plugin.get_plugin pm k <> None <->
     (exists item, item ∈ dir_items system_dir /\ loadable item = true
                   /\ k = "system-" +:+ Plugin.item_name item)
     \/ (exists item, item ∈ dir_items user_dir /\ loadable item = true
                      /\ k = "user-" +:+ Plugin.item_name item))
  /\ Forall (fun info =>
       (Registry.info_scope info = "system"
        /\ exists item, item ∈ dir_items system_dir /\ loadable item = true
             /\ Registry.info_name info = "system-" +:+ Plugin.item_name item)
       \/ (Registry.info_scope info = "user"
           /\ exists item, item ∈ dir_items user_dir /\ loadable item = true
                /\ Registry.info_name info = "user-" +:+ Plugin.item_name item))
       (Registry.list_plugins pm).
Proof.
  cbv zeta. split.
  - intros k. unfold Plugin.get_plugin. cbn [Plugin.plugins].
    rewrite dict_get_keys. apply load_plugins_keys.
  - unfold Registry.list_plugins. cbn [Plugin.plugins].
    apply Forall_forall. intros info Hin.
    apply list_elem_of_fmap in Hin as ([k p] & -> & Hkp).
    assert (Hk : k ∈ Dict.keys (Plugin._load_plugins system_dir user_dir)).
    { unfold Dict.keys. apply list_elem_of_fmap. exists (k, p). auto. }
    apply load_plugins_keys in Hk as [(it & Hi & Hl & ->)|(it & Hi & Hl & ->)];
      cbn [Registry.info_scope Registry.info_name fst].
    + left. split; [|eauto].
      rewrite startswith_system. reflexivity.
    + right. split; [vm_compute; reflexivity|eauto].
Qed.

Lemma filter_sublist {A : Type} (f : A -> bool) (l : list A) :
  sublist (List.filter f l) l.
Proof.
  induction l as [|x l IH]; cbn; [constructor|].
  destruct (f x); [now apply sublist_skip|now apply sublist_cons].
Qed.

Lemma suffix_is_sublist {A : Type} (l1 l2 : list A) :
  l1 `suffix_of` l2 -> sublist l1 l2.
Proof. intros [k ->]. now apply sublist_inserts_l. Qed.

Lemma last_entries_suffix {A : Type} (limit : option Z) (l : list A) :
  Ledger.last_entries limit l `suffix_of` l.
Proof.
  unfold Ledger.last_entries. destruct limit as [n|]; [|reflexivity].
  destruct (n =? 0)%Z; [reflexivity|].
  destruct (0 <? n)%Z; apply suffix_drop.
Qed.

Lemma last_entries_length {A : Type} (n : Z) (l : list A) :
  (0 < n)%Z -> length (Ledger.last_entries (Some n) l) <= Z.to_nat n.
Proof.
  intros Hn. unfold Ledger.last_entries.
  destruct (Z.eqb_spec n 0); [lia|].
  destruct (Z.ltb_spec 0 n); [|lia].
  rewrite length_drop. lia.
Qed.

Lemma get_installations_last (limit : option Z) (mgr : option string)
    (sc : string) (hm : History.HistoryManager) :
  History.get_installations limit mgr sc hm
  = if History.is_system sc && negb (History.can_access_system_history hm)
    then []
    else Ledger.last_entries limit
           (History.get_installations None mgr sc hm).
Proof.
  unfold History.get_installations, Ledger.last_entries.
  destruct (History.is_system sc && negb (History.can_access_system_history hm));
    reflexivity.
Qed.

Lemma get_installations_all_sublist (mgr : option string) (sc : string)
    (hm : History.HistoryManager) :
  sublist (History.get_installations None mgr sc hm)
    (History.installations (History.history_data hm sc)).
Proof.
  unfold History.get_installations.
  destruct (History.is_system sc && negb (History.can_access_system_history hm));
    [apply sublist_nil_l|].
  cbv zeta. destruct mgr as [m|]; [|reflexivity].
  destruct (String.eqb m ""); [reflexivity|apply filter_sublist].
Qed.

Lemma get_installations_sublist (limit : option Z) (mgr : option string)
    (sc : string) (hm : History.HistoryManager) :
  sublist (History.get_installations limit mgr sc hm)
    (History.installations (History.history_data hm sc)).
Proof.
  rewrite get_installations_last.
  destruct (History.is_system sc && negb (History.can_access_system_history hm));
    [apply sublist_nil_l|].
  etransitivity; [|apply get_installations_all_sublist].
  apply suffix_is_sublist, last_entries_suffix.
Qed.

Lemma get_installations_manager (limit : option Z) (m sc : string)
    (hm : History.HistoryManager) :
  m <> "" ->
  Forall (fun l => exists inst,
            History.store (History.history_data hm sc) !! l = Some inst
            /\ History.manager inst = m)
    (History.get_installations limit (Some m) sc hm).
Proof.
  intros Hm. rewrite get_installations_last.
  destruct (History.is_system sc && negb (History.can_access_system_history hm))
    eqn:Hacc; [constructor|].
  assert (Hall : Forall (fun l => exists inst,
            History.store (History.history_data hm sc) !! l = Some inst
            /\ History.manager inst = m)
            (History.get_installations None (Some m) sc hm)).
  { unfold History.get_installations. rewrite Hacc. cbv zeta.
    apply String.eqb_neq in Hm. rewrite Hm.
    apply Forall_forall. intros l Hl. apply list_elem_of_In in Hl.
    apply filter_In in Hl as [_ Hl].
    destruct (History.store (History.history_data hm sc) !! l) as [inst|];
      [|discriminate].
    exists inst. split; [reflexivity|]. now apply String.eqb_eq. }
  eapply Forall_forall. intros l Hl.
  eapply Forall_forall in Hall; [exact Hall|].
  destruct (last_entries_suffix limit
              (History.get_installations None (Some m) sc hm)) as [k Hk].
  rewrite Hk. apply elem_of_app. now right.
Qed.

(** X17: [get_installations] returns entries of the scope's ledger in the
    ledger's order, and none of the system ledger without the privilege.
    Without a manager (or with the empty name) they are the most recent
    entries, and all of them when there is no limit or the limit is 0. With
    a manager, every entry returned is of that manager. A positive limit
    bounds the number of entries. *)
Theorem get_installations_spec (limit : option Z) (mgr : option string)
    (sc : string) (hm : History.HistoryManager) :
  let ledger := History.installations (History.history_data hm sc) in
  let res := History.get_installations limit mgr sc hm in
  sublist res ledger
  /\ (History.is_system sc = true ->
      History.can_access_system_history hm = false -> res = [])
  /\ (mgr = None \/ mgr = Some "" ->
      res `suffix_of` ledger
      /\ (History.is_system sc = false \/ History.can_access_system_history hm = true ->
          limit = None \/ limit = Some 0%Z -> res = ledger))
  /\ (forall m, mgr = Some m -> m <> "" ->
        Forall (fun l => exists inst,
                  History.store (History.history_data hm sc) !! l = Some inst
                  /\ History.manager inst = m) res)
  /\ (forall n, limit = Some n -> (0 < n)%Z -> length res <= Z.to_nat n).
Proof.
  cbv zeta. split; [apply get_installations_sublist|]. split; [|split; [|split]].
  - intros Hs Hacc. unfold History.get_installations. now rewrite Hs, Hacc.
  - intros Hm. split.
    + rewrite get_installations_last.
      destruct (History.is_system sc && negb (History.can_access_system_history hm))
        eqn:Hacc; [apply suffix_nil|].
      etransitivity; [apply last_entries_suffix|].
      unfold History.get_installations. rewrite Hacc. cbv zeta.
      destruct Hm as [->| ->]; reflexivity.
    + intros Hacc Hl. unfold History.get_installations.
      replace (History.is_system sc && negb (History.can_access_system_history hm))
        with false
        by (destruct Hacc as [-> | ->]; [reflexivity|now rewrite andb_false_r]).
      cbv zeta. destruct Hm as [->| ->], Hl as [->| ->]; reflexivity.
  - intros m -> Hm. now apply get_installations_manager.
  - intros n -> Hn. rewrite get_installations_last.
    destruct (History.is_system sc && negb (History.can_access_system_history hm));
      [cbn; lia|].
    now apply last_entries_length.
Qed.

Lemma lower_char_idem (c : ascii) :
  PyStr.lower_char (PyStr.lower_char c) = PyStr.lower_char c.
Proof.
  destruct c as [[] [] [] [] [] [] [] []]; vm_compute; reflexivity.
Qed.

Lemma lower_idem (s : string) : PyStr.lower (PyStr.lower s) = PyStr.lower s.
Proof.
  induction s as [|c s IH]; cbn; [reflexivity|].
  now rewrite lower_char_idem, IH.
Qed.

Lemma existsb_contains_lower (q p : string) (l : list string) :
  p ∈ l -> PyStr.lower p = q ->
  existsb (PyStr.contains q) (map PyStr.lower l) = true.
Proof.
  intros Hin <-. apply existsb_exists. exists (PyStr.lower p). split.
  - apply in_map, list_elem_of_In, Hin.
  - apply contains_refl.
Qed.

Lemma filter_all {A : Type} (f : A -> bool) (l : list A) :
  Forall (fun x => f x = true) l -> List.filter f l = l.
Proof.
  induction 1 as [|x l Hx _ IH]; cbn; [reflexivity|].
  now rewrite Hx, IH.
Qed.

Lemma matches_query_spec (q : string) (inst : History.Installation) :
  Ledger.matches_query q inst = true <->
  exists p, (p ∈ History.packages inst \/ p = History.manager inst
             \/ p ∈ History.dependencies inst)
            /\ PyStr.contains q (PyStr.lower p) = true.
Proof.
  unfold Ledger.matches_query. rewrite !orb_true_iff, !existsb_exists. split.
  - intros [[(x & Hx & Hc)|Hc]|(x & Hx & Hc)].
    + apply in_map_iff in Hx as (p & <- & Hp). exists p.
      split; [left; now apply list_elem_of_In|exact Hc].
    + exists (History.manager inst). auto.
    + apply in_map_iff in Hx as (p & <- & Hp). exists p.
      split; [right; right; now apply list_elem_of_In|exact Hc].
  - intros (p & [Hp|[->|Hp]] & Hc).
    + left. left. exists (PyStr.lower p).
      split; [apply in_map, list_elem_of_In, Hp|exact Hc].
    + left. now right.
    + right. exists (PyStr.lower p).
      split; [apply in_map, list_elem_of_In, Hp|exact Hc].
Qed.

(** X18: [search_installations] returns entries of the scope's ledger in
    the ledger's order, and the case of the query does not count: two
    queries that differ in case only give the same result. In a readable
    scope the installations found are exactly those with a package, a
    manager or a dependency whose name in small letters contains the query
    in small letters; so an installation is found by any of these names
    written in any case, and the empty query finds every installation. *)
Theorem search_installations_spec (query sc : string)
    (hm : History.HistoryManager) :
  let hd := History.history_data hm sc in
  let res := Ledger.search_installations query sc hm in
  sublist res (History.installations hd)
  /\ Ledger.search_installations (PyStr.lower query) sc hm = res
  /\ (forall query', PyStr.lower query' = PyStr.lower query ->
      Ledger.search_installations query' sc hm = res)
  /\ (History.is_system sc = false \/ History.can_access_system_history hm = true ->
      (forall l, l ∈ res <->
         l ∈ History.installations hd
         /\ exists inst p,
              History.store hd !! l = Some inst
              /\ (p ∈ History.packages inst \/ p = History.manager inst
                  \/ p ∈ History.dependencies inst)
              /\ PyStr.contains (PyStr.lower query) (PyStr.lower p) = true)
      /\ (forall l inst p,
            l ∈ History.installations hd ->
            History.store hd !! l = Some inst ->
            p ∈ History.packages inst \/ p = History.manager inst
            \/ p ∈ History.dependencies inst ->
            PyStr.lower p = PyStr.lower query ->
            l ∈ res)
      /\ (query = "" -> live hd -> res = History.installations hd)).
Proof.
  cbv zeta. split; [|split; [|split]].
  - unfold Ledger.search_installations.
    destruct (History.is_system sc && negb (History.can_access_system_history hm));
      [apply sublist_nil_l|apply filter_sublist].
  - unfold Ledger.search_installations. now rewrite lower_idem.
  - intros query' Hq. unfold Ledger.search_installations. now rewrite Hq.
  - intros Hacc. unfold Ledger.search_installations.
    replace (History.is_system sc && negb (History.can_access_system_history hm))
      with false
      by (destruct Hacc as [-> | ->]; [reflexivity|now rewrite andb_false_r]).
    cbv zeta.
    assert (Hiff : forall l,
      l ∈ List.filter
            (fun l => match History.store (History.history_data hm sc) !! l with
                      | Some inst =>
                          Ledger.matches_query (PyStr.lower query) inst
                      | None => false
                      end) (History.installations (History.history_data hm sc))
      <-> l ∈ History.installations (History.history_data hm sc)
          /\ exists inst p,
               History.store (History.history_data hm sc) !! l = Some inst
               /\ (p ∈ History.packages inst \/ p = History.manager inst
                   \/ p ∈ History.dependencies inst)
               /\ PyStr.contains (PyStr.lower query) (PyStr.lower p) = true).
    { intros l. split.
      - intros H. apply list_elem_of_In, filter_In in H as [Hl Hm].
        split; [now apply list_elem_of_In|].
        destruct (History.store (History.history_data hm sc) !! l) as [inst|];
          [|discriminate].
        apply matches_query_spec in Hm as (p & Hp & Hc). eauto.
      - intros [Hl (inst & p & Hinst & Hp & Hc)].
        apply list_elem_of_In, filter_In.
        split; [now apply list_elem_of_In|].
        rewrite Hinst. apply matches_query_spec. eauto. }
    split; [exact Hiff|]. split.
    + intros l inst p Hl Hinst Hp Hq. apply Hiff. split; [exact Hl|].
      exists inst, p. split; [exact Hinst|]. split; [exact Hp|].
      rewrite Hq. apply contains_refl.
    + intros -> Hlive. apply filter_all.
      eapply Forall_impl; [exact Hlive|]. intros l [inst ->]. cbn.
      unfold Ledger.matches_query. rewrite contains_empty.
      now rewrite orb_true_r.
Qed.

Lemma counted_set (d : Dict.t nat) (k : string) (v : nat) :
  counted (Dict.set d k v) + default 0 (Dict.get d k) = counted d + v.
Proof.
  unfold counted. induction d as [|[k0 v0] d IH]; cbn; [lia|].
  destruct (String.eqb k0 k); cbn; lia.
Qed.

Lemma counted_count_up (d : Dict.t nat) (k : string) :
  counted (Ledger.count_up d k) = counted d + 1.
Proof.
  unfold Ledger.count_up. pose proof (counted_set d k
    (match Dict.get d k with Some n => n | None => 0 end + 1)) as H.
  destruct (Dict.get d k); cbn in *; lia.
Qed.

Lemma get_count_up (d : Dict.t nat) (k m : string) :
  default 0 (Dict.get (Ledger.count_up d k) m)
  = default 0 (Dict.get d m) + (if String.eqb k m then 1 else 0).
Proof.
  unfold Ledger.count_up. destruct (String.eqb_spec k m) as [->|Hne].
  - rewrite dict_get_set_eq. destruct (Dict.get d m); reflexivity.
  - rewrite dict_get_set_ne by assumption. lia.
Qed.

Lemma dict_set_nodup {V : Type} (d : Dict.t V) (k : string) (v : V) :
  NoDup (Dict.keys d) -> NoDup (Dict.keys (Dict.set d k v)).
Proof.
  unfold Dict.keys. induction d as [|[k0 v0] d IH]; cbn; intros Hnd.
  - apply NoDup_singleton.
  - apply NoDup_cons in Hnd as [Hk0 Hnd].
    destruct (String.eqb k0 k) eqn:E; cbn.
    + apply String.eqb_eq in E. subst k0. now apply NoDup_cons.
    + apply NoDup_cons. split; [|now apply IH].
      intros Hin. apply (dict_keys_set d k v k0) in Hin as [->|Hin].
      * now rewrite String.eqb_refl in E.
      * now apply Hk0.
Qed.

Lemma tally_spec (insts : list History.Installation) :
  forall (used : Dict.t nat) (pkgs : gset string),
  let used' := fst (Ledger.tally insts used pkgs) in
  let pkgs' := snd (Ledger.tally insts used pkgs) in
  counted used' = counted used + length insts
  /\ (NoDup (Dict.keys used) -> NoDup (Dict.keys used'))
  /\ (forall m, default 0 (Dict.get used' m)
        = default 0 (Dict.get used m)
          + length (List.filter (fun i => String.eqb (History.manager i) m) insts))
  /\ (forall m, m ∈ Dict.keys used' <->
        m ∈ Dict.keys used \/ exists inst, inst ∈ insts /\ History.manager inst = m)
  /\ (forall p, p ∈ pkgs' <->
        p ∈ pkgs \/ exists inst, inst ∈ insts /\ p ∈ History.packages inst).
Proof.
  induction insts as [|inst insts IH]; intros used pkgs; cbn [Ledger.tally].
  - cbn [fst snd length List.filter]. split; [lia|]. split; [tauto|].
    split; [intros m; lia|]. split.
    + intros m. split; [tauto|].
      intros [H|(i & H & _)]; [exact H|inversion H].
    + intros p. split; [tauto|].
      intros [H|(i & H & _)]; [exact H|inversion H].
  - specialize (IH (Ledger.count_up used (History.manager inst))
                  (pkgs ∪ list_to_set (History.packages inst))).
    cbv zeta in *. destruct IH as (Hc & Hnd & Hget & Hkeys & Hpk).
    split; [|split; [|split; [|split]]].
    + rewrite Hc, counted_count_up. cbn. lia.
    + intros H. apply Hnd. unfold Ledger.count_up. now apply dict_set_nodup.
    + intros m. rewrite Hget, get_count_up. cbn [List.filter].
      destruct (String.eqb (History.manager inst) m); cbn; lia.
    + intros m. rewrite Hkeys. unfold Ledger.count_up. rewrite dict_keys_set.
      split.
      * intros [[->|H]|(i & Hi & Hm)]; [right|tauto|right].
        -- exists inst. split; [apply list_elem_of_here|reflexivity].
        -- exists i. split; [now apply elem_of_cons; right|exact Hm].
      * intros [H|(i & Hi & Hm)]; [tauto|].
        apply elem_of_cons in Hi as [->|Hi]; [left; left; now symmetry|].
        right. now exists i.
    + intros p. rewrite Hpk, elem_of_union, elem_of_list_to_set. split.
      * intros [[H|H]|(i & Hi & Hp)]; [tauto|right|right].
        -- exists inst. split; [apply list_elem_of_here|exact H].
        -- exists i. split; [now apply elem_of_cons; right|exact Hp].
      * intros [H|(i & Hi & Hp)]; [tauto|].
        apply elem_of_cons in Hi as [->|Hi]; [tauto|].
        right. now exists i.
Qed.

Lemma records_live_length (hd : History.HistoryData) :
  live hd -> length (History.records hd) = length (History.installations hd).
Proof.
  unfold live, History.records. induction 1 as [|l ls [i Hi] _ IH]; cbn;
    [reflexivity|].
  rewrite Hi. cbn. now rewrite IH.
Qed.

(** X19: [get_statistics] refuses the system scope without the privilege.
    Otherwise [managers_used] has one entry per manager of the ledger, whose
    count is the number of that manager's installations, so the counts add
    up to [total_installations]; [packages_installed] holds exactly the
    packages of the ledger's installations; [recent_activity] is the end of
    the ledger's list, ten entries at most. *)
Theorem get_statistics_spec (sc : string) (hm : History.HistoryManager) :
  let hd := History.history_data hm sc in
  (History.is_system sc = true ->
   History.can_access_system_history hm = false ->
   exists e, Ledger.get_statistics sc hm = inl e)
  /\ (History.is_system sc = false \/ History.can_access_system_history hm = true ->
      exists st, Ledger.get_statistics sc hm = inr st
        /\ counted (Ledger.managers_used st) = length (History.records hd)
        /\ (live hd ->
            counted (Ledger.managers_used st) = Ledger.stats_total_installations st)
        /\ NoDup (Dict.keys (Ledger.managers_used st))
        /\ (forall m, default 0 (Dict.get (Ledger.managers_used st) m)
              = length (List.filter
                          (fun i => String.eqb (History.manager i) m)
                          (History.records hd)))
        /\ (forall m, m ∈ Dict.keys (Ledger.managers_used st) <->
              exists inst, inst ∈ History.records hd /\ History.manager inst = m)
        /\ (forall p, p ∈ Ledger.packages_installed st <->
              exists inst, inst ∈ History.records hd
                           /\ p ∈ History.packages inst)
        /\ Ledger.recent_activity st `suffix_of` History.installations hd
        /\ length (Ledger.recent_activity st) <= 10).
Proof.
  cbv zeta. split.
  - intros Hs Hacc. unfold Ledger.get_statistics. rewrite Hs, Hacc. cbn. eauto.
  - intros Hacc. unfold Ledger.get_statistics.
    replace (History.is_system sc && negb (History.can_access_system_history hm))
      with false
      by (destruct Hacc as [-> | ->]; [reflexivity|now rewrite andb_false_r]).
    cbv zeta.
    pose proof (tally_spec (History.records (History.history_data hm sc)) [] ∅)
      as H.
    destruct (Ledger.tally (History.records (History.history_data hm sc)) [] ∅)
      as [used pkgs].
    cbv zeta in H. cbn [fst snd] in H. destruct H as (Hc & Hnd & Hget & Hkeys & Hpk).
    eexists. split; [reflexivity|]. cbn [Ledger.managers_used
      Ledger.stats_total_installations Ledger.packages_installed
      Ledger.recent_activity].
    split; [exact Hc|]. split; [|split; [|split; [|split; [|split; [|split]]]]].
    + intros Hl. rewrite Hc. now apply records_live_length.
    + apply Hnd. constructor.
    + intros m. now rewrite Hget.
    + intros m. rewrite Hkeys. split; [|tauto].
      intros [H|H]; [inversion H|exact H].
    + intros p. rewrite Hpk. split; [|tauto].
      intros [H|H]; [set_solver|exact H].
    + apply suffix_drop.
    + rewrite length_drop. lia.
Qed.

Section SortProps.
Context {A : Type} (key : A -> string).

Local Abbreviation R := (fun a b => String.leb (key a) (key b) = true).

Lemma insert_by_hd (a x : A) (l : list A) :
  R a x -> HdRel R a l -> HdRel R a (Ledger.insert_by key x l).
Proof.
  intros Hax Hal. destruct l as [|y l]; cbn.
  - now constructor.
  - destruct (String.leb (key x) (key y)); constructor; [exact Hax|].
    now inversion Hal.
Qed.

Lemma insert_by_sorted (x : A) (l : list A) :
  Sorted R l -> Sorted R (Ledger.insert_by key x l).
Proof.
  induction 1 as [|y l Hs IH Hhd]; cbn.
  - repeat constructor.
  - destruct (String.leb (key x) (key y)) eqn:E.
    + constructor; [now constructor|now constructor].
    + constructor; [exact IH|]. apply insert_by_hd; [|exact Hhd].
      cbv beta. destruct (String.leb_total (key x) (key y)); congruence.
Qed.

Lemma sort_by_sorted (l : list A) : Sorted R (Ledger.sort_by key l).
Proof.
  unfold Ledger.sort_by. induction l as [|x l IH]; cbn; [constructor|].
  now apply insert_by_sorted.
Qed.

Lemma insert_by_perm (x : A) (l : list A) : Ledger.insert_by key x l ≡ₚ x :: l.
Proof.
  induction l as [|y l IH]; cbn; [reflexivity|].
  destruct (String.leb (key x) (key y)); [reflexivity|].
  rewrite IH. apply Permutation_swap.
Qed.

Lemma sort_by_perm (l : list A) : Ledger.sort_by key l ≡ₚ l.
Proof.
  unfold Ledger.sort_by. induction l as [|x l IH]; cbn; [reflexivity|].
  now rewrite insert_by_perm, IH.
Qed.

Lemma sorted_suffix (l k : list A) : Sorted R (k ++ l) -> Sorted R l.
Proof.
  induction k as [|x k IH]; cbn; [auto|].
  intros H. apply IH. now inversion H.
Qed.

End SortProps.

(** X20: [get_all_installations] returns the entries [get_installations]
    gives for the two scopes, in the order of their time stamps: all of them
    when there is no limit (or the limit is 0), and no more than a positive
    limit. Without the privilege only entries of the user ledger are
    returned. *)
Theorem get_all_installations_spec (limit : option Z) (mgr : option string)
    (hm : History.HistoryManager) :
  let res := Ledger.get_all_installations limit mgr hm in
  let merged :=
    (map (fun l => ("user", l)) (History.get_installations limit mgr "user" hm)
     ++ map (fun l => ("system", l))
          (History.get_installations limit mgr "system" hm))%list in
  by_timestamp hm res
  /\ res ⊆ merged
  /\ (limit = None \/ limit = Some 0%Z -> res ≡ₚ merged)
  /\ (forall n, limit = Some n -> (0 < n)%Z -> length res <= Z.to_nat n)
  /\ (History.can_access_system_history hm = false ->
      Forall (fun r => fst r = "user") res).
Proof.
  cbv zeta. unfold Ledger.get_all_installations. cbv zeta.
  set (merged := (map (fun l => ("user", l)) _ ++ map (fun l => ("system", l)) _)%list).
  destruct (last_entries_suffix limit (Ledger.sort_by (Ledger.timestamp_of hm) merged))
    as [k Hk].
  assert (Hsub : Ledger.last_entries limit
                   (Ledger.sort_by (Ledger.timestamp_of hm) merged) ⊆ merged).
  { intros r Hr. rewrite <- (sort_by_perm (Ledger.timestamp_of hm) merged), Hk.
    apply elem_of_app. now right. }
  split; [|split; [exact Hsub|split; [|split]]].
  - unfold by_timestamp. eapply sorted_suffix. rewrite <- Hk.
    apply sort_by_sorted.
  - intros [->| ->]; cbn; apply sort_by_perm.
  - intros n -> Hn. now apply last_entries_length.
  - intros Hacc. apply Forall_forall. intros r Hr. apply Hsub in Hr.
    subst merged. apply elem_of_app in Hr as [Hr|Hr].
    + apply list_elem_of_fmap in Hr as (l & -> & _). reflexivity.
    + unfold History.get_installations in Hr at 1. rewrite Hacc in Hr.
      cbn in Hr. inversion Hr.
Qed.

Section SyntaxProps.
Context (config_file_exists : string -> bool).

Local Abbreviation step :=
  (fun results kv =>
     if config_file_exists (Plugin.plugin_dir (snd kv)) then
       match Registry.plugin_errors (snd kv) with
       | [] => results
       | errors => Dict.set results (fst kv) errors
       end
     else results).

Lemma syntax_check_other (l : Dict.t Plugin.SimplePlugin) (name : string) :
  forall acc : Dict.t (list string),
  name ∉ Dict.keys l ->
  Dict.get (fold_left step l acc) name = Dict.get acc name.
Proof.
  unfold Dict.keys. induction l as [|[k p] l IH]; intros acc Hn; cbn;
    [reflexivity|].
  cbn in Hn. apply not_elem_of_cons in Hn as [Hk Hn].
  rewrite IH by exact Hn.
  destruct (config_file_exists (Plugin.plugin_dir p)); [|reflexivity].
  cbn. now rewrite dict_get_set_ne by congruence.
Qed.

Lemma syntax_check_entry (l : Dict.t Plugin.SimplePlugin) (name : string)
    (p : Plugin.SimplePlugin) :
  forall acc : Dict.t (list string),
  NoDup (Dict.keys l) -> (name, p) ∈ l -> Dict.get acc name = None ->
  Dict.get (fold_left step l acc) name
  = if config_file_exists (Plugin.plugin_dir p)
    then Some (Registry.plugin_errors p) else None.
Proof.
  unfold Dict.keys. induction l as [|[k q] l IH]; intros acc Hnd Hin Hacc;
    [inversion Hin|].
  cbn in Hnd. apply NoDup_cons in Hnd as [Hk Hnd].
  apply elem_of_cons in Hin as [Heq|Hin].
  - inversion Heq; subst k q. cbn [fold_left].
    rewrite syntax_check_other by exact Hk. cbn [fst snd].
    destruct (config_file_exists (Plugin.plugin_dir p)); [|exact Hacc].
    cbn. now rewrite dict_get_set_eq.
  - cbn [fold_left]. apply IH; [exact Hnd|exact Hin|].
    assert (Hne : k <> name).
    { intros ->. apply Hk. apply list_elem_of_fmap. now exists (name, p). }
    cbn [fst snd]. destruct (config_file_exists (Plugin.plugin_dir q));
      [|exact Hacc].
    cbn. now rewrite dict_get_set_ne by exact Hne.
Qed.

End SyntaxProps.

Lemma event_errors_nil (ev : string * list string) :
  Registry.event_errors ev = [] <->
  snd ev <> [] /\ Forall (fun a => Registry.has_action_prefix a = true) (snd ev).
Proof.
  unfold Registry.event_errors. destruct ev as [e actions]. cbn [fst snd].
  destruct actions as [|a actions].
  - cbn. split; [discriminate|]. intros [H _]. now contradiction H.
  - cbn [app]. split.
    + intros H. split; [discriminate|].
      apply map_eq_nil in H. apply Forall_forall. intros x Hx.
      destruct (Registry.has_action_prefix x) eqn:E; [reflexivity|].
      assert (Hin : In x (List.filter
                (fun action => negb (Registry.has_action_prefix action))
                (a :: actions))).
      { apply filter_In. split; [now apply list_elem_of_In|now rewrite E]. }
      rewrite H in Hin. destruct Hin.
    + intros [_ H].
      assert (Hf : List.filter
                (fun action => negb (Registry.has_action_prefix action))
                (a :: actions) = []).
      { induction H as [|x l Hx _ IH]; [reflexivity|].
        cbn [List.filter]. now rewrite Hx. }
      now rewrite Hf.
Qed.

Lemma flat_map_nil {A B : Type} (f : A -> list B) (l : list A) :
  flat_map f l = [] <-> Forall (fun x => f x = []) l.
Proof.
  induction l as [|x l IH]; cbn.
  - split; [constructor|reflexivity].
  - split.
    + intros H. apply app_eq_nil in H as [Hx Hl].
      constructor; [exact Hx|now apply IH].
    + intros H. inversion H as [|? ? Hx Hl]; subst.
      rewrite Hx. now apply IH.
Qed.

(** X21: [syntax_check_plugins] never reports a plugin whose configuration
    file is missing: the error is appended and the loop goes on to the next
    plugin before the errors are stored. A plugin whose file exists is
    always reported, with [Plugin name not specified] first, since the
    configuration [_load_config] builds has no name; that is its only error
    exactly when every event has an action and every action starts with
    [run:], [script:], [notify:] or [log:]. *)
Theorem syntax_check_plugins_spec (config_file_exists : string -> bool)
    (pm : Plugin.PluginManager) (name : string) (p : Plugin.SimplePlugin) :
  NoDup (Dict.keys (Plugin.plugins pm)) ->
  (name, p) ∈ Plugin.plugins pm ->
  let results := Registry.syntax_check_plugins config_file_exists pm in
  (config_file_exists (Plugin.plugin_dir p) = false ->
   Dict.get results name = None)
  /\ (config_file_exists (Plugin.plugin_dir p) = true ->
      exists errors,
        Dict.get results name = Some ("Plugin name not specified" :: errors)
        /\ (errors = [] <->
            Forall (fun ev =>
                      snd ev <> []
                      /\ Forall (fun a => Registry.has_action_prefix a = true)
                           (snd ev))
              (Plugin.events (Plugin.config p)))).
Proof.
  intros Hnd Hin. cbv zeta. unfold Registry.syntax_check_plugins.
  rewrite (syntax_check_entry config_file_exists _ name p [] Hnd Hin eq_refl).
  split; intros ->; [reflexivity|].
  eexists. split; [reflexivity|].
  rewrite flat_map_nil. apply Forall_iff. intros ev. apply event_errors_nil.
Qed.

Lemma syntax_check_plugins_spec_witness :
  let pm := {| Plugin.plugins :=
                 [("user-a", Sim.plugin "user-a" true
                               [("post-install", ["run:true"; "log:done"])]);
                  ("user-b", Sim.plugin "user-b" true [])];
               Plugin.enabled_plugins := [] |} in
  let results :=
    Registry.syntax_check_plugins (fun d => String.eqb d "/plugins/user-a") pm in
  Dict.get results "user-a" = Some ["Plugin name not specified"]
  /\ Dict.get results "user-b" = None.
Proof.
  cbv zeta. split.
  - destruct (syntax_check_plugins_spec (fun d => String.eqb d "/plugins/user-a")
               {| Plugin.plugins :=
                    [("user-a", Sim.plugin "user-a" true
                                  [("post-install", ["run:true"; "log:done"])]);
                     ("user-b", Sim.plugin "user-b" true [])];
                  Plugin.enabled_plugins := [] |}
               "user-a"
               (Sim.plugin "user-a" true
                  [("post-install", ["run:true"; "log:done"])]))
      as [_ H].
    + cbn. compute_done.
    + apply list_elem_of_here.
    + destruct (H eq_refl) as (errors & Hget & Hnil).
      rewrite Hget. f_equal. f_equal. apply Hnil.
      repeat constructor. discriminate.
  - reflexivity.
Defined.

Lemma last_slice_suffix {A : Type} (m : Z) (l : list A) :
  Retention.last_slice m l `suffix_of` l.
Proof. unfold Retention.last_slice. destruct (0 <? m)%Z; apply suffix_drop. Qed.

Lemma last_slice_length {A : Type} (m : Z) (l : list A) :
  (0 < m)%Z -> length (Retention.last_slice m l) <= Z.to_nat m.
Proof.
  intros Hm. unfold Retention.last_slice.
  destruct (Z.ltb_spec 0 m); [|lia]. rewrite length_drop. lia.
Qed.



Section KeepProps.
Context {World : Type} (cal : Retention.Calendar World).

Lemma keep_recent_naive (cutoff_date : Z) (st : list History.Installation)
    (locs : list nat) :
  Forall (fun l => forall inst, st !! l = Some inst -> naive cal inst) locs ->
  exists kept,
    Retention.keep_recent cal cutoff_date st locs = Ok kept
    /\ sublist kept locs
    /\ (forall l, l ∈ kept <->
          l ∈ locs /\ exists inst, st !! l = Some inst
                       /\ Retention.recent cal cutoff_date inst = Ok true).
Proof.
  induction 1 as [|l locs Hl _ IH]; cbn [Retention.keep_recent].
  - exists []. split; [reflexivity|]. split; [constructor|].
    intros l. split; [intros H; inversion H|intros [H _]; inversion H].
  - destruct IH as (kept & -> & Hsub & Hmem).
    destruct (st !! l) as [inst|] eqn:Hst.
    + specialize (Hl inst eq_refl).
      assert (Hr : exists b, Retention.recent cal cutoff_date inst = Ok b).
      { unfold Retention.recent.
        destruct (Retention.fromisoformat cal (History.timestamp inst))
          as [[[] t]|] eqn:E; eauto. now contradiction (Hl t). }
      destruct Hr as [b Hb]. rewrite Hb. cbn. destruct b.
      * exists (l :: kept). split; [reflexivity|].
        split; [now apply sublist_skip|].
        intros l'. rewrite !elem_of_cons, Hmem. split.
        -- intros [->|[Hin Hex]]; [split; [now left|eauto]|tauto].
        -- intros [[->|Hin] Hex]; [now left|tauto].
      * exists kept. split; [reflexivity|].
        split; [now apply sublist_cons|].
        intros l'. rewrite elem_of_cons, Hmem. split; [tauto|].
        intros [[->|Hin] (i & Hi & Hrec)]; [congruence|eauto].
    + exists kept. split; [reflexivity|]. split; [now apply sublist_cons|].
      intros l'. rewrite elem_of_cons, Hmem. split; [tauto|].
      intros [[->|Hin] (i & Hi & Hrec)]; [congruence|eauto].
Qed.

Lemma keep_recent_aware (cutoff_date : Z) (st : list History.Installation)
    (locs : list nat) :
  (exists l inst, l ∈ locs /\ st !! l = Some inst /\ ~ naive cal inst) ->
  Retention.keep_recent cal cutoff_date st locs = Raise "TypeError".
Proof.
  assert (Hstep : forall inst,
            Retention.recent cal cutoff_date inst = Raise "TypeError"
            \/ exists b, Retention.recent cal cutoff_date inst = Ok b).
  { intros inst. unfold Retention.recent.
    destruct (Retention.fromisoformat cal (History.timestamp inst))
      as [[[] t]|]; eauto. }
  induction locs as [|l' locs IH]; intros (l & inst & Hin & Hst & Haw).
  - inversion Hin.
  - cbn [Retention.keep_recent]. apply elem_of_cons in Hin as [->|Hin].
    + rewrite Hst.
      assert (Hr : Retention.recent cal cutoff_date inst = Raise "TypeError").
      { unfold Retention.recent.
        destruct (Retention.fromisoformat cal (History.timestamp inst))
          as [[[] t]|] eqn:E; [reflexivity| |];
          exfalso; apply Haw; intros t'; congruence. }
      now rewrite Hr.
    + assert (Hrest : Retention.keep_recent cal cutoff_date st locs
                      = Raise "TypeError") by (apply IH; eauto).
      destruct (st !! l') as [i|]; [|exact Hrest].
      destruct (Hstep i) as [->|[b ->]]; [reflexivity|].
      cbn. now rewrite Hrest.
Qed.

End KeepProps.

(** X23: the clean-up when the cut-off day exists. If the time stamp of
    some installation of the ledger carries an offset from UTC, the
    comparison with the cut-off raises [TypeError] and the method leaves
    with it, nothing changed or saved. Otherwise it returns the number of
    entries dropped and keeps entries of the ledger in their order: each
    kept entry is not older than the cut-off or has a time stamp that cannot
    be read, and with [history_max_entries = 0] every such entry is kept
    (the slice [[-0:]] is the whole list), while a positive
    [history_max_entries] bounds the entries kept; [total_installations] is
    set to the number kept; the dictionaries and the rollbacks stay. *)
Theorem cleanup_old_entries_spec {World : Type}
    (be : History.Backend World) (cal : Retention.Calendar World)
    (settings : Retention.Settings) (sc : string)
    (hm : History.HistoryManager) (w : World) :
  let max_entries := default 1000%Z (Retention.history_max_entries settings) in
  let cutoff_day :=
    (Retention.day cal w
     - default 365 (Retention.history_retention_days settings))%Z in
  let hd := History.history_data hm sc in
  History.is_system sc = false \/ History.can_access_system_history hm = true ->
  (1 <= cutoff_day <= Retention.days_in_month cal w)%Z ->
  ((exists l inst, l ∈ History.installations hd
                   /\ History.store hd !! l = Some inst /\ ~ naive cal inst) ->
   Retention.cleanup_old_entries be cal settings sc hm w
   = (Raise "TypeError", hm, w))
  /\ (Forall (fun l => forall inst, History.store hd !! l = Some inst ->
                                   naive cal inst)
        (History.installations hd) ->
      exists (n : Z) (hm' : History.HistoryManager) (w' : World),
        Retention.cleanup_old_entries be cal settings sc hm w = (Ok n, hm', w')
        /\ let hd' := History.history_data hm' sc in
           sublist (History.installations hd') (History.installations hd)
           /\ n = (Z.of_nat (length (History.installations hd))
                   - Z.of_nat (length (History.installations hd')))%Z
           /\ History.total_installations (History.metadata hd')
              = Z.of_nat (length (History.installations hd'))
           /\ History.store hd' = History.store hd
           /\ History.rollbacks hd' = History.rollbacks hd
           /\ Forall (fun l => exists inst,
                        History.store hd !! l = Some inst
                        /\ Retention.recent cal
                             (Retention.midnight cal w cutoff_day) inst
                           = Ok true)
                (History.installations hd')
           /\ ((0 < max_entries)%Z ->
               (Z.of_nat (length (History.installations hd')) <= max_entries)%Z)
           /\ (max_entries = 0%Z ->
               forall l inst, l ∈ History.installations hd ->
                 History.store hd !! l = Some inst ->
                 Retention.recent cal (Retention.midnight cal w cutoff_day) inst
                 = Ok true ->
                 l ∈ History.installations hd')).
Proof.
  cbv zeta. intros Hacc Hday. unfold Retention.cleanup_old_entries.
  replace (History.is_system sc && negb (History.can_access_system_history hm))
    with false
    by (destruct Hacc as [-> | ->]; [reflexivity|now rewrite andb_false_r]).
  cbv zeta. unfold Retention.replace_day.
  destruct (Z.leb_spec 1 (Retention.day cal w
              - default 365%Z (Retention.history_retention_days settings)));
    [|lia].
  destruct (Z.leb_spec (Retention.day cal w
              - default 365%Z (Retention.history_retention_days settings))
              (Retention.days_in_month cal w)); [|lia].
  cbn [andb].
  set (cutoff := Retention.midnight cal w _).
  set (hd := History.history_data hm sc).
  split.
  - intros Haw. now rewrite (keep_recent_aware cal cutoff _ _ Haw).
  - intros Hnaive.
    destruct (keep_recent_naive cal cutoff _ _ Hnaive)
      as (kept & -> & Hsub & Hmem).
    set (trimmed := if (_ <? _)%Z then _ else kept).
    destruct (History.now be w) as [t w1].
    eexists _, _, _. split; [reflexivity|].
    rewrite history_data_set, eqb_reflx. cbn [History.installations
      History.metadata History.total_installations History.store
      History.rollbacks].
    assert (Hsuf : trimmed `suffix_of` kept).
    { subst trimmed. destruct (_ <? _)%Z; [apply last_slice_suffix|reflexivity]. }
    split; [|split; [|split; [|split; [|split; [|split; [|split]]]]]];
      try reflexivity.
    + etransitivity; [apply suffix_is_sublist, Hsuf|exact Hsub].
    + apply Forall_forall. intros l Hl.
      destruct Hsuf as [k Hk]. rewrite Hk in Hmem.
      apply (Hmem l). apply elem_of_app. now right.
    + intros Hmax. subst trimmed.
      destruct (Z.ltb_spec
                  (default 1000%Z (Retention.history_max_entries settings))
                  (Z.of_nat (length kept))); [|lia].
      pose proof (last_slice_length _ kept Hmax). lia.
    + intros Hmax l inst Hl Hinst Hrec. subst trimmed. rewrite Hmax.
      assert (Hin : l ∈ kept) by (apply Hmem; eauto).
      destruct (0 <? Z.of_nat (length kept))%Z; exact Hin.
Qed.

Lemma cleanup_old_entries_spec_witness :
  exists n hm' w',
    Retention.cleanup_old_entries Sim.backend june
      {| Retention.history_max_entries := Some 1%Z;
         Retention.history_retention_days := Some 7%Z |}
      "user" (fst (Sim.partly_removed "dnf" ["htop"] (Sim.machine [] [] [] [])))
      (Sim.machine [] [] [] [])
    = (Ok n, hm', w')
    /\ n = 1%Z
    /\ History.total_installations
         (History.metadata (History.history_data hm' "user")) = 1%Z.
Proof.
  destruct (cleanup_old_entries_spec Sim.backend june
              {| Retention.history_max_entries := Some 1%Z;
                 Retention.history_retention_days := Some 7%Z |}
              "user"
              (fst (Sim.partly_removed "dnf" ["htop"] (Sim.machine [] [] [] [])))
              (Sim.machine [] [] [] []))
    as [_ H]; [now left|cbn; lia|].
  destruct H as (n & hm' & w' & Heq & _ & Hn & Htot & _).
  - apply Forall_forall. intros l _ inst _ t. discriminate.
  - exists n, hm', w'. split; [exact Heq|].
    vm_compute in Heq. inversion Heq; subst n hm'. split; reflexivity.
Defined.

Lemma append_cons (c : ascii) (s t : string) :
  String c s +:+ t = String c (s +:+ t).
Proof. reflexivity. Qed.

Lemma append_assoc_str (a b c : string) : (a +:+ b) +:+ c = a +:+ (b +:+ c).
Proof.
  induction a as [|x a IH]; [reflexivity|].
  rewrite !append_cons. now rewrite IH.
Qed.

(** ** The text of a configuration, written and read *)

(** *** Stripping *)

Lemma rstrip_nonspace_cons (c : ascii) (s : string) :
  Conf.is_space c = false ->
  Conf.rstrip (String c s) = String c (Conf.rstrip s).
Proof.
  intros H. cbn [Conf.rstrip]. destruct (Conf.rstrip s); [now rewrite H|reflexivity].
Qed.

Lemma rstrip_snoc_space (x : string) (c : ascii) :
  Conf.is_space c = true ->
  Conf.rstrip (x +:+ String c EmptyString) = Conf.rstrip x.
Proof.
  intros H. induction x as [|a x IH].
  - change (Conf.rstrip (String c "") = ""). cbn [Conf.rstrip]. now rewrite H.
  - rewrite append_cons. cbn [Conf.rstrip]. now rewrite IH.
Qed.

Lemma rstrip_snoc_nonspace (x : string) (c : ascii) :
  Conf.is_space c = false ->
  Conf.rstrip (x +:+ String c EmptyString) = x +:+ String c EmptyString.
Proof.
  intros H. induction x as [|a x IH].
  - change (Conf.rstrip (String c "") = String c ""). cbn [Conf.rstrip].
    now rewrite H.
  - rewrite append_cons. cbn [Conf.rstrip]. rewrite IH.
    destruct x; reflexivity.
Qed.

Lemma lstrip_snoc_space (l : string) (c : ascii) :
  Conf.is_space c = true ->
  Conf.lstrip (l +:+ String c EmptyString)
  = match Conf.lstrip l with
    | EmptyString => EmptyString
    | String a r => String a r +:+ String c EmptyString
    end.
Proof.
  intros H. induction l as [|a l IH].
  - change (Conf.lstrip (String c "") = ""). cbn [Conf.lstrip]. now rewrite H.
  - rewrite append_cons. cbn [Conf.lstrip].
    destruct (Conf.is_space a); [exact IH|reflexivity].
Qed.

Lemma strip_newline (l : string) :
  Conf.strip (l +:+ String Conf.LF EmptyString) = Conf.strip l.
Proof.
  unfold Conf.strip. rewrite lstrip_snoc_space by reflexivity.
  destruct (Conf.lstrip l) as [|a r]; [reflexivity|].
  now apply rstrip_snoc_space.
Qed.

Lemma rstrip_solid (p d : string) :
  solid p = true -> Conf.rstrip (p +:+ d) = p +:+ Conf.rstrip d.
Proof.
  unfold solid. induction p as [|c p IH]; cbn [list_ascii_of_string forallb];
    intros H; [reflexivity|].
  apply andb_true_iff in H as [Hc Hp]. apply negb_true_iff in Hc.
  rewrite !append_cons, rstrip_nonspace_cons by exact Hc. now rewrite IH.
Qed.

Lemma strip_solid (c : ascii) (p d : string) :
  solid (String c p) = true ->
  Conf.strip (String c p +:+ d) = String c p +:+ Conf.rstrip d.
Proof.
  intros H. unfold Conf.strip. rewrite append_cons. cbn [Conf.lstrip].
  assert (Hc : Conf.is_space c = false).
  { unfold solid in H. cbn in H. apply andb_true_iff in H as [Hc _].
    now apply negb_true_iff in Hc. }
  rewrite Hc, <- append_cons. now apply rstrip_solid.
Qed.

Lemma strip_header (e : string) :
  Conf.strip ("[" +:+ e +:+ "]") = "[" +:+ e +:+ "]".
Proof.
  unfold Conf.strip. change ("[" +:+ e +:+ "]") with (String "[" (e +:+ "]")).
  cbn [Conf.lstrip].
  change (Conf.is_space "[") with false. cbv iota.
  rewrite rstrip_nonspace_cons by reflexivity.
  now rewrite rstrip_snoc_nonspace by reflexivity.
Qed.

(** *** The tests on a line *)

Lemma prefix_append (p d : string) : String.prefix p (p +:+ d) = true.
Proof.
  induction p as [|c p IH].
  - destruct d; reflexivity.
  - rewrite append_cons. cbn. destruct (ascii_dec c c); [exact IH|congruence].
Qed.

Lemma endswith_snoc (e : string) (c : ascii) :
  Conf.endswith (String c "") (e +:+ String c "") = true.
Proof.
  induction e as [|a e IH].
  - change (Conf.endswith (String c "") (String c "") = true).
    cbn [Conf.endswith]. now rewrite String.eqb_refl.
  - rewrite append_cons. cbn [Conf.endswith]. rewrite IH. apply orb_true_r.
Qed.

Lemma drop_last_snoc (e : string) (c : ascii) :
  Conf.drop_last (e +:+ String c "") = e.
Proof.
  induction e as [|a e IH]; [reflexivity|].
  rewrite append_cons. cbn [Conf.drop_last]. rewrite IH.
  destruct e; reflexivity.
Qed.

(** *** Rounds of the loop *)

Lemma parse_line_newline (l : string) (st : Conf.Parse) :
  Conf.parse_line (l +:+ String Conf.LF EmptyString) st = Conf.parse_line l st.
Proof. unfold Conf.parse_line. now rewrite strip_newline. Qed.

Lemma parse_line_description (d : string) (st : Conf.Parse) :
  Conf.parse_line ("description=" +:+ d) st
  = Some {| Conf.parsed :=
              {| Plugin.enabled := Plugin.enabled (Conf.parsed st);
                 Plugin.description := Conf.rstrip d;
                 Plugin.version := Plugin.version (Conf.parsed st);
                 Plugin.author := Plugin.author (Conf.parsed st);
                 Plugin.events := Plugin.events (Conf.parsed st) |};
            Conf.current_event := Conf.current_event st |}.
Proof.
  unfold Conf.parse_line. rewrite strip_solid by reflexivity. cbv zeta.
  unfold PyStr.startswith. rewrite (prefix_append "description=").
  reflexivity.
Qed.

Lemma parse_line_version (d : string) (st : Conf.Parse) :
  Conf.parse_line ("version=" +:+ d) st
  = Some {| Conf.parsed :=
              {| Plugin.enabled := Plugin.enabled (Conf.parsed st);
                 Plugin.description := Plugin.description (Conf.parsed st);
                 Plugin.version := Conf.rstrip d;
                 Plugin.author := Plugin.author (Conf.parsed st);
                 Plugin.events := Plugin.events (Conf.parsed st) |};
            Conf.current_event := Conf.current_event st |}.
Proof.
  unfold Conf.parse_line. rewrite strip_solid by reflexivity. cbv zeta.
  unfold PyStr.startswith. rewrite (prefix_append "version=").
  reflexivity.
Qed.

Lemma parse_line_author (d : string) (st : Conf.Parse) :
  Conf.parse_line ("author=" +:+ d) st
  = Some {| Conf.parsed :=
              {| Plugin.enabled := Plugin.enabled (Conf.parsed st);
                 Plugin.description := Plugin.description (Conf.parsed st);
                 Plugin.version := Plugin.version (Conf.parsed st);
                 Plugin.author := Conf.rstrip d;
                 Plugin.events := Plugin.events (Conf.parsed st) |};
            Conf.current_event := Conf.current_event st |}.
Proof.
  unfold Conf.parse_line. rewrite strip_solid by reflexivity. cbv zeta.
  unfold PyStr.startswith. rewrite (prefix_append "author=").
  reflexivity.
Qed.

Lemma parse_line_enabled (b : bool) (st : Conf.Parse) :
  Conf.parse_line ("enabled=" +:+ (if b then "True" else "False")) st
  = Some {| Conf.parsed :=
              {| Plugin.enabled := b;
                 Plugin.description := Plugin.description (Conf.parsed st);
                 Plugin.version := Plugin.version (Conf.parsed st);
                 Plugin.author := Plugin.author (Conf.parsed st);
                 Plugin.events := Plugin.events (Conf.parsed st) |};
            Conf.current_event := Conf.current_event st |}.
Proof. destruct b; reflexivity. Qed.

Lemma parse_line_blank (st : Conf.Parse) : Conf.parse_line "" st = Some st.
Proof. reflexivity. Qed.

Lemma parse_line_header (e : string) (st : Conf.Parse) :
  Conf.parse_line ("[" +:+ e +:+ "]") st
  = Some {| Conf.parsed :=
              Conf.with_events (Conf.parsed st)
                (Dict.set (Plugin.events (Conf.parsed st)) e []);
            Conf.current_event := Some e |}.
Proof.
  unfold Conf.parse_line. rewrite strip_header. cbv zeta.
  change ("[" +:+ e +:+ "]") with (String "[" (e +:+ "]")).
  assert (He : Conf.endswith "]" (String "[" (e +:+ "]")) = true).
  { cbn [Conf.endswith]. rewrite (endswith_snoc e "]"). apply orb_true_r. }
  assert (Hi : Conf.inner (String "[" (e +:+ "]")) = e).
  { unfold Conf.inner. cbn [PyStr.drop]. apply (drop_last_snoc e "]"). }
  rewrite Hi.
  assert (Hp : PyStr.startswith "[" (String "[" (e +:+ "]")) = true).
  { unfold PyStr.startswith. cbn. destruct (e +:+ "]"); reflexivity. }
  rewrite He, Hp. reflexivity.
Qed.

Lemma parse_line_action (a e : string) (actions : list string)
    (st : Conf.Parse) :
  Conf.current_event st = Some e -> e <> "" ->
  Dict.get (Plugin.events (Conf.parsed st)) e = Some actions ->
  Conf.parse_line ("action=" +:+ a) st
  = Some {| Conf.parsed :=
              Conf.with_events (Conf.parsed st)
                (Dict.set (Plugin.events (Conf.parsed st)) e
                   (actions ++ [Conf.rstrip a])%list);
            Conf.current_event := Some e |}.
Proof.
  intros Hcur He Hget. unfold Conf.parse_line.
  rewrite strip_solid by reflexivity. cbv zeta.
  unfold PyStr.startswith. rewrite (prefix_append "action=").
  rewrite Hcur, Hget. apply String.eqb_neq in He. rewrite He. reflexivity.
Qed.

Lemma parse_line_action_unnamed (a : string) (st : Conf.Parse) :
  Conf.current_event st = Some "" ->
  Conf.parse_line ("action=" +:+ a) st = Some st.
Proof.
  intros Hcur. unfold Conf.parse_line.
  rewrite strip_solid by reflexivity. cbv zeta. rewrite Hcur. reflexivity.
Qed.

(** *** The dictionary of events *)

Lemma dict_set_fresh {V : Type} (d : Dict.t V) (k : string) (v : V) :
  k ∉ Dict.keys d -> Dict.set d k v = (d ++ [(k, v)])%list.
Proof.
  unfold Dict.keys. induction d as [|[k0 v0] d IH]; cbn; intros H;
    [reflexivity|].
  apply not_elem_of_cons in H as [Hk H].
  assert (E : String.eqb k0 k = false) by (apply String.eqb_neq; congruence).
  rewrite E. now rewrite IH.
Qed.

Lemma dict_get_last {V : Type} (d : Dict.t V) (k : string) (v : V) :
  k ∉ Dict.keys d -> Dict.get (d ++ [(k, v)])%list k = Some v.
Proof.
  unfold Dict.keys. induction d as [|[k0 v0] d IH]; cbn; intros H.
  - now rewrite String.eqb_refl.
  - apply not_elem_of_cons in H as [Hk H].
    assert (E : String.eqb k0 k = false) by (apply String.eqb_neq; congruence).
    rewrite E. now apply IH.
Qed.

Lemma dict_set_last {V : Type} (d : Dict.t V) (k : string) (v v' : V) :
  k ∉ Dict.keys d ->
  Dict.set (d ++ [(k, v)])%list k v' = (d ++ [(k, v')])%list.
Proof.
  unfold Dict.keys. induction d as [|[k0 v0] d IH]; cbn; intros H.
  - now rewrite String.eqb_refl.
  - apply not_elem_of_cons in H as [Hk H].
    assert (E : String.eqb k0 k = false) by (apply String.eqb_neq; congruence).
    rewrite E. now rewrite IH.
Qed.

(** *** The lines of one event, and of all of them *)

Lemma with_events_twice (c : Plugin.PluginConfig)
    (x y : Dict.t (list string)) :
  Conf.with_events (Conf.with_events c x) y = Conf.with_events c y.
Proof. reflexivity. Qed.

Lemma events_with_events (c : Plugin.PluginConfig) (x : Dict.t (list string)) :
  Plugin.events (Conf.with_events c x) = x.
Proof. reflexivity. Qed.

Lemma parse_actions (c : Plugin.PluginConfig) (done : Dict.t (list string))
    (e : string) (rest : list string) (acts : list string) :
  e <> "" -> e ∉ Dict.keys done ->
  forall pre : list string,
  Conf.parse_lines (map (fun a => "action=" +:+ a) acts ++ rest)%list
    {| Conf.parsed := Conf.with_events c (done ++ [(e, pre)])%list;
       Conf.current_event := Some e |}
  = Conf.parse_lines rest
      {| Conf.parsed :=
           Conf.with_events c (done ++ [(e, (pre ++ map Conf.rstrip acts)%list)])%list;
         Conf.current_event := Some e |}.
Proof.
  intros He Hk. induction acts as [|a acts IH]; intros pre.
  - cbn [map app]. now rewrite app_nil_r.
  - cbn [map app Conf.parse_lines].
    rewrite (parse_line_action a e pre); [|reflexivity|exact He|].
    + cbn [Conf.parsed]. rewrite with_events_twice, events_with_events.
      rewrite dict_set_last by exact Hk.
      rewrite IH. now rewrite <- app_assoc.
    + cbn [Conf.parsed]. rewrite events_with_events.
      now apply dict_get_last.
Qed.

Lemma parse_actions_unnamed (rest : list string) (acts : list string)
    (st : Conf.Parse) :
  Conf.current_event st = Some "" ->
  Conf.parse_lines (map (fun a => "action=" +:+ a) acts ++ rest)%list st
  = Conf.parse_lines rest st.
Proof.
  intros Hcur. induction acts as [|a acts IH]; [reflexivity|].
  cbn [map app Conf.parse_lines].
  now rewrite parse_line_action_unnamed by exact Hcur.
Qed.

Lemma parse_events (c : Plugin.PluginConfig) (evs : Dict.t (list string)) :
  forall (done : Dict.t (list string)) (cur : option string),
  NoDup (Dict.keys done ++ Dict.keys evs)%list ->
  Conf.parse_lines (flat_map Conf.event_lines evs)
    {| Conf.parsed := Conf.with_events c done; Conf.current_event := cur |}
  = Conf.with_events c
      (done ++ map (fun ev => (fst ev, if String.eqb (fst ev) "" then []
                                       else map Conf.rstrip (snd ev))) evs)%list.
Proof.
  induction evs as [|[e acts] evs IH]; intros done cur Hnd.
  - cbn. now rewrite app_nil_r.
  - cbn [flat_map Conf.event_lines fst snd].
    assert (He : e ∉ Dict.keys done).
    { apply NoDup_app in Hnd as (_ & Hd & _). intros Hin.
      apply (Hd e Hin). unfold Dict.keys. cbn. apply list_elem_of_here. }
    assert (Hnd' : forall v : list string,
               NoDup (Dict.keys (done ++ [(e, v)])%list ++ Dict.keys evs)%list).
    { intros v. unfold Dict.keys in *. rewrite map_app. cbn [map fst].
      rewrite <- app_assoc. exact Hnd. }
    unfold Conf.event_lines at 1. cbn [fst snd].
    rewrite <- app_comm_cons. cbn [Conf.parse_lines].
    rewrite parse_line_header.
    cbn [Conf.parsed]. rewrite with_events_twice, events_with_events.
    rewrite dict_set_fresh by exact He.
    rewrite <- app_assoc. cbn [map fst snd].
    destruct (String.eqb_spec e "") as [->|Hne].
    + rewrite parse_actions_unnamed by reflexivity.
      cbn [app Conf.parse_lines]. rewrite parse_line_blank.
      rewrite IH by apply Hnd'. now rewrite <- app_assoc.
    + rewrite (parse_actions c done e _ acts Hne He []).
      cbn [app Conf.parse_lines]. rewrite parse_line_blank.
      rewrite IH by apply Hnd'. now rewrite <- app_assoc.
Qed.

Lemma parse_config_lines (c : Plugin.PluginConfig) :
  NoDup (Dict.keys (Plugin.events c)) ->
  Conf.parse_lines (Conf.config_lines c)
    {| Conf.parsed := Conf.default_config; Conf.current_event := None |}
  = as_read c.
Proof.
  intros Hnd. unfold Conf.config_lines. cbn [app Conf.parse_lines].
  rewrite parse_line_description. rewrite parse_line_version.
  rewrite parse_line_author. rewrite parse_line_enabled.
  rewrite parse_line_blank.
  cbn [Conf.parsed Conf.current_event Plugin.enabled Plugin.description
         Plugin.version Plugin.author Plugin.events Conf.default_config].
  change {| Plugin.enabled := Plugin.enabled c;
            Plugin.description := Conf.rstrip (Plugin.description c);
            Plugin.version := Conf.rstrip (Plugin.version c);
            Plugin.author := Conf.rstrip (Plugin.author c);
            Plugin.events := [] |}
    with (Conf.with_events
            {| Plugin.enabled := Plugin.enabled c;
               Plugin.description := Conf.rstrip (Plugin.description c);
               Plugin.version := Conf.rstrip (Plugin.version c);
               Plugin.author := Conf.rstrip (Plugin.author c);
               Plugin.events := [] |} []).
  rewrite parse_events by exact Hnd. reflexivity.
Qed.

(** *** Reading the lines back *)

Lemma no_break_cons (c : ascii) (s : string) :
  no_break (String c s) <-> (c <> Conf.LF /\ c <> Conf.CR) /\ no_break s.
Proof.
  unfold no_break. cbn [list_ascii_of_string]. split.
  - intros H. split; [apply H, list_elem_of_here|].
    intros x Hx. apply H. now apply elem_of_cons; right.
  - intros [Hc Hs] x Hx. apply elem_of_cons in Hx as [->|Hx]; auto.
Qed.

Lemma no_break_append (p d : string) :
  no_break p -> no_break d -> no_break (p +:+ d).
Proof.
  induction p as [|c p IH]; intros Hp Hd; [exact Hd|].
  rewrite append_cons. apply no_break_cons.
  apply no_break_cons in Hp as [Hc Hp]. auto.
Qed.

Lemma no_break_solid (p : string) : solid p = true -> no_break p.
Proof.
  unfold solid. induction p as [|c p IH]; cbn [list_ascii_of_string forallb].
  - intros _ x Hx. inversion Hx.
  - intros H. apply andb_true_iff in H as [Hc Hp]. apply no_break_cons.
    split; [|now apply IH].
    apply negb_true_iff in Hc. split; intros ->; discriminate.
Qed.

Lemma readlines_from_line (l : string) :
  no_break l -> forall line rest : string,
  Conf.readlines_from line (l +:+ String Conf.LF rest)
  = (line +:+ l +:+ String Conf.LF EmptyString)
    :: Conf.readlines_from EmptyString rest.
Proof.
  induction l as [|c l IH]; intros Hl line rest.
  - reflexivity.
  - apply no_break_cons in Hl as [[Hlf Hcr] Hl].
    rewrite append_cons. cbn [Conf.readlines_from].
    apply Ascii.eqb_neq in Hlf, Hcr. rewrite Hlf, Hcr.
    rewrite IH by exact Hl. now rewrite append_assoc_str.
Qed.

Lemma readlines_from_end (l : string) :
  no_break l -> forall line : string,
  Conf.readlines_from line l
  = match line +:+ l with
    | EmptyString => []
    | String c s => [String c s]
    end.
Proof.
  induction l as [|c l IH]; intros Hl line.
  - cbn [Conf.readlines_from]. rewrite append_empty_r. now destruct line.
  - apply no_break_cons in Hl as [[Hlf Hcr] Hl].
    cbn [Conf.readlines_from].
    apply Ascii.eqb_neq in Hlf, Hcr. rewrite Hlf, Hcr.
    rewrite IH by exact Hl. now rewrite append_assoc_str.
Qed.

Lemma parse_readlines (ls : list string) :
  Forall no_break ls -> forall st : Conf.Parse,
  Conf.parse_lines
    (Conf.readlines (PyStr.join (String Conf.LF EmptyString) ls)) st
  = Conf.parse_lines ls st.
Proof.
  unfold Conf.readlines, PyStr.join.
  induction 1 as [|x ls Hx Hls IH]; intros st; [reflexivity|].
  destruct ls as [|y ys].
  - cbn [String.concat]. rewrite readlines_from_end by exact Hx.
    destruct x as [|c x]; reflexivity.
  - change (String.concat (String Conf.LF "") (x :: y :: ys))
      with (x +:+ String Conf.LF
                    (String.concat (String Conf.LF "") (y :: ys))).
    rewrite readlines_from_line by exact Hx.
    cbn [Conf.parse_lines]. change ("" +:+ x +:+ String Conf.LF "")
      with (x +:+ String Conf.LF "").
    rewrite parse_line_newline.
    destruct (Conf.parse_line x st); [apply IH|reflexivity].
Qed.

Lemma config_lines_no_break (c : Plugin.PluginConfig) :
  one_line_values c -> Forall no_break (Conf.config_lines c).
Proof.
  intros (Hd & Hv & Ha & Hev). unfold Conf.config_lines.
  repeat (apply Forall_cons; split;
          [try (apply no_break_append; [now apply no_break_solid|assumption])|]).
  - apply no_break_append; [now apply no_break_solid|].
    destruct (Plugin.enabled c); now apply no_break_solid.
  - now apply no_break_solid.
  - cbn [app]. induction Hev as [|[e acts] evs [He Hacts] _ IH]; [constructor|].
    cbn [flat_map]. apply Forall_app. split; [|exact IH].
    unfold Conf.event_lines. cbn [fst snd] in *.
    apply Forall_cons. split.
    + apply no_break_append; [now apply no_break_solid|].
      apply no_break_append; [exact He|now apply no_break_solid].
    + apply Forall_app. split.
      * apply Forall_fmap. eapply Forall_impl; [exact Hacts|].
        intros a Hna. cbn.
        apply no_break_append; [now apply no_break_solid|exact Hna].
      * apply Forall_cons. split; [now apply no_break_solid|constructor].
Qed.

Lemma as_read_id (c : Plugin.PluginConfig) :
  Conf.rstrip (Plugin.description c) = Plugin.description c ->
  Conf.rstrip (Plugin.version c) = Plugin.version c ->
  Conf.rstrip (Plugin.author c) = Plugin.author c ->
  Forall (fun ev => (fst ev = "" -> snd ev = [])
                    /\ Forall (fun a => Conf.rstrip a = a) (snd ev))
    (Plugin.events c) ->
  as_read c = c.
Proof.
  intros Hd Hv Ha Hev. unfold as_read. rewrite Hd, Hv, Ha.
  destruct c as [en d v a evs]. cbn [Plugin.enabled Plugin.description
    Plugin.version Plugin.author Plugin.events] in *. f_equal.
  induction Hev as [|[e acts] evs [He Hacts] _ IH]; [reflexivity|].
  cbn [map fst snd] in *. rewrite IH. f_equal. f_equal.
  destruct (String.eqb_spec e "") as [->|Hne]; [now rewrite He|].
  induction Hacts as [|x l Hx _ IHl]; [reflexivity|].
  cbn [map]. now rewrite Hx, IHl.
Qed.

Lemma no_break_check (s : string) :
  forallb (fun c => negb (Ascii.eqb c Conf.LF) && negb (Ascii.eqb c Conf.CR))
    (list_ascii_of_string s) = true ->
  no_break s.
Proof.
  induction s as [|c s IH]; cbn [list_ascii_of_string forallb].
  - intros _ x Hx. inversion Hx.
  - intros H. apply andb_true_iff in H as [Hc Hs]. apply no_break_cons.
    split; [|now apply IH].
    apply andb_true_iff in Hc as [Hlf Hcr].
    apply negb_true_iff in Hlf, Hcr. now apply Ascii.eqb_neq in Hlf, Hcr.
Qed.

(** X24: reading back the [plugin.conf] that [_save_plugin_config] writes.
    For a configuration whose values, event names and actions hold no line
    end and whose events have different names, [_load_config] on the text
    written gives the configuration again, except that the description, the
    version, the author and every action have lost the white space at their
    end, and that an event with the empty name has lost its actions. So a
    configuration without such white space, whose unnamed event (if any)
    has no action, is read back as it was. *)
Theorem load_saved_config (c : Plugin.PluginConfig) :
  one_line_values c ->
  NoDup (Dict.keys (Plugin.events c)) ->
  Conf._load_config (Some (Conf.config_text c)) = as_read c
  /\ (Conf.rstrip (Plugin.description c) = Plugin.description c ->
      Conf.rstrip (Plugin.version c) = Plugin.version c ->
      Conf.rstrip (Plugin.author c) = Plugin.author c ->
      Forall (fun ev => (fst ev = "" -> snd ev = [])
                        /\ Forall (fun a => Conf.rstrip a = a) (snd ev))
        (Plugin.events c) ->
      Conf._load_config (Some (Conf.config_text c)) = c).
Proof.
  intros Hone Hnd.
  assert (H : Conf._load_config (Some (Conf.config_text c)) = as_read c).
  { unfold Conf._load_config, Conf.config_text.
    rewrite parse_readlines by now apply config_lines_no_break.
    now apply parse_config_lines. }
  split; [exact H|]. intros Hd Hv Ha Hev. rewrite H. now apply as_read_id.
Qed.

Lemma load_saved_config_witness :
  Conf._load_config
    (Some (Conf.config_text
             {| Plugin.enabled := false;
                Plugin.description := "Greets the user ";
                Plugin.version := "2.0"; Plugin.author := "ada";
                Plugin.events :=
                  [("post-install", ["notify:installed $packages"; "log:done "]);
                   ("", ["run:true"])] |}))
  = {| Plugin.enabled := false;
       Plugin.description := "Greets the user";
       Plugin.version := "2.0"; Plugin.author := "ada";
       Plugin.events :=
         [("post-install", ["notify:installed $packages"; "log:done"]);
          ("", [])] |}.
Proof.
  destruct (load_saved_config
              {| Plugin.enabled := false;
                 Plugin.description := "Greets the user ";
                 Plugin.version := "2.0"; Plugin.author := "ada";
                 Plugin.events :=
                   [("post-install",
                     ["notify:installed $packages"; "log:done "]);
                    ("", ["run:true"])] |}) as [H _].
  - unfold one_line_values.
    split; [apply no_break_check; reflexivity|].
    split; [apply no_break_check; reflexivity|].
    split; [apply no_break_check; reflexivity|].
    cbn [Plugin.events]. apply Forall_cons. split.
    + split; [apply no_break_check; reflexivity|].
      apply Forall_cons. split; [apply no_break_check; reflexivity|].
      apply Forall_cons. split; [apply no_break_check; reflexivity|constructor].
    + apply Forall_cons. split; [|constructor].
      split; [apply no_break_check; reflexivity|].
      apply Forall_cons. split; [apply no_break_check; reflexivity|constructor].
  - cbn. compute_done.
  - exact H.
Defined.
